(** * micropiscope: button classifier, storage helpers and event loop

    A shallow embedding of [apps/micropiscope.cpp].  The program talks to
    the operating system (mount table, [umount], the file system, two
    clocks), to the pigpio interrupt thread and to the camera pipeline.
    The embedding keeps the program text and makes everything around it
    explicit:

    - [Env] holds what the outside world answers (the content of
      [/proc/mounts], the outcome of an [umount] issued at a given time,
      what the file system does with a path, how the clock moves while
      the program sleeps or sits in a system call, whether [reboot]
      powers the machine off, the wall clock, ...);
    - [World] holds what changes in the course of a run (the reading of
      the clock, [errno], the directories that exist, the fields of
      [RPiCamJpegApp], the function-local static of [_callback]) and a
      chronological [trace] of every externally visible action;
    - [M] is a state monad over [World] with C++ exceptions, the end of
      the process by power-off and the cut-off of the one unbounded loop
      as further kinds of result. *)

From Stdlib Require Import ZArith List String Ascii Bool Lia DecimalString.
Import ListNotations.

Open Scope list_scope.
Open Scope string_scope.
Open Scope Z_scope.

(** * The program *)

(** ** Constants of the source and of pigpio *)

Module KeyType.
Definition KEY_UP : Z := 15.
Definition KEY_DOWN : Z := 4.
Definition KEY_LEFT : Z := 17.
Definition KEY_RIGHT : Z := 2.
Definition KEY_MENU : Z := 14.
Definition KEY_POWER : Z := 18.
End KeyType.

(** [KEY_POWER_DOWN_MS] is declared but the callback compares with the
    literal [2000 * 1000] microseconds. *)
Definition KEY_POWER_DOWN_MS : Z := 2000.
Definition KEY_MENU_DOWN_MS : Z := 100.
Definition UMOUNT_TIMEOUT_S : Z := 5.

(** Levels reported by pigpio ([pigpio.h]: [PI_LOW] is 0, [PI_HIGH] is 1;
    2 is the watchdog report, which is no level change). *)
Definition PI_LOW : Z := 0.
Definition PI_HIGH : Z := 1.

(** ** Data *)

(** [struct tm], the fields [strftime] reads here. *)
Record tm := mk_tm {
  tm_sec : Z;
  tm_min : Z;
  tm_hour : Z;
  tm_mday : Z;
  tm_mon : Z;     (* months since January *)
  tm_year : Z     (* years since 1900 *)
}.

Inductive DeviceMode := Viewfinder | Still.

Inductive CamCmd :=
| CmdOpenCamera
| CmdConfigureViewfinder
| CmdConfigureStill
| CmdStartCamera
| CmdStopCamera
| CmdTeardown
| CmdShowPreview.

(** What the file system does with a path when [generate_filename] asks
    for it (lines 115-116).  The status query of
    [std::filesystem::is_directory(p)] may fail in the operating system
    for another reason than "not found" ([StatusError]): the overload
    without an [error_code] argument reports that by throwing
    [filesystem_error].  Otherwise [is_directory] answers whether the
    directory is there, and when it is not,
    [std::filesystem::create_directory(p)] creates the directory and
    returns true; or finds it there after all and returns false; or
    fails in the operating system, which the overload without an
    [error_code] argument again reports by throwing
    [filesystem_error]. *)
Inductive MkdirOutcome :=
| MkdirCreated
| MkdirExists
| MkdirError (what : string)
| StatusError (what : string).

(** Every externally visible action, in the order of the program. *)
Inductive Action :=
| ALog (level : Z) (msg : string)
| ALogError (msg : string)
| AStdout (msg : string)
| ASync
| AUmount (path : string) (at_ns : Z) (err : option string)
| AUmount2Force (path : string) (at_ns : Z) (err : option string)
| ASleep (ns : Z)
| ACreateDirectory (path : string)
| AReboot
| AJpegSave (filename : string) (ok : bool)
| ACam (c : CamCmd)
| AOptionsPrint
| AGpioSetup (key : Z)
| AGpioTerminate.

(** The answers of the outside world.  An [umount] outcome is [None] for
    success and [Some e] for failure with [strerror(errno) = e]; it may
    depend on the path and on the reading of the clock at the call.

    The clock is [std::chrono::high_resolution_clock], which the
    standard library of the target defines as [system_clock]: it is not
    steady, its reading moves back when the time of the system is set
    back.  [sleep_jitter t] is the difference between the reading after
    a sleep that was entered at reading [t] and [t] plus the requested
    duration: the overshoot of the sleep, less what the clock was set
    back by meanwhile.  [call_time t] is what the reading changes by
    across a system call ([sync], [umount], [umount2]) entered at
    reading [t].  Both may be negative.

    The retry loop of [unmount_drive] has no bound of its own;
    [umount_rounds] is the number of rounds for which a run is followed,
    see [umount_loop].  [reboot_ok] tells whether
    [reboot(LINUX_REBOOT_CMD_POWER_OFF)] powers the machine off. *)
Record Env := mk_Env {
  proc_mounts : option string;
  wall_clock : tm;
  mkdir_outcome : string -> MkdirOutcome;
  umount_at : string -> Z -> option string;
  umount2_at : string -> Z -> option string;
  sleep_jitter : Z -> Z;
  encode_ok : string -> bool;
  gpio_init_ok : bool;
  parse_ok : bool;
  verbose : Z;
  call_time : Z -> Z;
  umount_rounds : nat;
  reboot_ok : bool
}.

Record World := mk_World {
  env : Env;
  clock : Z;
  errno : string;
  dirs : list string;
  doShutdown : bool;
  takeImage : bool;
  keyPowerTimeStart : option Z;
  mode : option DeviceMode;
  running : bool;
  trace : list Action
}.

Definition set_env (e : Env) (w : World) : World :=
  mk_World e (clock w) (errno w) (dirs w) (doShutdown w) (takeImage w)
           (keyPowerTimeStart w) (mode w) (running w) (trace w).
Definition set_clock (c : Z) (w : World) : World :=
  mk_World (env w) c (errno w) (dirs w) (doShutdown w) (takeImage w)
           (keyPowerTimeStart w) (mode w) (running w) (trace w).
Definition set_errno (e : string) (w : World) : World :=
  mk_World (env w) (clock w) e (dirs w) (doShutdown w) (takeImage w)
           (keyPowerTimeStart w) (mode w) (running w) (trace w).
Definition set_dirs (d : list string) (w : World) : World :=
  mk_World (env w) (clock w) (errno w) d (doShutdown w) (takeImage w)
           (keyPowerTimeStart w) (mode w) (running w) (trace w).
Definition set_doShutdown (b : bool) (w : World) : World :=
  mk_World (env w) (clock w) (errno w) (dirs w) b (takeImage w)
           (keyPowerTimeStart w) (mode w) (running w) (trace w).
Definition set_takeImage (b : bool) (w : World) : World :=
  mk_World (env w) (clock w) (errno w) (dirs w) (doShutdown w) b
           (keyPowerTimeStart w) (mode w) (running w) (trace w).
Definition set_keyPowerTimeStart (t : option Z) (w : World) : World :=
  mk_World (env w) (clock w) (errno w) (dirs w) (doShutdown w) (takeImage w)
           t (mode w) (running w) (trace w).
Definition set_mode (m : option DeviceMode) (w : World) : World :=
  mk_World (env w) (clock w) (errno w) (dirs w) (doShutdown w) (takeImage w)
           (keyPowerTimeStart w) m (running w) (trace w).
Definition set_running (b : bool) (w : World) : World :=
  mk_World (env w) (clock w) (errno w) (dirs w) (doShutdown w) (takeImage w)
           (keyPowerTimeStart w) (mode w) b (trace w).
Definition set_trace (t : list Action) (w : World) : World :=
  mk_World (env w) (clock w) (errno w) (dirs w) (doShutdown w) (takeImage w)
           (keyPowerTimeStart w) (mode w) (running w) t.

(** ** The monad *)

Inductive exn :=
| runtime_error (what : string)
| filesystem_error (what : string)
| out_of_range (what : string).

(** A computation returns; or throws; or is still in the retry loop of
    [unmount_drive] when the rounds the model follows are used up
    ([OutOfFuel]); or ends with the process because the machine is
    powered off ([PoweredOff]). *)
Inductive Res (A : Type) :=
| Ret (a : A)
| Throw (e : exn)
| OutOfFuel
| PoweredOff.
Arguments Ret {A} a.
Arguments Throw {A} e.
Arguments OutOfFuel {A}.
Arguments PoweredOff {A}.

Definition M (A : Type) : Type := World -> Res A * World.

Definition ret {A} (a : A) : M A := fun w => (Ret a, w).
Definition throw {A} (e : exn) : M A := fun w => (Throw e, w).
Definition bind {A B} (c : M A) (k : A -> M B) : M B :=
  fun w =>
    match c w with
    | (Ret a, w') => k a w'
    | (Throw e, w') => (Throw e, w')
    | (OutOfFuel, w') => (OutOfFuel, w')
    | (PoweredOff, w') => (PoweredOff, w')
    end.
Definition lift {A} (r : Res A) : M A := fun w => (r, w).
Definition gets {A} (f : World -> A) : M A := fun w => (Ret (f w), w).
Definition modify (f : World -> World) : M unit := fun w => (Ret tt, f w).
Definition emit (a : Action) : M unit :=
  modify (fun w => set_trace (trace w ++ [a])%list w).

Declare Scope m_scope.
Delimit Scope m_scope with m.
Notation "x <- c ;; k" := (bind c (fun x => k))
  (at level 61, c at next level, right associativity) : m_scope.
Notation "c ;; k" := (bind c (fun _ => k))
  (at level 61, right associativity) : m_scope.
Open Scope m_scope.

(** The logging macros of [core/logging.hpp]; the trace records the call,
    whatever the verbosity then prints. *)
Definition LOG (level : Z) (msg : string) : M unit := emit (ALog level msg).
Definition LOG_ERROR (msg : string) : M unit := emit (ALogError msg).

(** ** std::string on a [size_t] of 64 bits *)

Definition size_mod : Z := 2 ^ 64.
Definition npos : Z := size_mod - 1.
Definition size_add (a b : Z) : Z := (a + b) mod size_mod.
Definition size_sub (a b : Z) : Z := (a - b) mod size_mod.
Definition size (s : string) : Z := Z.of_nat (String.length s).

(** [s.find(sub, pos)]: the first position at or after [pos] where [sub]
    occurs, [npos] when there is none. *)
Definition find (s sub : string) (pos : Z) : Z :=
  if size s <? pos then npos
  else match index (Z.to_nat pos) sub s with
       | Some i => Z.of_nat i
       | None => npos
       end.

(** [s.substr(pos, count)]: throws [out_of_range] when [pos] is past the
    end, else the characters from [pos], at most [count] of them. *)
Definition substr (s : string) (pos count : Z) : Res string :=
  if size s <? pos then Throw (out_of_range "basic_string::substr")
  else Ret (substring (Z.to_nat pos) (Z.to_nat (Z.min count (size s - pos))) s).

(** The lines [std::getline] hands out until it fails: a final line
    without a newline is still a line, nothing after the last newline
    is not. *)
Fixpoint getlines (content : string) : list string :=
  match content with
  | EmptyString => []
  | String c rest =>
      if Ascii.eqb c "010" then EmptyString :: getlines rest
      else match getlines rest with
           | [] => [String c EmptyString]
           | l :: ls => String c l :: ls
           end
  end.

(** ** get_mount_location (lines 42-67) *)

(** Lines 57-60: the text between the first and the second space. *)
Definition mount_field (line : string) : Res string :=
  let start := find line " " 0 in
  let end_ := find line " " (size_add start 1) in
  substr line (size_add start 1) (size_sub (size_sub end_ start) 1).

(** The [while (std::getline(mounts, line))] loop with its variable
    [mountLocation]. *)
Fixpoint scan_mounts (lines : list string) (mountLocation : string) : Res string :=
  match lines with
  | [] => Ret mountLocation
  | line :: rest =>
      if negb (find line "/media/" 0 =? npos) then
        match mount_field line with
        | Ret m => scan_mounts rest m
        | Throw e => Throw e
        | OutOfFuel => OutOfFuel
        | PoweredOff => PoweredOff
        end
      else scan_mounts rest mountLocation
  end.

Definition get_mount_location : M string :=
  mounts <- gets (fun w => proc_mounts (env w)) ;;
  match mounts with
  | None => ret ""
  | Some content => lift (scan_mounts (getlines content) "")
  end.

(** ** Operating system calls *)

(** The reading of the clock, in nanoseconds
    ([std::chrono::high_resolution_clock::now()]). *)
Definition now : M Z := gets clock.

(** The reading moves while the program sits in a system call. *)
Definition elapse : M unit :=
  modify (fun w => set_clock (clock w + call_time (env w) (clock w)) w).

Definition sync : M unit := emit ASync ;; elapse.

Definition strerror_errno : M string := gets errno.

(** [umount(path)]: 0 on success, -1 with [errno] set on failure. *)
Definition umount (path : string) : M Z :=
  r <- gets (fun w => umount_at (env w) path (clock w)) ;;
  t <- now ;;
  emit (AUmount path t r) ;;
  elapse ;;
  match r with
  | None => ret 0
  | Some e => modify (set_errno e) ;; ret (-1)
  end.

(** [umount2(path, MNT_FORCE)]. *)
Definition umount2_force (path : string) : M Z :=
  r <- gets (fun w => umount2_at (env w) path (clock w)) ;;
  t <- now ;;
  emit (AUmount2Force path t r) ;;
  elapse ;;
  match r with
  | None => ret 0
  | Some e => modify (set_errno e) ;; ret (-1)
  end.

(** [std::this_thread::sleep_for(d)] blocks for at least [d]; what the
    clock reads afterwards is up to the outside world. *)
Definition sleep_for (ns : Z) : M unit :=
  emit (ASleep ns) ;;
  modify (fun w => set_clock (clock w + ns + sleep_jitter (env w) (clock w)) w).

(** [reboot(LINUX_REBOOT_CMD_POWER_OFF)]: when it succeeds the machine
    is powered off and the call does not return; when it fails (the
    caller lacks the privilege) it returns -1, which the program does
    not look at. *)
Definition reboot_power_off : M unit :=
  emit AReboot ;;
  ok <- gets (fun w => reboot_ok (env w)) ;;
  if ok then lift PoweredOff else ret tt.

(** [std::filesystem::is_directory(p)], the overload that throws. *)
Definition is_directory (p : string) : M bool :=
  o <- gets (fun w => mkdir_outcome (env w) p) ;;
  match o with
  | StatusError what => throw (filesystem_error what)
  | _ => gets (fun w => existsb (String.eqb p) (dirs w))
  end.

(** [std::filesystem::create_directory(p)], the overload that throws. *)
Definition create_directory (p : string) : M bool :=
  o <- gets (fun w => mkdir_outcome (env w) p) ;;
  match o with
  | MkdirCreated =>
      emit (ACreateDirectory p) ;;
      modify (fun w => set_dirs (p :: dirs w) w) ;;
      ret true
  | MkdirExists => ret false
  | MkdirError what => throw (filesystem_error what)
  | StatusError what => throw (filesystem_error what)
  end.

(** [std::time] followed by [std::localtime]. *)
Definition localtime_now : M tm := gets (fun w => wall_clock (env w)).

(** ** unmount_drive (lines 69-100) *)

(** Durations on the clock: [1000ms] and [UMOUNT_TIMEOUT_S] in its
    nanoseconds. *)
Definition ms (n : Z) : Z := n * 1000000.
Definition UMOUNT_TIMEOUT_NS : Z := UMOUNT_TIMEOUT_S * 1000000000.

Definition empty (s : string) : bool := String.eqb s "".

(** The [while (umount(...) < 0)] loop of lines 81-99.  The loop is left
    by a successful attempt or by the test of the elapsed time, and by
    nothing else: while [umount] fails and the clock does not read more
    than five seconds past [start_time] it goes round.  [fuel] is the
    number of rounds the model follows; a run that is still in the loop
    then ends in [OutOfFuel]. *)
Fixpoint umount_loop (fuel : nat) (mountLocation : string) (start_time : Z) : M unit :=
  match fuel with
  | O => lift OutOfFuel
  | S fuel' =>
      rc <- umount mountLocation ;;
      if rc <? 0 then
        e <- strerror_errno ;;
        LOG 1 ("Re-attempting to unmount device. Error: " ++ e) ;;
        sleep_for (ms 1000) ;;
        now_ <- now ;;
        if now_ - start_time >? UMOUNT_TIMEOUT_NS then
          e' <- strerror_errno ;;
          LOG 1 ("Attempting to force unmount device. Error: " ++ e') ;;
          rc' <- umount2_force mountLocation ;;
          if rc' <? 0 then LOG_ERROR "ERROR Failed to unmount device"
          else ret tt
        else umount_loop fuel' mountLocation start_time
      else ret tt
  end.

(** [unmount_drive], with the rounds of its loop the model follows.  The
    report of lines 73-75 is not followed by a [return]. *)
Definition unmount_drive_fuel (fuel : nat) : M unit :=
  mountLocation <- get_mount_location ;;
  (if empty mountLocation
   then LOG_ERROR "ERROR Unmounting drive, cannot find mount location"
   else ret tt) ;;
  sync ;;
  start_time <- now ;;
  umount_loop fuel mountLocation start_time.

(** The call as the program makes it: the number of rounds followed is
    part of the outside world, so that every statement about a world
    holds for every such number. *)
Definition unmount_drive : M unit :=
  rounds <- gets (fun w => umount_rounds (env w)) ;;
  unmount_drive_fuel rounds.

(** ** generate_filename (lines 102-140) *)

Definition dec (n : Z) : string := NilZero.string_of_int (Z.to_int n).

Definition pad2 (s : string) : string :=
  if (String.length s <? 2)%nat then "0" ++ s else s.

(** The conversions of [strftime] that the source uses. *)
Definition strftime_conv (c : ascii) (t : tm) : string :=
  if Ascii.eqb c "Y" then dec (tm_year t + 1900)
  else if Ascii.eqb c "m" then pad2 (dec (tm_mon t + 1))
  else if Ascii.eqb c "d" then pad2 (dec (tm_mday t))
  else if Ascii.eqb c "H" then pad2 (dec (tm_hour t))
  else if Ascii.eqb c "M" then pad2 (dec (tm_min t))
  else if Ascii.eqb c "S" then pad2 (dec (tm_sec t))
  else EmptyString.

Fixpoint strftime_expand (format : string) (t : tm) : string :=
  match format with
  | EmptyString => EmptyString
  | String c rest =>
      if Ascii.eqb c "%" then
        match rest with
        | EmptyString => EmptyString
        | String d rest' => strftime_conv d t ++ strftime_expand rest' t
        end
      else String c (strftime_expand rest t)
  end.

(** [strftime(buf, maxsize, format, t)]: the expansion when it fits with
    its terminating zero; otherwise [strftime] returns 0 and leaves the
    buffer unspecified, which is read as the empty string here. *)
Definition strftime (maxsize : Z) (format : string) (t : tm) : string :=
  let s := strftime_expand format t in
  if size s <? maxsize then s else EmptyString.

(** [snprintf(buf, n, "%s.jpg", s)] keeps at most [n - 1] characters. *)
Definition snprintf_jpg (n : Z) (s : string) : string :=
  substring 0 (Z.to_nat (n - 1)) (s ++ ".jpg").

Definition generate_filename : M string :=
  mountLocation <- get_mount_location ;;
  if empty mountLocation then ret ""
  else
    let mountLocation := mountLocation ++ "/micropiscope" in
    isdir <- is_directory mountLocation ;;
    bail <- (if negb isdir
             then created <- create_directory mountLocation ;; ret (negb created)
             else ret false) ;;
    if bail then ret ""
    else
      time_info <- localtime_now ;;
      let time_string := strftime 32 "%Y-%m-%d-%H-%M-%S" time_info in
      let filename := snprintf_jpg 128 time_string in
      let mountLocation := mountLocation ++ "/" in
      let mountLocation := mountLocation ++ filename in
      emit (AStdout ("Saving image at " ++ mountLocation)) ;;
      ret mountLocation.

(** ** RPiCamJpegApp (lines 142-222) *)

Import KeyType.

(** Modelled from the spec: the pipeline interface of [RPiCamApp]
    ([core/rpicam_app.hpp], not part of the sources at hand): "open/close,
    configure(mode), start/stop".  Configuring selects the device mode,
    tearing down leaves none selected; [ViewfinderStream] and
    [StillStream] tell which mode is configured. *)
Definition OpenCamera : M unit := emit (ACam CmdOpenCamera).
Definition ConfigureViewfinder : M unit :=
  emit (ACam CmdConfigureViewfinder) ;; modify (set_mode (Some Viewfinder)).
Definition ConfigureStill : M unit :=
  emit (ACam CmdConfigureStill) ;; modify (set_mode (Some Still)).
Definition Teardown : M unit :=
  emit (ACam CmdTeardown) ;; modify (set_mode None).
Definition StartCamera : M unit :=
  emit (ACam CmdStartCamera) ;; modify (set_running true).
Definition StopCamera : M unit :=
  emit (ACam CmdStopCamera) ;; modify (set_running false).
Definition ShowPreview : M unit := emit (ACam CmdShowPreview).
Definition ViewfinderStream : M bool :=
  gets (fun w => match mode w with Some Viewfinder => true | _ => false end).
Definition StillStream : M bool :=
  gets (fun w => match mode w with Some Still => true | _ => false end).

(** Modelled from the spec: the still encoder [jpeg_save]
    ([image/image.hpp], not part of the sources at hand): "encode(buffer,
    streamInfo, metadata, destinationPath, deviceLabel, options) ->
    success/failure".  The event loop does not look at the outcome. *)
Definition jpeg_save (filename : string) : M unit :=
  ok <- gets (fun w => encode_ok (env w) filename) ;;
  emit (AJpegSave filename ok).

(** The constructor: both flags false, every key set up. *)
Definition RPiCamJpegApp : M unit :=
  modify (set_doShutdown false) ;;
  modify (set_takeImage false) ;;
  emit (AGpioSetup KEY_UP) ;;
  emit (AGpioSetup KEY_DOWN) ;;
  emit (AGpioSetup KEY_LEFT) ;;
  emit (AGpioSetup KEY_RIGHT) ;;
  emit (AGpioSetup KEY_MENU) ;;
  emit (AGpioSetup KEY_POWER).

Definition uint32 (x : Z) : Z := x mod 2 ^ 32.

(** [_callback] (lines 163-188).  [keyPowerTimeStart] is a static local:
    it takes the value of [tick] the first time control passes its
    declaration, that is at the first Power event. *)
Definition _callback (gpio level tick : Z) : M unit :=
  if gpio =? KEY_POWER then
    init <- gets keyPowerTimeStart ;;
    (match init with
     | None => modify (set_keyPowerTimeStart (Some tick))
     | Some _ => ret tt
     end) ;;
    start <- gets (fun w => match keyPowerTimeStart w with
                            | Some s => s
                            | None => tick
                            end) ;;
    if level =? PI_LOW then modify (set_keyPowerTimeStart (Some tick))
    else if (level =? PI_HIGH) && (uint32 (tick - start) >? 2000 * 1000) then
      LOG 1 "KEY POWER" ;;
      modify (set_doShutdown true)
    else ret tt
  else if (gpio =? KEY_MENU) && (level =? PI_LOW) then
    LOG 1 "KEY MENU" ;;
    modify (set_takeImage true)
  else if (gpio =? KEY_DOWN) && (level =? PI_LOW) then
    LOG 1 "KEY DOWN" ;;
    unmount_drive
  else ret tt.

Definition _callbackExt (gpio level tick : Z) : M unit :=
  _callback gpio level tick.

Definition DoShutdown : M bool :=
  b <- gets doShutdown ;;
  if b then modify (set_doShutdown false) ;; ret true
  else ret false.

Definition TakeImage : M bool :=
  b <- gets takeImage ;;
  if b then modify (set_takeImage false) ;; ret true
  else ret false.

(** ** event_loop (lines 226-298) *)

Inductive MsgType := RequestComplete | Timeout | Quit | Unrecognised.

(** Whether the [for (;;)] goes round again or the function returns. *)
Inductive Ctl := Continue | Return.

(** One pass through the body of the loop, for the message [app.Wait()]
    returned.  Reading the stream information and mapping the buffer
    (lines 280-284) have no effect of their own and leave no action. *)
Definition loop_body (msg : MsgType) : M Ctl :=
  match msg with
  | Timeout =>
      LOG_ERROR "ERROR: Device timeout detected, attempting a restart!!!" ;;
      StopCamera ;;
      StartCamera ;;
      ret Continue
  | Quit => ret Return
  | Unrecognised => throw (runtime_error "unrecognised message!")
  | RequestComplete =>
      vf <- ViewfinderStream ;;
      if vf then
        take <- TakeImage ;;
        if take then
          StopCamera ;; Teardown ;; ConfigureStill ;; StartCamera ;;
          ret Continue
        else
          down <- DoShutdown ;;
          if down then
            StopCamera ;; Teardown ;;
            LOG 1 "Shutting down!" ;;
            sync ;;
            reboot_power_off ;;
            ret Return
          else
            ShowPreview ;;
            ret Continue
      else
        st <- StillStream ;;
        if st then
          StopCamera ;;
          LOG 1 "Still capture image received" ;;
          filename <- generate_filename ;;
          (if empty filename
           then LOG_ERROR "Cannot save image, no mounted drive!"
           else jpeg_save filename) ;;
          Teardown ;; ConfigureViewfinder ;; StartCamera ;;
          ret Continue
        else ret Continue
  end.

(** What happens while the loop runs: [app.Wait()] returns a message, the
    interrupt thread delivers an edge through [_callbackExt] between two
    passes, or the outside world changes its answers. *)
Inductive Input :=
| IWait (msg : MsgType)
| IEdge (gpio level tick : Z)
| IEnv (e : Env).

(** What one input does to the loop. *)
Definition input_step (i : Input) : M Ctl :=
  match i with
  | IWait msg => loop_body msg
  | IEdge gpio level tick => _callbackExt gpio level tick ;; ret Continue
  | IEnv e => modify (set_env e) ;; ret Continue
  end.

(** How a run over finitely many inputs ends: [event_loop] has returned,
    or it sits in [app.Wait()] with the inputs used up. *)
Inductive LoopEnd := Returned | Waiting.

Fixpoint loop (inputs : list Input) : M LoopEnd :=
  match inputs with
  | [] => ret Waiting
  | i :: rest =>
      ctl <- input_step i ;;
      match ctl with
      | Continue => loop rest
      | Return => ret Returned
      end
  end.

Definition event_loop (inputs : list Input) : M LoopEnd :=
  OpenCamera ;;
  ConfigureViewfinder ;;
  StartCamera ;;
  loop inputs.

(** ** main (lines 300-323) *)

Definition what (e : exn) : string :=
  match e with
  | runtime_error s => s
  | filesystem_error s => s
  | out_of_range s => s
  end.

Definition main_try (inputs : list Input) : M LoopEnd :=
  ok <- gets (fun w => gpio_init_ok (env w)) ;;
  if negb ok then throw (runtime_error "GPIO init failed")
  else
    RPiCamJpegApp ;;
    parsed <- gets (fun w => parse_ok (env w)) ;;
    r <- (if parsed then
            v <- gets (fun w => verbose (env w)) ;;
            (if v >=? 2 then emit AOptionsPrint else ret tt) ;;
            event_loop inputs
          else ret Returned) ;;
    match r with
    | Returned => emit AGpioTerminate ;; ret Returned
    | Waiting => ret Waiting
    end.

(** The process: its exit status once [main] returns, [None] while the
    event loop still waits.  A power-off ends the process inside
    [event_loop]: nothing of [main] runs after it. *)
Definition main (inputs : list Input) : M (option Z) :=
  fun w =>
    match main_try inputs w with
    | (Ret Returned, w') => (Ret (Some 0), w')
    | (Ret Waiting, w') => (Ret None, w')
    | (Throw e, w') =>
        (LOG_ERROR ("ERROR: *** " ++ what e ++ " ***") ;; ret (Some (-1))) w'
    | (OutOfFuel, w') => (OutOfFuel, w')
    | (PoweredOff, w') => (PoweredOff, w')
    end.

(** * Vocabulary of the statements *)

(** ** Storage *)

(** A field of a mount record holds no space. *)
Fixpoint no_space (s : string) : bool :=
  match s with
  | EmptyString => true
  | String c r => negb (Ascii.eqb c " ") && no_space r
  end.

(** [is_directory] answers true: the status query does not fail and the
    directory is there. *)
Definition dir_exists (p : string) (w : World) : bool :=
  match mkdir_outcome (env w) p with
  | StatusError _ => false
  | _ => existsb (String.eqb p) (dirs w)
  end.

(** What filename generation yields in a world: a path, the empty
    string for "no destination", or an exception. *)
Definition destination (w : World) : Res string := fst (generate_filename w).

(** The file name in the words of the specification:
    [YYYY-MM-DD-HH-MM-SS.jpg], every number in decimal digits of fixed
    width. *)
Definition digit (n : Z) : ascii := ascii_of_nat (48 + Z.to_nat n).

Definition two_digits (n : Z) : string :=
  String (digit (n / 10)) (String (digit (n mod 10)) EmptyString).

Definition four_digits (n : Z) : string :=
  String (digit (n / 1000)) (String (digit (n / 100 mod 10)) (two_digits (n mod 100))).

Definition timestamp_jpg (t : tm) : string :=
  four_digits (tm_year t + 1900) ++ "-" ++ two_digits (tm_mon t + 1) ++ "-"
  ++ two_digits (tm_mday t) ++ "-" ++ two_digits (tm_hour t) ++ "-"
  ++ two_digits (tm_min t) ++ "-" ++ two_digits (tm_sec t) ++ ".jpg".

(** A wall-clock reading as [localtime] delivers it, in a year of four
    digits. *)
Definition calendar_time (t : tm) : Prop :=
  1000 <= tm_year t + 1900 <= 9999 /\
  0 <= tm_mon t <= 11 /\
  1 <= tm_mday t <= 31 /\
  0 <= tm_hour t <= 23 /\
  0 <= tm_min t <= 59 /\
  0 <= tm_sec t <= 60.

(** ** Unmount retry loop *)

(** One failed normal attempt as it shows in the trace: the attempt, its
    log line, the sleep of one second. *)
Definition retry_block (path : string) (f : Z * string) : list Action :=
  [AUmount path (fst f) (Some (snd f));
   ALog 1 ("Re-attempting to unmount device. Error: " ++ snd f);
   ASleep (ms 1000)].

(** The reading of the clock after a system call entered at reading
    [t]; and at the test of the elapsed time that follows a failed
    attempt entered at reading [t], after the call and the sleep of one
    second. *)
Definition after_call (e : Env) (t : Z) : Z := t + call_time e t.

Definition after_retry (e : Env) (t : Z) : Z :=
  after_call e t + ms 1000 + sleep_jitter e (after_call e t).

(** The forced attempt as it shows in the trace: its log line with the
    error of the normal attempt before it, the attempt with what the
    outside world answers at that reading, and the report when it
    fails. *)
Definition forced_block (e : Env) (path : string) (t : Z) (err : string) : list Action :=
  [ALog 1 ("Attempting to force unmount device. Error: " ++ err);
   AUmount2Force path t (umount2_at e path t)]
  ++ match umount2_at e path t with
     | Some _ => [ALogError "ERROR Failed to unmount device"]
     | None => []
     end.

(** The retry policy in the words of the specification, for the outside
    world [e], the volume [path] and the reading [start] from which the
    elapsed time counts.  [unmount_policy e path start t tr]: [tr] is
    what a loop that makes its next normal attempt at reading [t] does
    until it ends.
    - The attempt succeeds: the loop ends.
    - The attempt fails and after the sleep of one second the elapsed
      time is within the timeout: the next normal attempt follows.
    - The attempt fails and after the sleep the timeout is exceeded:
      exactly one forced attempt follows, and nothing after it. *)
Inductive unmount_policy (e : Env) (path : string) (start : Z) : Z -> list Action -> Prop :=
| normal_success t :
    umount_at e path t = None ->
    unmount_policy e path start t [AUmount path t None]
| retry_within_timeout t err rest :
    umount_at e path t = Some err ->
    after_retry e t - start <= UMOUNT_TIMEOUT_NS ->
    unmount_policy e path start (after_retry e t) rest ->
    unmount_policy e path start t (retry_block path (t, err) ++ rest)
| forced_past_timeout t err :
    umount_at e path t = Some err ->
    after_retry e t - start > UMOUNT_TIMEOUT_NS ->
    unmount_policy e path start t
      (retry_block path (t, err) ++ forced_block e path (after_retry e t) err).

(** The reading at which the normal attempt of round [k] is made, when
    the first one is made at [t] and every round before [k] went round
    again. *)
Fixpoint round_reading (e : Env) (t : Z) (k : nat) : Z :=
  match k with
  | O => t
  | S k' => round_reading e (after_retry e t) k'
  end.

(** Round [k] goes round again: its attempt fails, and after its sleep
    the elapsed time is within the timeout. *)
Definition goes_round (e : Env) (path : string) (start t : Z) (k : nat) : Prop :=
  (exists err, umount_at e path (round_reading e t k) = Some err) /\
  round_reading e t (S k) - start <= UMOUNT_TIMEOUT_NS.

(** The clock is not set back, and neither a system call nor the
    overshoot of a sleep takes negative time. *)
Definition steady_clock (e : Env) : Prop :=
  forall t, 0 <= call_time e t /\ 0 <= sleep_jitter e t.

(** The world after one failed normal attempt: [errno] set, the attempt,
    its log line and the sleep in the trace, the call and the sleep on
    the clock. *)
Definition failed_attempt (path e : string) (w : World) : World :=
  set_clock (after_retry (env w) (clock w))
    (set_trace (trace w ++ retry_block path (clock w, e))%list
       (set_errno e w)).

(** What [unmount_drive] and [generate_filename] leave alone: the fields
    of the application, the pipeline and its part of the trace. *)
Definition cam_actions (tr : list Action) : list CamCmd :=
  flat_map (fun a => match a with ACam c => [c] | _ => [] end) tr.

Record same_app (w w' : World) : Prop := mk_same_app {
  same_env : env w' = env w;
  same_doShutdown : doShutdown w' = doShutdown w;
  same_takeImage : takeImage w' = takeImage w;
  same_keyPowerTimeStart : keyPowerTimeStart w' = keyPowerTimeStart w;
  same_mode : mode w' = mode w;
  same_running : running w' = running w;
  same_cam_actions : cam_actions (trace w') = cam_actions (trace w)
}.

(** ** Buttons *)

(** The interrupt thread delivers the edges of one line in order. *)
Fixpoint deliver (gpio : Z) (edges : list (Z * Z)) : M unit :=
  match edges with
  | [] => ret tt
  | (level, tick) :: rest => _callbackExt gpio level tick ;; deliver gpio rest
  end.

(** Edges are level transitions: every level is low or high and differs
    from the one before. *)
Definition is_level (l : Z) : bool := (l =? PI_LOW) || (l =? PI_HIGH).

Fixpoint alternating (edges : list (Z * Z)) : bool :=
  match edges with
  | [] => true
  | (l1, _) :: rest =>
      is_level l1 &&
      match rest with
      | [] => true
      | (l2, _) :: _ => negb (l1 =? l2) && alternating rest
      end
  end.

(** The duration of an asserted interval as the tick counter of 32 bits
    measures it, in microseconds. *)
Definition hold_us (press release : Z) : Z := uint32 (release - press).

(** Some press (the line goes low) is followed by its release (the line
    goes high) more than the threshold later. *)
Fixpoint long_press_in (edges : list (Z * Z)) : bool :=
  match edges with
  | [] => false
  | (l1, t1) :: rest =>
      match rest with
      | [] => false
      | (l2, t2) :: _ =>
          ((l1 =? PI_LOW) && (l2 =? PI_HIGH)
           && (hold_us t1 t2 >? KEY_POWER_DOWN_MS * 1000))
          || long_press_in rest
      end
  end.

(** The edge before the ones still to come, if any, and what the static
    [keyPowerTimeStart] holds after it: nothing before the first Power
    event, the tick of the press after a press. *)
Definition with_prev (prev : option (Z * Z)) (edges : list (Z * Z)) : list (Z * Z) :=
  match prev with
  | None => edges
  | Some e => e :: edges
  end.

Definition last_edge (prev : option (Z * Z)) (edges : list (Z * Z)) : option (Z * Z) :=
  fold_left (fun _ e => Some e) edges prev.

Definition tracks (prev : option (Z * Z)) (w : World) : Prop :=
  match prev with
  | None => keyPowerTimeStart w = None
  | Some (l, t) => l = PI_LOW -> keyPowerTimeStart w = Some t
  end.

(** ** Intent flags *)

Inductive Flag := CaptureRequested | ShutdownRequested.

Inductive FlagOp := Raise | Consume.

(** A raise is what the classifier does: a press of Menu for
    [takeImage]; a press of Power and its release a little over two
    seconds later for [doShutdown]. *)
Definition raise (f : Flag) : M unit :=
  match f with
  | CaptureRequested => _callback KEY_MENU PI_LOW 0
  | ShutdownRequested =>
      _callback KEY_POWER PI_LOW 0 ;;
      _callback KEY_POWER PI_HIGH 2000001
  end.

(** A consumption is what the event loop calls. *)
Definition consume (f : Flag) : M bool :=
  match f with
  | CaptureRequested => TakeImage
  | ShutdownRequested => DoShutdown
  end.

Definition pending (f : Flag) (w : World) : bool :=
  match f with
  | CaptureRequested => takeImage w
  | ShutdownRequested => doShutdown w
  end.

(** An interleaving of raises and consumptions; the result lists what
    the consumptions returned. *)
Fixpoint interleave (f : Flag) (ops : list FlagOp) : M (list bool) :=
  match ops with
  | [] => ret []
  | Raise :: rest => raise f ;; interleave f rest
  | Consume :: rest =>
      b <- consume f ;;
      bs <- interleave f rest ;;
      ret (b :: bs)
  end.

(** A flag and not a counter: a consumption sees whether anything was
    raised since the consumption before it ([raised] at the start). *)
Fixpoint observed (raised : bool) (ops : list FlagOp) : list bool :=
  match ops with
  | [] => []
  | Raise :: rest => observed true rest
  | Consume :: rest => raised :: observed false rest
  end.

(** ** Event loop *)

(** The device modes configured in the course of a trace, in order. *)
Definition configured (tr : list Action) : list DeviceMode :=
  flat_map (fun c => match c with
                     | CmdConfigureViewfinder => [Viewfinder]
                     | CmdConfigureStill => [Still]
                     | _ => []
                     end) (cam_actions tr).

Definition other (m : DeviceMode) : DeviceMode :=
  match m with
  | Viewfinder => Still
  | Still => Viewfinder
  end.

Definition mode_eqb (a b : DeviceMode) : bool :=
  match a, b with
  | Viewfinder, Viewfinder => true
  | Still, Still => true
  | _, _ => false
  end.

(** [alternates m l]: the modes of [l] are [m], the other one, [m] again
    and so on. *)
Fixpoint alternates (next : DeviceMode) (l : list DeviceMode) : bool :=
  match l with
  | [] => true
  | m :: rest => mode_eqb m next && alternates (other next) rest
  end.

(** The modes configured in a world since the modes [c0] were: they
    begin with Viewfinder and alternate. *)
Definition alternating_since (c0 : list DeviceMode) (w : World) : Prop :=
  exists c, configured (trace w) = (c0 ++ Viewfinder :: c)%list /\
            alternates Viewfinder (Viewfinder :: c) = true.

(** The invariant of the loop between two passes: a mode is configured,
    and it is the one the alternation has reached. *)
Definition in_step (c0 : list DeviceMode) (w : World) : Prop :=
  exists m c, mode w = Some m /\
              configured (trace w) = (c0 ++ Viewfinder :: c)%list /\
              alternates Viewfinder (Viewfinder :: c ++ [other m]) = true.

(** ** Worlds and inputs of the examples *)

(** An outside world in which everything succeeds, on 2024-01-02 at
    03:04:05, with the given mount table. *)
Definition calm_env (mounts : option string) : Env :=
  mk_Env mounts (mk_tm 5 4 3 2 0 124)
         (fun _ => MkdirCreated) (fun _ _ => None) (fun _ _ => None)
         (fun _ => 0) (fun _ => true) true true 0
         (fun _ => 0) 16 true.

(** The process at its start. *)
Definition boot (e : Env) : World :=
  mk_World e 0 "" [] false false None None false [].

Definition mounts_usb : string :=
  "proc /proc proc rw,nosuid 0 0
/dev/sda1 /media/usb vfat rw,relatime 0 0
".

Definition mounts_two_usb : string :=
  "/dev/sda1 /media/usb vfat rw,relatime 0 0
proc /proc proc rw,nosuid 0 0
/dev/sdb1 /media/usb2 vfat rw,relatime 0 0
tmpfs /run tmpfs rw 0 0
".

(** A volume mounted below [/mnt/media], not below [/media]. *)
Definition mounts_mnt_media : string :=
  "/dev/root / ext4 rw,noatime 0 0
/dev/sda1 /mnt/media/usb vfat rw,relatime 0 0
".

Definition mounts_none : string :=
  "/dev/root / ext4 rw,noatime 0 0
proc /proc proc rw,nosuid 0 0
".

(** No removable volume is mounted, and every [umount] of the empty path
    fails the way Linux fails it. *)
Definition absent_env : Env :=
  mk_Env (Some mounts_none) (mk_tm 5 4 3 2 0 124)
         (fun _ => MkdirCreated)
         (fun _ _ => Some "No such file or directory")
         (fun _ _ => Some "No such file or directory")
         (fun _ => 0) (fun _ => true) true true 0
         (fun _ => 0) 16 true.

(** A busy volume: [umount] fails for six seconds and succeeds from then
    on. *)
Definition busy_env : Env :=
  mk_Env (Some mounts_usb) (mk_tm 5 4 3 2 0 124)
         (fun _ => MkdirCreated)
         (fun _ t => if t <? 6000000000 then Some "Device or resource busy" else None)
         (fun _ _ => None)
         (fun _ => 0) (fun _ => true) true true 0
         (fun _ => 0) 16 true.

(** A busy volume on a machine whose clock is set back by one second
    during every sleep. *)
Definition rewinding_env : Env :=
  mk_Env (Some mounts_usb) (mk_tm 5 4 3 2 0 124)
         (fun _ => MkdirCreated)
         (fun _ _ => Some "Device or resource busy")
         (fun _ _ => None)
         (fun _ => -1000000000) (fun _ => true) true true 0
         (fun _ => 0) 16 true.

(** A volume on which the subdirectory cannot be created. *)
Definition readonly_env : Env :=
  mk_Env (Some mounts_usb) (mk_tm 5 4 3 2 0 124)
         (fun _ => MkdirError "filesystem error: cannot create directory: Read-only file system [/media/usb/micropiscope]")
         (fun _ _ => None) (fun _ _ => None)
         (fun _ => 0) (fun _ => true) true true 0
         (fun _ => 0) 16 true.

(** A session: a capture, a stall, another capture with the volume gone
    meanwhile, then quit. *)
Definition session : list Input :=
  [IWait RequestComplete;
   IEdge KEY_MENU PI_LOW 1000000;
   IWait RequestComplete; IWait RequestComplete;
   IWait Timeout;
   IEnv (calm_env (Some mounts_none));
   IEdge KEY_MENU PI_LOW 9000000;
   IWait RequestComplete; IWait RequestComplete;
   IWait RequestComplete;
   IWait Quit].

(** A capture is requested and three frames complete. *)
Definition capture_frames : list Input :=
  [IEdge KEY_MENU PI_LOW 1000000;
   IWait RequestComplete; IWait RequestComplete; IWait RequestComplete].

(** ** Further vocabulary: mount table text *)

Fixpoint no_newline (s : string) : bool :=
  match s with
  | EmptyString => true
  | String c r => negb (Ascii.eqb c "010") && no_newline r
  end.

(** A text file of the given lines, each ended by a newline. *)
Fixpoint unlines (ls : list string) : string :=
  match ls with
  | [] => EmptyString
  | l :: rest => l ++ String "010" (unlines rest)
  end.


(** ** Further vocabulary: counting in the trace *)

Definition is_normal_attempt (a : Action) : bool :=
  match a with AUmount _ _ _ => true | _ => false end.

Definition is_forced_attempt (a : Action) : bool :=
  match a with AUmount2Force _ _ _ => true | _ => false end.

Definition normal_attempts (tr : list Action) : nat :=
  List.length (filter is_normal_attempt tr).

Definition forced_attempts (tr : list Action) : nat :=
  List.length (filter is_forced_attempt tr).


(** ** Further vocabulary: what storage code and callbacks may add to the trace *)

(** Actions that neither concern the pipeline nor save an image nor
    power the device off. *)
Definition harmless (a : Action) : Prop :=
  match a with
  | ACam _ | AJpegSave _ _ | AReboot => False
  | _ => True
  end.


(** ** Further vocabulary: the process after start-up *)

Definition gpio_setup : list Action :=
  map AGpioSetup [KEY_UP; KEY_DOWN; KEY_LEFT; KEY_RIGHT; KEY_MENU; KEY_POWER].

(** The world in which the loop starts: flags cleared by the
    constructor, keys set up, options printed when verbose, the camera
    opened, configured for the viewfinder and started. *)
Definition started (w : World) : World :=
  set_running true
    (set_mode (Some Viewfinder)
       (set_trace
          (trace w ++ gpio_setup
           ++ (if verbose (env w) >=? 2 then [AOptionsPrint] else [])
           ++ [ACam CmdOpenCamera; ACam CmdConfigureViewfinder; ACam CmdStartCamera])%list
          (set_takeImage false (set_doShutdown false w)))).

(** The inputs contain no event of the given line. *)
Definition no_edge_of (gpio : Z) (inputs : list Input) : Prop :=
  forall level tick, ~ In (IEdge gpio level tick) inputs.


(** What an idle pass leaves in the trace: a restart for a timeout, a
    preview for a frame. *)
Definition idle_actions (msg : MsgType) : list Action :=
  match msg with
  | Timeout =>
      [ALogError "ERROR: Device timeout detected, attempting a restart!!!";
       ACam CmdStopCamera; ACam CmdStartCamera]
  | RequestComplete => [ACam CmdShowPreview]
  | _ => []
  end.

Definition is_idle (msg : MsgType) : bool :=
  match msg with
  | Timeout | RequestComplete => true
  | _ => false
  end.


(** * Theorems *)

(** ** Storage Locator *)

Lemma prefix_space c s : prefix " " (String c s) = Ascii.eqb " " c.
Proof.
  change (prefix " " (String c s))
    with (match ascii_dec " " c with left _ => prefix "" s | right _ => false end).
  destruct (ascii_dec " " c) as [e|n].
  - subst. destruct s; reflexivity.
  - symmetry. apply Ascii.eqb_neq. exact n.
Qed.

Lemma index_space_bound : forall s n i,
  index n " " s = Some i -> (i < String.length s)%nat.
Proof.
  induction s as [|c s IH]; intros n i H.
  - destruct n; simpl in H; discriminate.
  - destruct n.
    + cbn [index] in H. rewrite prefix_space in H.
      destruct (Ascii.eqb " " c).
      * inversion H. simpl. lia.
      * destruct (index 0 " " s) eqn:E; [|discriminate].
        inversion H. apply IH in E. simpl. lia.
    + cbn [index] in H.
      destruct (index n " " s) eqn:E; [|discriminate].
      inversion H. apply IH in E. simpl. lia.
Qed.

Lemma index_space_first : forall a b,
  no_space a = true -> index 0 " " (a ++ String " " b) = Some (String.length a).
Proof.
  induction a as [|c a IH]; intros b H.
  - cbn [append index]. rewrite prefix_space. reflexivity.
  - simpl in H. apply andb_true_iff in H. destruct H as [Hc Ha].
    cbn [append index]. rewrite prefix_space.
    rewrite Ascii.eqb_sym. apply negb_true_iff in Hc. rewrite Hc.
    rewrite IH by assumption. reflexivity.
Qed.

Lemma index_space_second : forall a b c,
  no_space b = true ->
  index (S (String.length a)) " " (a ++ String " " (b ++ String " " c))
  = Some (S (String.length a + String.length b)).
Proof.
  induction a as [|x a IH]; intros b c H.
  - cbn [append index String.length]. rewrite index_space_first by assumption. reflexivity.
  - cbn [append index String.length]. rewrite IH by assumption. reflexivity.
Qed.

Lemma substring_skip : forall a n b,
  substring (String.length a) n (a ++ b) = substring 0 n b.
Proof. induction a; intros; simpl; auto. Qed.

Lemma substring_take : forall a b,
  substring 0 (String.length a) (a ++ b) = a.
Proof. induction a; intros; simpl; [destruct b; reflexivity|]. f_equal. apply IHa. Qed.

Lemma length_append a b : String.length (a ++ b) = (String.length a + String.length b)%nat.
Proof. induction a; simpl; auto. Qed.

Lemma mount_field_total line : exists m, mount_field line = Ret m.
Proof.
  unfold mount_field, substr.
  set (start := find line " " 0).
  assert (Hpos : size_add start 1 <= size line).
  { unfold start, find, size_add, size.
    destruct (Z.of_nat (String.length line) <? 0) eqn:E; [lia|].
    destruct (index (Z.to_nat 0) " " line) eqn:Ei.
    - apply index_space_bound in Ei.
      assert (0 <= (Z.of_nat n + 1) mod size_mod <= Z.of_nat n + 1).
      { split. apply Z.mod_pos_bound. reflexivity. apply Z.mod_le; [lia|reflexivity]. }
      lia.
    - unfold npos. replace (size_mod - 1 + 1) with (1 * size_mod) by lia.
      rewrite Z.mod_mul by (unfold size_mod; lia). lia. }
  destruct (size line <? size_add start 1) eqn:E; [lia|].
  eexists. reflexivity.
Qed.

Lemma mount_field_record dev mp rest :
  no_space dev = true -> no_space mp = true ->
  size (dev ++ " " ++ mp ++ " " ++ rest) < npos ->
  mount_field (dev ++ " " ++ mp ++ " " ++ rest) = Ret mp.
Proof.
  intros Hd Hm Hsz.
  unfold size in Hsz. rewrite !length_append in Hsz. cbn [String.length] in Hsz.
  unfold npos in Hsz.
  assert (Hmod : 0 < size_mod) by reflexivity.
  unfold mount_field.
  assert (E1 : find (dev ++ " " ++ mp ++ " " ++ rest) " " 0 = Z.of_nat (String.length dev)).
  { unfold find. destruct (_ <? 0) eqn:E.
    { apply Z.ltb_lt in E. unfold size in E. lia. }
    change (Z.to_nat 0) with 0%nat. cbn [append].
    rewrite index_space_first by assumption. reflexivity. }
  rewrite E1.
  assert (E2 : size_add (Z.of_nat (String.length dev)) 1 = Z.of_nat (S (String.length dev))).
  { unfold size_add. rewrite Z.mod_small by lia. lia. }
  rewrite E2.
  assert (E3 : find (dev ++ " " ++ mp ++ " " ++ rest) " " (Z.of_nat (S (String.length dev)))
               = Z.of_nat (S (String.length dev + String.length mp))).
  { unfold find. unfold size. rewrite !length_append. cbn [String.length].
    destruct (_ <? _) eqn:E.
    { apply Z.ltb_lt in E. lia. }
    rewrite Nat2Z.id. cbn [append].
    rewrite index_space_second by assumption. reflexivity. }
  rewrite E3.
  assert (E4 : size_sub (size_sub (Z.of_nat (S (String.length dev + String.length mp)))
                                  (Z.of_nat (String.length dev))) 1
               = Z.of_nat (String.length mp)).
  { unfold size_sub.
    replace (Z.of_nat (S (String.length dev + String.length mp)) - Z.of_nat (String.length dev))
      with (Z.of_nat (String.length mp) + 1) by lia.
    rewrite (Z.mod_small (Z.of_nat (String.length mp) + 1)) by lia.
    rewrite Z.mod_small by lia. lia. }
  rewrite E4.
  unfold substr, size. rewrite !length_append. cbn [String.length].
  destruct (_ <? _) eqn:E.
  { apply Z.ltb_lt in E. lia. }
  rewrite Z.min_l by lia. rewrite !Nat2Z.id.
  change (S (String.length dev)) with (String.length (String "x" "") + String.length dev)%nat.
  f_equal.
  replace (String.length (String "x" "") + String.length dev)%nat with (String.length (dev ++ " ")).
  2:{ rewrite length_append. simpl. lia. }
  replace (dev ++ " " ++ mp ++ " " ++ rest) with ((dev ++ " ") ++ mp ++ " " ++ rest).
  2:{ clear. induction dev; simpl; [reflexivity|]. f_equal. apply IHdev. }
  rewrite substring_skip. apply substring_take.
Qed.

Lemma scan_mounts_total : forall lines acc, exists m, scan_mounts lines acc = Ret m.
Proof.
  induction lines as [|l lines IH]; intros acc; simpl.
  - eexists; reflexivity.
  - destruct (negb (find l "/media/" 0 =? npos)); [|apply IH].
    destruct (mount_field_total l) as [m ->]. apply IH.
Qed.

Lemma scan_mounts_nomatch : forall lines acc,
  Forall (fun l => find l "/media/" 0 = npos) lines ->
  scan_mounts lines acc = Ret acc.
Proof.
  induction lines as [|l lines IH]; intros acc H; simpl.
  - reflexivity.
  - inversion H as [|? ? Hl Hrest]; subst.
    rewrite Hl, Z.eqb_refl. simpl. apply IH. assumption.
Qed.

Lemma scan_mounts_app : forall pre post acc,
  exists acc', scan_mounts (pre ++ post)%list acc = scan_mounts post acc'.
Proof.
  induction pre as [|l pre IH]; intros post acc; simpl.
  - exists acc. reflexivity.
  - destruct (negb (find l "/media/" 0 =? npos)); [|apply IH].
    destruct (mount_field_total l) as [m ->]. apply IH.
Qed.

Lemma scan_mounts_last_match pre line post acc m :
  find line "/media/" 0 <> npos ->
  mount_field line = Ret m ->
  Forall (fun l => find l "/media/" 0 = npos) post ->
  scan_mounts (pre ++ line :: post)%list acc = Ret m.
Proof.
  intros Hc Hf Hpost.
  destruct (scan_mounts_app pre (line :: post) acc) as [acc' ->].
  simpl. apply Z.eqb_neq in Hc. rewrite Hc. simpl. rewrite Hf.
  apply scan_mounts_nomatch. assumption.
Qed.

Lemma substring_past_end : forall s n m,
  (String.length s <= n)%nat -> substring n m s = EmptyString.
Proof.
  induction s as [|c s IH]; intros n m H.
  - destruct n, m; reflexivity.
  - destruct n; simpl in H; [lia|]. simpl. apply IH. lia.
Qed.

Lemma find_occurrence a sub b :
  sub <> EmptyString ->
  size (a ++ sub ++ b) < npos ->
  find (a ++ sub ++ b) sub 0 <> npos.
Proof.
  intros Hne Hsz. unfold find.
  destruct (_ <? 0) eqn:E.
  { apply Z.ltb_lt in E. unfold size in E. lia. }
  change (Z.to_nat 0) with 0%nat.
  destruct (index 0 sub (a ++ sub ++ b)) as [i|] eqn:Ei.
  - apply index_correct1 in Ei.
    destruct (Nat.le_gt_cases (String.length (a ++ sub ++ b)) i) as [Hle|Hlt].
    + rewrite substring_past_end in Ei by assumption. congruence.
    + unfold size in Hsz. lia.
  - exfalso.
    apply (index_correct3 0 (String.length a) sub (a ++ sub ++ b) Ei Hne); [lia|].
    rewrite substring_skip. apply substring_take.
Qed.

Lemma get_mount_location_run w :
  exists m, get_mount_location w = (Ret m, w).
Proof.
  unfold get_mount_location, bind, gets, ret, lift.
  destruct (proc_mounts (env w)) as [content|].
  - destruct (scan_mounts_total (getlines content) "") as [m ->]. eauto.
  - eauto.
Qed.

(** C6, as the code has it.  The locator never fails and changes
    nothing.  It returns the empty string when the mount table cannot be
    opened or no line contains the text [/media/].  Otherwise it returns
    the mount-point field (the text between the first and the second
    space) of the last line that contains [/media/] somewhere: lines
    before it do not matter, whether they match or not.  Every line that
    has [/media/] anywhere, be it in the mount point, the device or the
    options, is such a line. *)
Theorem get_mount_location_last_match (w : World) :
  (exists m, get_mount_location w = (Ret m, w)) /\
  (proc_mounts (env w) = None -> get_mount_location w = (Ret "", w)) /\
  (forall content,
     proc_mounts (env w) = Some content ->
     Forall (fun l => find l "/media/" 0 = npos) (getlines content) ->
     get_mount_location w = (Ret "", w)) /\
  (forall content pre dev mp rest post,
     proc_mounts (env w) = Some content ->
     getlines content = List.app pre ((dev ++ " " ++ mp ++ " " ++ rest) :: post) ->
     no_space dev = true -> no_space mp = true ->
     size (dev ++ " " ++ mp ++ " " ++ rest) < npos ->
     find (dev ++ " " ++ mp ++ " " ++ rest) "/media/" 0 <> npos ->
     Forall (fun l => find l "/media/" 0 = npos) post ->
     get_mount_location w = (Ret mp, w)) /\
  (forall a b,
     size (a ++ "/media/" ++ b) < npos ->
     find (a ++ "/media/" ++ b) "/media/" 0 <> npos).
Proof.
  split; [apply get_mount_location_run|].
  split.
  { intros H. unfold get_mount_location, bind, gets, ret. rewrite H. reflexivity. }
  split.
  { intros content H Hno. unfold get_mount_location, bind, gets, lift.
    rewrite H. rewrite scan_mounts_nomatch by assumption. reflexivity. }
  split.
  { intros content pre dev mp rest post H Hl Hd Hm Hsz Hc Hpost.
    unfold get_mount_location, bind, gets, lift. rewrite H, Hl.
    rewrite (scan_mounts_last_match pre _ post "" mp); auto.
    apply mount_field_record; assumption. }
  intros a b Hsz. apply find_occurrence; [discriminate|assumption].
Qed.

Lemma get_mount_location_last_match_witness :
  get_mount_location (boot (calm_env (Some mounts_two_usb)))
  = (Ret "/media/usb2", boot (calm_env (Some mounts_two_usb))).
Proof.
  apply (proj1 (proj2 (proj2 (proj2
           (get_mount_location_last_match (boot (calm_env (Some mounts_two_usb)))))))
         mounts_two_usb
         ["/dev/sda1 /media/usb vfat rw,relatime 0 0"; "proc /proc proc rw,nosuid 0 0"]
         "/dev/sdb1" "/media/usb2" "vfat rw,relatime 0 0"
         ["tmpfs /run tmpfs rw 0 0"]).
  - reflexivity.
  - reflexivity.
  - reflexivity.
  - reflexivity.
  - vm_compute. reflexivity.
  - vm_compute. discriminate.
  - repeat constructor.
Defined.

(** C6 as stated fails: with a volume mounted on [/mnt/media/usb] the
    locator returns that path, which is neither empty nor below
    [/media/]. *)
Lemma get_mount_location_outside_media :
  ~ (forall w m, get_mount_location w = (Ret m, w) ->
                 m = "" \/ prefix "/media/" m = true).
Proof.
  intros H.
  destruct (H (boot (calm_env (Some mounts_mnt_media))) "/mnt/media/usb" eq_refl)
    as [E|E]; discriminate E.
Qed.

(** ** Storage Unmount Manager *)

(** Running the monad on a symbolic world: unfold its operations, then
    let projections meet the setters. *)
Ltac munfold :=
  cbv beta iota delta
    [bind ret throw lift gets modify emit LOG LOG_ERROR sync now elapse
     strerror_errno sleep_for umount umount2_force is_directory
     create_directory localtime_now negb].

Ltac wsimpl :=
  cbn [env clock errno dirs doShutdown takeImage keyPowerTimeStart mode
       running trace set_env set_clock set_errno set_dirs set_doShutdown
       set_takeImage set_keyPowerTimeStart set_mode set_running set_trace
       fst snd].

Ltac mrun := munfold; wsimpl.

Lemma bind_run {A B} (c : M A) (k : A -> M B) w a w1 :
  c w = (Ret a, w1) -> bind c k w = k a w1.
Proof. intros H. unfold bind. rewrite H. reflexivity. Qed.

(** One failed pass through the loop (lines 81-90). *)
Lemma umount_loop_failed fuel path start w e :
  umount_at (env w) path (clock w) = Some e ->
  umount_loop (S fuel) path start w =
  (if clock (failed_attempt path e w) - start >? UMOUNT_TIMEOUT_NS then
     e' <- strerror_errno ;;
     LOG 1 ("Attempting to force unmount device. Error: " ++ e') ;;
     rc' <- umount2_force path ;;
     if rc' <? 0 then LOG_ERROR "ERROR Failed to unmount device" else ret tt
   else umount_loop fuel path start) (failed_attempt path e w).
Proof.
  intros Eu. unfold failed_attempt, after_retry, after_call.
  cbn [umount_loop]. mrun. rewrite Eu. mrun.
  change (-1 <? 0) with true. cbv iota.
  unfold retry_block. wsimpl. rewrite <- !app_assoc. reflexivity.
Qed.

Lemma same_app_failed_attempt path e w : same_app w (failed_attempt path e w).
Proof.
  constructor; try reflexivity.
  unfold failed_attempt. wsimpl. unfold cam_actions.
  rewrite flat_map_app. cbn. rewrite app_nil_r. reflexivity.
Qed.

Lemma same_app_refl w : same_app w w.
Proof. constructor; reflexivity. Qed.

Lemma same_app_trans w1 w2 w3 : same_app w1 w2 -> same_app w2 w3 -> same_app w1 w3.
Proof.
  intros [] []. constructor; congruence.
Qed.

Lemma same_app_emit w a :
  (forall c, a <> ACam c) ->
  same_app w (set_trace (trace w ++ [a])%list w).
Proof.
  intros H. constructor; try reflexivity.
  wsimpl. unfold cam_actions. rewrite flat_map_app. cbn [flat_map].
  destruct a; try (rewrite !app_nil_r; reflexivity).
  exfalso. eapply H. reflexivity.
Qed.

(** The forced attempt of lines 91-97. *)
Lemma forced_attempt_run path w :
  exists w',
    (e' <- strerror_errno ;;
     LOG 1 ("Attempting to force unmount device. Error: " ++ e') ;;
     rc' <- umount2_force path ;;
     if rc' <? 0 then LOG_ERROR "ERROR Failed to unmount device" else ret tt) w
    = (Ret tt, w') /\
    trace w' = (trace w ++ forced_block (env w) path (clock w) (errno w))%list /\
    clock w' = after_call (env w) (clock w) /\
    same_app w w'.
Proof.
  unfold forced_block, after_call. mrun.
  destruct (umount2_at (env w) path (clock w)) as [e2|] eqn:E2; mrun.
  - change (-1 <? 0) with true. cbv iota. mrun.
    eexists. split; [reflexivity|]. wsimpl.
    split; [rewrite <- !app_assoc; reflexivity|].
    split; [reflexivity|].
    constructor; try reflexivity. wsimpl. unfold cam_actions.
    rewrite !flat_map_app. cbn [flat_map]. rewrite !app_nil_r. reflexivity.
  - change (0 <? 0) with false. cbv iota.
    eexists. split; [reflexivity|]. wsimpl.
    split; [rewrite <- !app_assoc; reflexivity|].
    split; [reflexivity|].
    constructor; try reflexivity. wsimpl. unfold cam_actions.
    rewrite !flat_map_app. cbn [flat_map]. rewrite !app_nil_r. reflexivity.
Qed.

Lemma umount_loop_succeeded fuel path start w :
  umount_at (env w) path (clock w) = None ->
  umount_loop (S fuel) path start w
  = (Ret tt, set_clock (after_call (env w) (clock w))
               (set_trace (trace w ++ [AUmount path (clock w) None])%list w)).
Proof.
  intros Eu. unfold after_call. cbn [umount_loop]. mrun. rewrite Eu. mrun. reflexivity.
Qed.

Lemma goes_round_next e path start t k :
  goes_round e path start t (S k) <-> goes_round e path start (after_retry e t) k.
Proof. unfold goes_round. cbn [round_reading]. tauto. Qed.

(** What the loop does, for every bound and every outside world: it
    returns after a trace the policy allows, or it is still going round
    when the bound is reached, which is the case exactly when every
    round the model followed went round again. *)
Lemma umount_loop_run : forall fuel path start w,
  exists r w' tr,
    umount_loop fuel path start w = (r, w') /\
    trace w' = (trace w ++ tr)%list /\
    same_app w w' /\
    (r = Ret tt \/ r = OutOfFuel) /\
    (r = Ret tt -> unmount_policy (env w) path start (clock w) tr) /\
    (r = OutOfFuel <->
     forall k, (k < fuel)%nat -> goes_round (env w) path start (clock w) k) /\
    Forall harmless tr /\
    ((0 < fuel)%nat ->
     exists rest,
       tr = AUmount path (clock w) (umount_at (env w) path (clock w)) :: rest).
Proof.
  induction fuel as [|fuel IH]; intros path start w.
  - exists OutOfFuel, w, []. rewrite app_nil_r.
    split; [reflexivity|]. split; [reflexivity|]. split; [apply same_app_refl|].
    split; [right; reflexivity|]. split; [discriminate|].
    split; [split; [intros _ k Hk; lia|reflexivity]|].
    split; [constructor|intros H; lia].
  - destruct (umount_at (env w) path (clock w)) as [e|] eqn:Eu.
    + rewrite (umount_loop_failed fuel path start w e Eu).
      set (w1 := failed_attempt path e w).
      assert (Hclock : clock w1 = after_retry (env w) (clock w)) by reflexivity.
      assert (Htrace : trace w1 = (trace w ++ retry_block path (clock w, e))%list)
        by reflexivity.
      assert (Happ : same_app w w1) by apply same_app_failed_attempt.
      destruct (clock w1 - start >? UMOUNT_TIMEOUT_NS) eqn:Hcmp.
      * apply Z.gtb_lt in Hcmp.
        destruct (forced_attempt_run path w1) as (w' & Hrun & Htr & _ & Happ').
        exists (Ret tt), w',
          (retry_block path (clock w, e)
           ++ forced_block (env w) path (after_retry (env w) (clock w)) e)%list.
        split; [exact Hrun|].
        split; [rewrite Htr, Htrace, <- app_assoc; reflexivity|].
        split; [eapply same_app_trans; eassumption|].
        split; [left; reflexivity|].
        split.
        { intros _. apply forced_past_timeout; [exact Eu|]. rewrite <- Hclock. lia. }
        split.
        { split; [discriminate|].
          intros Hall. exfalso.
          destruct (Hall O ltac:(lia)) as [_ Hle].
          cbn [round_reading] in Hle. rewrite <- Hclock in Hle. lia. }
        split.
        { apply Forall_app. split; [unfold retry_block; repeat constructor|].
          unfold forced_block.
          destruct (umount2_at (env w) path (after_retry (env w) (clock w)));
            repeat constructor. }
        intros _. unfold retry_block. cbn [app fst snd]. eauto.
      * assert (Hle : clock w1 - start <= UMOUNT_TIMEOUT_NS).
        { destruct (Z.gtb_spec (clock w1 - start) UMOUNT_TIMEOUT_NS); [discriminate|lia]. }
        destruct (IH path start w1)
          as (r & w' & tr & Hrun & Htr & Happ' & Hr & Hpol & Hfuel & Hharm & _).
        exists r, w', (retry_block path (clock w, e) ++ tr)%list.
        split; [exact Hrun|].
        split; [rewrite Htr, Htrace, <- app_assoc; reflexivity|].
        split; [eapply same_app_trans; eassumption|].
        split; [exact Hr|].
        split.
        { intros Hret. apply retry_within_timeout; [exact Eu| rewrite <- Hclock; exact Hle |].
          rewrite <- Hclock. apply Hpol. exact Hret. }
        split.
        { rewrite Hfuel. change (env w1) with (env w). rewrite Hclock. split.
          - intros Hall [|k] Hk.
            + split; [cbn [round_reading]; rewrite Eu; eauto|].
              cbn [round_reading]. rewrite <- Hclock. exact Hle.
            + apply (proj2 (goes_round_next _ _ _ _ _)). apply Hall. lia.
          - intros Hall k Hk. apply (proj1 (goes_round_next _ _ _ _ _)). apply Hall. lia. }
        split.
        { apply Forall_app. split; [unfold retry_block; repeat constructor|exact Hharm]. }
        intros _. unfold retry_block. cbn [app fst snd]. eauto.
    + rewrite umount_loop_succeeded by assumption.
      eexists. eexists. exists [AUmount path (clock w) None].
      split; [reflexivity|]. wsimpl.
      split; [reflexivity|].
      split.
      { constructor; try reflexivity. wsimpl. unfold cam_actions.
        rewrite flat_map_app. cbn. rewrite app_nil_r. reflexivity. }
      split; [left; reflexivity|].
      split; [intros _; apply normal_success; exact Eu|].
      split.
      { split; [discriminate|].
        intros Hall. exfalso.
        destruct (Hall O ltac:(lia)) as [[err Hne] _]. cbn [round_reading] in Hne.
        congruence. }
      split; [repeat constructor|].
      intros _. eauto.
Qed.

(** [unmount_drive] as a whole: the optional report, [sync], then the
    loop, counting the elapsed time from the reading after [sync]. *)
Lemma unmount_drive_run (w : World) :
  exists path r w' tr,
    get_mount_location w = (Ret path, w) /\
    unmount_drive w = (r, w') /\
    trace w' =
      (trace w
       ++ (if empty path
           then [ALogError "ERROR Unmounting drive, cannot find mount location"]
           else [])
       ++ [ASync]
       ++ tr)%list /\
    same_app w w' /\
    (r = Ret tt \/ r = OutOfFuel) /\
    (r = Ret tt ->
     unmount_policy (env w) path (after_call (env w) (clock w))
       (after_call (env w) (clock w)) tr) /\
    (r = OutOfFuel <->
     forall k, (k < umount_rounds (env w))%nat ->
       goes_round (env w) path (after_call (env w) (clock w))
         (after_call (env w) (clock w)) k) /\
    Forall harmless tr /\
    ((0 < umount_rounds (env w))%nat ->
     exists rest,
       tr = AUmount path (after_call (env w) (clock w))
              (umount_at (env w) path (after_call (env w) (clock w))) :: rest).
Proof.
  destruct (get_mount_location_run w) as [path Hpath].
  set (report := if empty path
                 then [ALogError "ERROR Unmounting drive, cannot find mount location"]
                 else []).
  set (w0 := set_clock (after_call (env w) (clock w))
               (set_trace (trace w ++ report ++ [ASync])%list w)).
  assert (Hhead : unmount_drive w
                  = umount_loop (umount_rounds (env w)) path (after_call (env w) (clock w)) w0).
  { unfold unmount_drive, unmount_drive_fuel.
    cbv beta iota delta [bind gets]. 
    rewrite Hpath. cbv iota beta.
    subst w0 report. unfold after_call. destruct (empty path); mrun.
    - rewrite <- !app_assoc. reflexivity.
    - reflexivity. }
  assert (Happ0 : same_app w w0).
  { constructor; try reflexivity. subst w0 report. wsimpl. unfold cam_actions.
    rewrite !flat_map_app. destruct (empty path); cbn; rewrite ?app_nil_r; reflexivity. }
  destruct (umount_loop_run (umount_rounds (env w)) path (after_call (env w) (clock w)) w0)
    as (r & w' & tr & Hrun & Htr & Happ & Hr & Hpol & Hfuel & Hharm & Hfirst).
  exists path, r, w', tr.
  split; [exact Hpath|].
  split; [rewrite Hhead; exact Hrun|].
  split; [rewrite Htr; subst w0 report; wsimpl; rewrite <- !app_assoc; reflexivity|].
  split; [eapply same_app_trans; eassumption|].
  split; [exact Hr|].
  split; [exact Hpol|].
  split; [exact Hfuel|].
  split; [exact Hharm|exact Hfirst].
Qed.

(** On a steady clock every round takes at least its sleep. *)
Lemma steady_after_retry e t : steady_clock e -> t + ms 1000 <= after_retry e t.
Proof.
  intros Hs. unfold after_retry, after_call.
  destruct (Hs t) as [Hc _]. destruct (Hs (t + call_time e t)) as [_ Hj]. lia.
Qed.

Lemma steady_round_reading e :
  steady_clock e ->
  forall k t, t + Z.of_nat k * ms 1000 <= round_reading e t k.
Proof.
  intros Hs. induction k as [|k IH]; intros t.
  - cbn [round_reading]. lia.
  - cbn [round_reading]. specialize (IH (after_retry e t)).
    pose proof (steady_after_retry e t Hs). lia.
Qed.

(** So the sixth round at the latest finds the timeout exceeded. *)
Lemma steady_leaves_loop e path start fuel :
  steady_clock e -> (6 <= fuel)%nat ->
  ~ (forall k, (k < fuel)%nat -> goes_round e path start start k).
Proof.
  intros Hs Hfuel Hall.
  destruct (Hall 5%nat ltac:(lia)) as [_ Hle].
  pose proof (steady_round_reading e Hs 6 start) as Hge.
  unfold ms, UMOUNT_TIMEOUT_NS, UMOUNT_TIMEOUT_S in *. lia.
Qed.

(** C7.  For every outside world, that is for every outcome of the
    unmount attempts over time and every behaviour of the clock,
    [unmount_drive] does what the policy says, counting the elapsed time
    from the reading after [sync].  Its normal attempts are those the
    outside world fails ([umount_at]), each followed by its log line and
    a sleep of one second, and each but the first made only after the
    test found the elapsed time within the timeout of five seconds.  It
    ends with a normal attempt that the outside world lets succeed; or,
    the first time the test finds the timeout exceeded, with exactly one
    forced attempt, whose failure is reported; nothing follows either
    ending.  It is still in the loop after the rounds the model follows
    exactly when each of them failed and stayed within the timeout.  On
    a clock that is not set back six rounds are enough: the call
    returns. *)
Theorem unmount_retry_policy (w : World) :
  exists path r w' tr,
    get_mount_location w = (Ret path, w) /\
    unmount_drive w = (r, w') /\
    trace w' =
      (trace w
       ++ (if empty path
           then [ALogError "ERROR Unmounting drive, cannot find mount location"]
           else [])
       ++ [ASync]
       ++ tr)%list /\
    (r = Ret tt \/ r = OutOfFuel) /\
    (r = Ret tt ->
     unmount_policy (env w) path (after_call (env w) (clock w))
       (after_call (env w) (clock w)) tr) /\
    (r = OutOfFuel <->
     forall k, (k < umount_rounds (env w))%nat ->
       goes_round (env w) path (after_call (env w) (clock w))
         (after_call (env w) (clock w)) k) /\
    (steady_clock (env w) -> (6 <= umount_rounds (env w))%nat -> r = Ret tt).
Proof.
  destruct (unmount_drive_run w)
    as (path & r & w' & tr & H1 & H2 & H3 & _ & H5 & H6 & H7 & _).
  exists path, r, w', tr.
  split; [exact H1|]. split; [exact H2|]. split; [exact H3|]. split; [exact H5|].
  split; [exact H6|]. split; [exact H7|].
  intros Hs Hfuel. destruct H5 as [Hr|Hr]; [exact Hr|].
  exfalso. exact (steady_leaves_loop _ _ _ _ Hs Hfuel (proj1 H7 Hr)).
Qed.

Lemma unmount_retry_policy_witness :
  exists path w' tr,
    get_mount_location (boot busy_env) = (Ret path, boot busy_env) /\
    unmount_drive (boot busy_env) = (Ret tt, w') /\
    trace w' =
      (trace (boot busy_env)
       ++ (if empty path
           then [ALogError "ERROR Unmounting drive, cannot find mount location"]
           else [])
       ++ [ASync]
       ++ tr)%list /\
    unmount_policy busy_env path 0 0 tr.
Proof.
  destruct (unmount_retry_policy (boot busy_env))
    as (path & r & w' & tr & H1 & H2 & H3 & _ & H5 & _ & H7).
  assert (Hr : r = Ret tt).
  { apply H7; [intros t; change (0 <= 0 /\ 0 <= 0); lia|change (6 <= 16)%nat; lia]. }
  subst r. exists path, w', tr.
  split; [exact H1|]. split; [exact H2|]. split; [exact H3|]. exact (H5 eq_refl).
Defined.

(** The busy volume of the example: six failed normal attempts at
    seconds 0 to 5, then the forced attempt at second 6, and no normal
    attempt although [umount] would succeed by then. *)
Example unmount_drive_busy_volume :
  trace (snd (unmount_drive (boot busy_env))) =
  (ASync
   :: flat_map (retry_block "/media/usb")
        [(0, "Device or resource busy"); (1000000000, "Device or resource busy");
         (2000000000, "Device or resource busy"); (3000000000, "Device or resource busy");
         (4000000000, "Device or resource busy"); (5000000000, "Device or resource busy")]
   ++ [ALog 1 "Attempting to force unmount device. Error: Device or resource busy";
       AUmount2Force "/media/usb" 6000000000 None])%list.
Proof. vm_compute. reflexivity. Qed.

(** C1 fails on the code.  With no removable volume mounted
    [get_mount_location] returns the empty string; [unmount_drive]
    reports the error and goes on: [sync], six normal attempts on the
    empty path one second apart, the forced attempt, the final report. *)
Theorem unmount_drive_absent_volume :
  get_mount_location (boot absent_env) = (Ret "", boot absent_env) /\
  trace (snd (unmount_drive (boot absent_env))) =
  (ALogError "ERROR Unmounting drive, cannot find mount location"
   :: ASync
   :: flat_map (retry_block "")
        [(0, "No such file or directory"); (1000000000, "No such file or directory");
         (2000000000, "No such file or directory"); (3000000000, "No such file or directory");
         (4000000000, "No such file or directory"); (5000000000, "No such file or directory")]
   ++ [ALog 1 "Attempting to force unmount device. Error: No such file or directory";
       AUmount2Force "" 6000000000 (Some "No such file or directory");
       ALogError "ERROR Failed to unmount device"])%list.
Proof. split; vm_compute; reflexivity. Qed.

(** The same for every world and every behaviour of the clock: with the
    empty mount location the report is followed by [sync] and by an
    unmount attempt on the empty path. *)
Lemma absent_volume_still_attempts (w : World) :
  get_mount_location w = (Ret "", w) ->
  (0 < umount_rounds (env w))%nat ->
  exists r w' rest,
    unmount_drive w = (r, w') /\
    trace w' =
      (trace w
       ++ [ALogError "ERROR Unmounting drive, cannot find mount location"; ASync]
       ++ AUmount "" (after_call (env w) (clock w))
            (umount_at (env w) "" (after_call (env w) (clock w)))
       :: rest)%list.
Proof.
  intros Habsent Hrounds.
  destruct (unmount_drive_run w)
    as (path & r & w' & tr & H1 & H2 & H3 & _ & _ & _ & _ & _ & Hfirst).
  rewrite Habsent in H1. inversion H1; subst path.
  change (empty "") with true in H3. cbv iota in H3.
  destruct (Hfirst Hrounds) as [rest ->].
  exists r, w', rest. split; [exact H2|]. exact H3.
Qed.

(** ** Filename Generator *)

Lemma pad2_dec_two_digits n : 0 <= n <= 99 -> pad2 (dec n) = two_digits n.
Proof.
  intros H.
  assert (Hall : forallb (fun k => String.eqb (pad2 (dec (Z.of_nat k)))
                                              (two_digits (Z.of_nat k)))
                         (seq 0 100) = true) by (vm_compute; reflexivity).
  rewrite forallb_forall in Hall.
  specialize (Hall (Z.to_nat n)).
  rewrite Z2Nat.id in Hall by lia.
  apply String.eqb_eq, Hall, in_seq. lia.
Qed.

Lemma dec_four_digits n : 1000 <= n <= 9999 -> dec n = four_digits n.
Proof.
  intros H.
  assert (Hall : forallb (fun k => String.eqb (dec (Z.of_nat k))
                                              (four_digits (Z.of_nat k)))
                         (seq (Z.to_nat 1000) (Z.to_nat 9000)) = true) by (vm_compute; reflexivity).
  rewrite forallb_forall in Hall.
  specialize (Hall (Z.to_nat n)).
  rewrite Z2Nat.id in Hall by lia.
  apply String.eqb_eq, Hall, in_seq. lia.
Qed.

Lemma strftime_calendar t :
  calendar_time t ->
  snprintf_jpg 128 (strftime 32 "%Y-%m-%d-%H-%M-%S" t) = timestamp_jpg t.
Proof.
  intros (Hy & Hmo & Hd & Hh & Hmi & Hs).
  unfold strftime. cbn [strftime_expand Ascii.eqb Bool.eqb].
  unfold strftime_conv. cbn [Ascii.eqb Bool.eqb].
  rewrite dec_four_digits by lia.
  rewrite !pad2_dec_two_digits by lia.
  unfold timestamp_jpg, four_digits, two_digits.
  cbn [append]. reflexivity.
Qed.

Lemma append_assoc (a b c : string) : (a ++ b) ++ c = a ++ b ++ c.
Proof. induction a as [|x a IH]; cbn [append]; [reflexivity|]. rewrite IH. reflexivity. Qed.

Lemma get_mount_location_env w r w0 :
  get_mount_location w = (r, w0) ->
  forall w', env w' = env w -> get_mount_location w' = (r, w').
Proof.
  unfold get_mount_location. mrun. intros H w' Henv. rewrite Henv.
  destruct (proc_mounts (env w)); mrun; inversion H; reflexivity.
Qed.

(** [generate_filename] in closed form. *)
Lemma generate_filename_run w volume :
  get_mount_location w = (Ret volume, w) ->
  generate_filename w =
  if empty volume then (Ret "", w)
  else
    let dir := volume ++ "/micropiscope" in
    let path := (dir ++ "/")
                ++ snprintf_jpg 128 (strftime 32 "%Y-%m-%d-%H-%M-%S" (wall_clock (env w))) in
    if dir_exists dir w then
      (Ret path, set_trace (trace w ++ [AStdout ("Saving image at " ++ path)])%list w)
    else
      match mkdir_outcome (env w) dir with
      | MkdirCreated =>
          (Ret path,
           set_trace (trace w ++ [ACreateDirectory dir;
                                  AStdout ("Saving image at " ++ path)])%list
             (set_dirs (dir :: dirs w) w))
      | MkdirExists => (Ret "", w)
      | MkdirError what => (Throw (filesystem_error what), w)
      | StatusError what => (Throw (filesystem_error what), w)
      end.
Proof.
  intros Hloc. unfold generate_filename.
  rewrite (bind_run _ _ _ _ _ Hloc).
  destruct (empty volume); [reflexivity|].
  cbv zeta. unfold dir_exists. mrun.
  destruct (mkdir_outcome (env w) (volume ++ "/micropiscope")) eqn:Hmk; mrun;
    try reflexivity;
    (destruct (existsb (String.eqb (volume ++ "/micropiscope")) (dirs w)); mrun;
     rewrite ?Hmk; mrun; rewrite <- ?app_assoc; reflexivity).
Qed.

Lemma dir_exists_frame p w w' :
  env w' = env w -> dirs w' = dirs w -> dir_exists p w' = dir_exists p w.
Proof. intros Henv Hdirs. unfold dir_exists. rewrite Henv, Hdirs. reflexivity. Qed.

Lemma dir_exists_created p w w' :
  mkdir_outcome (env w) p = MkdirCreated ->
  env w' = env w -> dirs w' = p :: dirs w ->
  dir_exists p w' = true.
Proof.
  intros Hmk Henv Hdirs. unfold dir_exists. rewrite Henv, Hdirs, Hmk.
  cbn [existsb]. rewrite String.eqb_refl. reflexivity.
Qed.

Lemma append_nonempty a b : b <> EmptyString -> empty (a ++ b) = false.
Proof.
  intros Hb. unfold empty. apply String.eqb_neq.
  destruct a; cbn [append]; [exact Hb|discriminate].
Qed.

(** Filename generation yields no destination and changes nothing, or
    yields a path after storage actions only, or throws
    [filesystem_error]; it leaves the application and the pipeline
    alone. *)
Lemma generate_filename_outcome w :
  (generate_filename w = (Ret "", w)) \/
  (exists f w' middle,
     generate_filename w = (Ret f, w') /\ empty f = false /\
     same_app w w' /\ trace w' = (trace w ++ middle)%list /\
     cam_actions middle = [] /\
     (forall name ok, ~ In (AJpegSave name ok) middle) /\
     ~ In AReboot middle) \/
  (exists what, generate_filename w = (Throw (filesystem_error what), w)).
Proof.
  destruct (get_mount_location_run w) as [volume Hloc].
  rewrite (generate_filename_run w volume Hloc).
  destruct (empty volume); [left; reflexivity|].
  cbv zeta. destruct (dir_exists _ w).
  { right. left. eexists. eexists. eexists. split; [reflexivity|].
    split; [rewrite append_assoc; apply append_nonempty; discriminate|].
    split; [apply same_app_emit; discriminate|].
    split; [reflexivity|]. split; [reflexivity|].
    split; [intros name ok [H|[]]; discriminate H|intros [H|[]]; discriminate H]. }
  destruct (mkdir_outcome (env w) _).
  - right. left. eexists. eexists. eexists. split; [reflexivity|].
    split; [rewrite append_assoc; apply append_nonempty; discriminate|].
    split.
    { constructor; try reflexivity. wsimpl. unfold cam_actions.
      rewrite flat_map_app. cbn. rewrite app_nil_r. reflexivity. }
    split; [reflexivity|]. split; [reflexivity|].
    split; [intros name ok [H|[H|[]]]; discriminate H|intros [H|[H|[]]]; discriminate H].
  - left. reflexivity.
  - right. right. eauto.
  - right. right. eauto.
Qed.

(** What filename generation yields depends on the outside world and on
    the directories only. *)
Lemma destination_frame w w' :
  env w' = env w -> dirs w' = dirs w -> destination w' = destination w.
Proof.
  intros Henv Hdirs. unfold destination.
  destruct (get_mount_location_run w) as [volume Hloc].
  rewrite (generate_filename_run w volume Hloc).
  rewrite (generate_filename_run w' volume (get_mount_location_env _ _ _ Hloc w' Henv)).
  unfold dir_exists. rewrite Henv, Hdirs.
  destruct (empty volume); [reflexivity|].
  cbv zeta.
  destruct (mkdir_outcome (env w) _); try reflexivity;
    destruct (existsb _ (dirs w)); reflexivity.
Qed.

(** C8.  With a removable volume mounted at [volume], a wall-clock
    reading [t] in a year of four digits, and the subdirectory
    [micropiscope] either there or creatable, [generate_filename]
    returns exactly [volume/micropiscope/YYYY-MM-DD-HH-MM-SS.jpg] for the
    second of [t]: a function of [volume] and [t] alone.  The
    subdirectory exists afterwards; it is created by this call, and only
    then, when it was absent. *)
Theorem generate_filename_format (w : World) (volume : string) :
  get_mount_location w = (Ret volume, w) ->
  volume <> "" ->
  calendar_time (wall_clock (env w)) ->
  dir_exists (volume ++ "/micropiscope") w = true \/
  mkdir_outcome (env w) (volume ++ "/micropiscope") = MkdirCreated ->
  exists w',
    generate_filename w
    = (Ret (volume ++ "/micropiscope/" ++ timestamp_jpg (wall_clock (env w))), w') /\
    dir_exists (volume ++ "/micropiscope") w' = true /\
    dirs w' = (if dir_exists (volume ++ "/micropiscope") w
               then dirs w
               else (volume ++ "/micropiscope") :: dirs w) /\
    trace w' =
      (trace w
       ++ (if dir_exists (volume ++ "/micropiscope") w
           then []
           else [ACreateDirectory (volume ++ "/micropiscope")])
       ++ [AStdout ("Saving image at " ++ volume ++ "/micropiscope/"
                    ++ timestamp_jpg (wall_clock (env w)))])%list.
Proof.
  intros Hloc Hne Ht Hdir.
  rewrite (generate_filename_run w volume Hloc).
  assert (Hempty : empty volume = false).
  { unfold empty. apply String.eqb_neq. exact Hne. }
  rewrite Hempty. cbv zeta.
  rewrite (strftime_calendar _ Ht).
  assert (Hpath : (volume ++ "/micropiscope") ++ "/" ++ timestamp_jpg (wall_clock (env w))
                  = volume ++ "/micropiscope/" ++ timestamp_jpg (wall_clock (env w))).
  { rewrite append_assoc. reflexivity. }
  rewrite (append_assoc (volume ++ "/micropiscope") "/").
  rewrite Hpath.
  destruct (dir_exists (volume ++ "/micropiscope") w) eqn:Hthere.
  - eexists. split; [reflexivity|]. split; [exact Hthere|].
    split; reflexivity.
  - destruct Hdir as [Hdir|Hdir]; [discriminate|]. rewrite Hdir.
    eexists. split; [reflexivity|].
    split.
    { apply (dir_exists_created _ w); [exact Hdir|reflexivity|reflexivity]. }
    split; reflexivity.
Qed.

Lemma generate_filename_format_witness :
  exists w',
    generate_filename (boot (calm_env (Some mounts_usb)))
    = (Ret "/media/usb/micropiscope/2024-01-02-03-04-05.jpg", w') /\
    dir_exists "/media/usb/micropiscope" w' = true /\
    dirs w' = ["/media/usb/micropiscope"] /\
    trace w' =
      [ACreateDirectory "/media/usb/micropiscope";
       AStdout "Saving image at /media/usb/micropiscope/2024-01-02-03-04-05.jpg"].
Proof.
  assert (Hne : "/media/usb" <> "") by discriminate.
  assert (Ht : calendar_time (wall_clock (env (boot (calm_env (Some mounts_usb)))))).
  { unfold calendar_time. cbn. lia. }
  exact (generate_filename_format (boot (calm_env (Some mounts_usb))) "/media/usb"
           eq_refl Hne Ht (or_intror eq_refl)).
Defined.

(** ** Button Input Classifier *)

(** One Power event (lines 164-175). *)
Lemma callback_power w level tick :
  exists w',
    _callback KEY_POWER level tick w = (Ret tt, w') /\
    keyPowerTimeStart w' =
      Some (if level =? PI_LOW then tick
            else match keyPowerTimeStart w with Some s => s | None => tick end) /\
    doShutdown w' =
      (doShutdown w
       || (negb (level =? PI_LOW) && (level =? PI_HIGH)
           && (uint32 (tick - match keyPowerTimeStart w with
                                | Some s => s
                                | None => tick
                                end) >? 2000 * 1000))) /\
    takeImage w' = takeImage w /\
    env w' = env w /\ dirs w' = dirs w /\ mode w' = mode w /\ running w' = running w /\
    cam_actions (trace w') = cam_actions (trace w).
Proof.
  unfold _callback. rewrite Z.eqb_refl.
  destruct (keyPowerTimeStart w) as [s|] eqn:Hs; mrun; rewrite ?Hs.
  - destruct (level =? PI_LOW); mrun.
    + eexists. split; [reflexivity|]. wsimpl. rewrite orb_false_r. auto 10.
    + cbn [negb andb]. destruct ((level =? PI_HIGH) && (uint32 (tick - s) >? 2000 * 1000)); mrun.
      * eexists. split; [reflexivity|]. wsimpl. rewrite orb_true_r.
        unfold cam_actions. rewrite flat_map_app. cbn. rewrite app_nil_r. auto 10.
      * eexists. split; [reflexivity|]. wsimpl. rewrite orb_false_r. auto 10.
  - destruct (level =? PI_LOW); mrun.
    + eexists. split; [reflexivity|]. wsimpl. rewrite orb_false_r. auto 10.
    + cbn [negb andb]. destruct ((level =? PI_HIGH) && (uint32 (tick - tick) >? 2000 * 1000)); mrun.
      * eexists. split; [reflexivity|]. wsimpl. rewrite orb_true_r.
        unfold cam_actions. rewrite flat_map_app. cbn. rewrite app_nil_r. auto 10.
      * eexists. split; [reflexivity|]. wsimpl. rewrite orb_false_r. auto 10.
Qed.

Lemma alternating_with_prev prev e rest :
  alternating (with_prev prev (e :: rest)) = true ->
  alternating (with_prev (Some e) rest) = true.
Proof.
  destruct prev as [[l0 t0]|]; cbn [with_prev]; [|auto].
  destruct e as [l t]. cbn [alternating]. intros H.
  apply andb_true_iff in H. destruct H as [_ H].
  apply andb_true_iff in H. destruct H as [_ H]. exact H.
Qed.

Lemma is_level_cases l : is_level l = true -> l = PI_LOW \/ l = PI_HIGH.
Proof.
  unfold is_level. intros H. apply orb_true_iff in H.
  destruct H as [H|H]; apply Z.eqb_eq in H; auto.
Qed.

Lemma long_press_in_cons l1 t1 l2 t2 rest :
  long_press_in ((l1, t1) :: (l2, t2) :: rest) =
  ((l1 =? PI_LOW) && (l2 =? PI_HIGH) && (hold_us t1 t2 >? KEY_POWER_DOWN_MS * 1000))
  || long_press_in ((l2, t2) :: rest).
Proof. reflexivity. Qed.

Lemma deliver_power : forall edges prev w,
  alternating (with_prev prev edges) = true ->
  tracks prev w ->
  exists w',
    deliver KEY_POWER edges w = (Ret tt, w') /\
    doShutdown w' = (doShutdown w || long_press_in (with_prev prev edges)) /\
    tracks (last_edge prev edges) w' /\
    takeImage w' = takeImage w.
Proof.
  induction edges as [|[l t] rest IH]; intros prev w Halt Htr.
  - exists w. split; [reflexivity|]. split; [|split; [exact Htr|reflexivity]].
    destruct prev as [[l0 t0]|]; cbn; rewrite orb_false_r; reflexivity.
  - destruct (callback_power w l t)
      as (w1 & Hrun & Hstart & Hflag & Htake & _).
    destruct (IH (Some (l, t)) w1) as (w' & Hrun' & Hflag' & Htr' & Htake').
    { eapply alternating_with_prev. exact Halt. }
    { cbn [tracks]. intros ->. rewrite Hstart. reflexivity. }
    exists w'. cbn [deliver]. unfold _callbackExt.
    rewrite (bind_run _ _ _ _ _ Hrun).
    split; [exact Hrun'|].
    split; [|split; [exact Htr'|congruence]].
    rewrite Hflag', Hflag. cbn [with_prev].
    destruct prev as [[l0 t0]|]; cbn [with_prev tracks] in *.
    + cbn [alternating] in Halt.
      apply andb_true_iff in Halt. destruct Halt as [Hl0 Halt].
      apply andb_true_iff in Halt. destruct Halt as [Hne Halt].
      cbn [alternating] in Halt.
      apply andb_true_iff in Halt. destruct Halt as [Hl _].
      apply is_level_cases in Hl0. apply is_level_cases in Hl.
      rewrite long_press_in_cons.
      destruct Hl0 as [-> | ->], Hl as [-> | ->]; try discriminate Hne.
      * rewrite (Htr eq_refl). cbn. rewrite orb_assoc. reflexivity.
      * cbn. rewrite orb_false_r. reflexivity.
    + rewrite Htr. rewrite Z.sub_diag.
      change (uint32 0 >? 2000 * 1000) with false.
      rewrite andb_false_r, orb_false_r. reflexivity.
Qed.

Lemma long_press_in_iff edges :
  long_press_in edges = true <->
  exists pre press release post,
    edges = (pre ++ (PI_LOW, press) :: (PI_HIGH, release) :: post)%list /\
    hold_us press release > KEY_POWER_DOWN_MS * 1000.
Proof.
  split.
  - induction edges as [|[l1 t1] rest IH]; [discriminate|].
    destruct rest as [|[l2 t2] rest']; [discriminate|].
    rewrite long_press_in_cons.
    intros H. apply orb_true_iff in H. destruct H as [H|H].
    + apply andb_true_iff in H. destruct H as [H Hlong].
      apply andb_true_iff in H. destruct H as [H1 H2].
      apply Z.eqb_eq in H1, H2. subst.
      exists [], t1, t2, rest'. split; [reflexivity|].
      apply Z.gtb_lt in Hlong. lia.
    + destruct (IH H) as (pre & press & release & post & Heq & Hlong).
      exists ((l1, t1) :: pre), press, release, post.
      rewrite Heq. split; [reflexivity|exact Hlong].
  - intros (pre & press & release & post & -> & Hlong).
    induction pre as [|[l t] pre IH].
    + cbn [app]. rewrite long_press_in_cons, !Z.eqb_refl.
      assert (Hb : (hold_us press release >? KEY_POWER_DOWN_MS * 1000) = true).
      { apply Z.gtb_lt. lia. }
      rewrite Hb. reflexivity.
    + cbn [app]. cbn [app] in IH.
      destruct (pre ++ (PI_LOW, press) :: (PI_HIGH, release) :: post)%list
        as [|[l2 t2] rest'] eqn:E.
      * destruct pre; discriminate E.
      * rewrite long_press_in_cons, IH. apply orb_true_r.
Qed.

Lemma last_edge_app prev pre e :
  last_edge prev (pre ++ [e]) = Some e.
Proof. unfold last_edge. rewrite fold_left_app. reflexivity. Qed.

(** C2.  Power-line edges arrive at a classifier that has seen no Power
    event yet and has no shutdown pending.  The edges are level
    transitions, so their levels alternate.  Then ShutdownRequested is
    raised (the flag [doShutdown] ends up true) if and only if some
    press is followed by its release more than 2000 ms later, however
    many shorter presses come before or after; a release at or below the
    threshold raises nothing.  Every press resets the tracked start:
    after a press the static holds its tick, so a release is compared
    with the most recent press only.  Durations are measured on the tick
    counter, and are the plain difference while it does not wrap. *)
Theorem power_hold_classifier (w : World) (edges : list (Z * Z)) :
  keyPowerTimeStart w = None ->
  doShutdown w = false ->
  alternating edges = true ->
  exists w',
    deliver KEY_POWER edges w = (Ret tt, w') /\
    (doShutdown w' = true <->
     exists pre press release post,
       edges = (pre ++ (PI_LOW, press) :: (PI_HIGH, release) :: post)%list /\
       hold_us press release > KEY_POWER_DOWN_MS * 1000) /\
    (forall pre press,
       edges = (pre ++ [(PI_LOW, press)])%list ->
       keyPowerTimeStart w' = Some press) /\
    (forall press release,
       0 <= press <= release -> release < 2 ^ 32 ->
       hold_us press release = release - press).
Proof.
  intros Hfresh Hclear Halt.
  destruct (deliver_power edges None w Halt Hfresh) as (w' & Hrun & Hflag & Htr & _).
  exists w'. split; [exact Hrun|].
  split; [|split].
  - rewrite Hflag, Hclear. cbn [orb with_prev]. apply long_press_in_iff.
  - intros pre press ->. rewrite last_edge_app in Htr. apply Htr. reflexivity.
  - intros press release H1 H2. unfold hold_us, uint32.
    apply Z.mod_small. lia.
Qed.

Lemma power_hold_classifier_witness :
  exists w',
    deliver KEY_POWER
      [(PI_LOW, 1000000); (PI_HIGH, 1500000); (PI_LOW, 3000000); (PI_HIGH, 5500001)]
      (boot (calm_env None)) = (Ret tt, w') /\
    (doShutdown w' = true <->
     exists pre press release post,
       [(PI_LOW, 1000000); (PI_HIGH, 1500000); (PI_LOW, 3000000); (PI_HIGH, 5500001)]
       = (pre ++ (PI_LOW, press) :: (PI_HIGH, release) :: post)%list /\
       hold_us press release > KEY_POWER_DOWN_MS * 1000) /\
    (forall pre press,
       [(PI_LOW, 1000000); (PI_HIGH, 1500000); (PI_LOW, 3000000); (PI_HIGH, 5500001)]
       = (pre ++ [(PI_LOW, press)])%list ->
       keyPowerTimeStart w' = Some press) /\
    (forall press release,
       0 <= press <= release -> release < 2 ^ 32 ->
       hold_us press release = release - press).
Proof.
  exact (power_hold_classifier (boot (calm_env None))
           [(PI_LOW, 1000000); (PI_HIGH, 1500000); (PI_LOW, 3000000); (PI_HIGH, 5500001)]
           eq_refl eq_refl eq_refl).
Defined.

(** Short presses, however many, raise nothing; one long hold does. *)
Example short_presses_ignored :
  doShutdown (snd (deliver KEY_POWER
    [(PI_LOW, 0); (PI_HIGH, 1999999); (PI_LOW, 2500000); (PI_HIGH, 4500000);
     (PI_LOW, 5000000); (PI_HIGH, 5000100)] (boot (calm_env None)))) = false.
Proof. vm_compute. reflexivity. Qed.

Example long_hold_raises :
  doShutdown (snd (deliver KEY_POWER
    [(PI_LOW, 0); (PI_HIGH, 1999999); (PI_LOW, 2500000); (PI_HIGH, 4500001)]
    (boot (calm_env None)))) = true.
Proof. vm_compute. reflexivity. Qed.

(** C10.  A press at true time [T_press] and its release at true time
    [T_release], both in microseconds, reach the callback as ticks
    modulo 2^32.  When the hold is shorter than 2^32 microseconds the
    difference of the ticks modulo 2^32 is the true duration, also when
    the counter wrapped in between, and the release raises
    ShutdownRequested exactly when the true duration exceeds 2000 ms. *)
Theorem hold_duration_wraps (w : World) (T_press T_release : Z) :
  0 <= T_release - T_press < 2 ^ 32 ->
  doShutdown w = false ->
  exists w1 w2,
    _callback KEY_POWER PI_LOW (uint32 T_press) w = (Ret tt, w1) /\
    _callback KEY_POWER PI_HIGH (uint32 T_release) w1 = (Ret tt, w2) /\
    hold_us (uint32 T_press) (uint32 T_release) = T_release - T_press /\
    (doShutdown w2 = true <-> T_release - T_press > KEY_POWER_DOWN_MS * 1000).
Proof.
  intros Hhold Hclear.
  destruct (callback_power w PI_LOW (uint32 T_press))
    as (w1 & Hrun1 & Hstart1 & Hflag1 & _).
  destruct (callback_power w1 PI_HIGH (uint32 T_release))
    as (w2 & Hrun2 & _ & Hflag2 & _).
  assert (Hdur : hold_us (uint32 T_press) (uint32 T_release) = T_release - T_press).
  { unfold hold_us, uint32. rewrite <- Zminus_mod. apply Z.mod_small. exact Hhold. }
  exists w1, w2. split; [exact Hrun1|]. split; [exact Hrun2|]. split; [exact Hdur|].
  rewrite Hflag2, Hflag1, Hstart1, Hclear.
  change (PI_LOW =? PI_LOW) with true. change (PI_HIGH =? PI_LOW) with false.
  change (PI_HIGH =? PI_HIGH) with true. cbn [negb andb orb].
  fold (hold_us (uint32 T_press) (uint32 T_release)). rewrite Hdur.
  change (KEY_POWER_DOWN_MS * 1000) with (2000 * 1000).
  split; intros H.
  - apply Z.gtb_lt in H. lia.
  - apply Z.gtb_lt. lia.
Qed.

Lemma hold_duration_wraps_witness :
  exists w1 w2,
    _callback KEY_POWER PI_LOW (uint32 4293967296) (boot (calm_env None)) = (Ret tt, w1) /\
    _callback KEY_POWER PI_HIGH (uint32 4296467296) w1 = (Ret tt, w2) /\
    hold_us (uint32 4293967296) (uint32 4296467296) = 4296467296 - 4293967296 /\
    (doShutdown w2 = true <-> 4296467296 - 4293967296 > KEY_POWER_DOWN_MS * 1000).
Proof.
  assert (H : 0 <= 4296467296 - 4293967296 < 2 ^ 32) by (cbn; lia).
  exact (hold_duration_wraps (boot (calm_env None)) 4293967296 4296467296 H eq_refl).
Defined.

(** The wrapped release tick is smaller than the press tick, and the
    hold of two and a half seconds is still seen. *)
Example hold_across_wrap :
  uint32 4296467296 = 1500000 /\
  uint32 4293967296 = 4293967296 /\
  doShutdown (snd (deliver KEY_POWER [(PI_LOW, 4293967296); (PI_HIGH, 1500000)]
                     (boot (calm_env None)))) = true.
Proof. vm_compute. auto. Qed.

(** ** Intent flags *)

Lemma raise_run f w :
  exists w', raise f w = (Ret tt, w') /\ pending f w' = true.
Proof.
  destruct f; cbn [raise pending].
  - unfold _callback.
    change (KEY_MENU =? KEY_POWER) with false.
    change ((KEY_MENU =? KEY_MENU) && (PI_LOW =? PI_LOW)) with true.
    mrun. eexists. split; reflexivity.
  - destruct (callback_power w PI_LOW 0) as (w1 & Hrun1 & Hstart1 & _).
    destruct (callback_power w1 PI_HIGH 2000001) as (w2 & Hrun2 & _ & Hflag2 & _).
    exists w2. rewrite (bind_run _ _ _ _ _ Hrun1). split; [exact Hrun2|].
    rewrite Hflag2, Hstart1. apply orb_true_r.
Qed.

Lemma consume_run f w :
  exists w', consume f w = (Ret (pending f w), w') /\ pending f w' = false.
Proof.
  destruct f; cbn [consume pending]; unfold TakeImage, DoShutdown; mrun.
  - destruct (takeImage w) eqn:E; mrun; eexists; split; try reflexivity. exact E.
  - destruct (doShutdown w) eqn:E; mrun; eexists; split; try reflexivity. exact E.
Qed.

Lemma interleave_run f : forall ops w,
  exists results w',
    interleave f ops w = (Ret results, w') /\
    results = observed (pending f w) ops /\
    pending f w' = fold_left (fun _ op => match op with Raise => true | Consume => false end)
                             ops (pending f w).
Proof.
  induction ops as [|op ops IH]; intros w.
  - exists [], w. repeat split.
  - destruct op; cbn [interleave observed fold_left].
    + destruct (raise_run f w) as (w1 & Hrun & Hp).
      destruct (IH w1) as (results & w' & Hrun' & Hres & Hp').
      exists results, w'. rewrite (bind_run _ _ _ _ _ Hrun).
      rewrite Hp in *. auto.
    + destruct (consume_run f w) as (w1 & Hrun & Hp).
      destruct (IH w1) as (results & w' & Hrun' & Hres & Hp').
      exists (pending f w :: results), w'.
      rewrite (bind_run _ _ _ _ _ Hrun). rewrite (bind_run _ _ _ _ _ Hrun').
      rewrite Hp in *. subst results. auto.
Qed.

Lemma observed_raises_then_consumes n raised :
  observed raised (repeat Raise (S n) ++ [Consume; Consume]) = [true; false].
Proof.
  cbn [repeat app observed]. clear raised.
  induction n as [|n IH]; [reflexivity|]. exact IH.
Qed.

(** C4.  For either intent flag: a raise leaves the flag true; a
    consumption returns what the flag held and leaves it false; and in
    every interleaving of raises and consumptions that starts with the
    flag clear, a consumption returns true exactly when something was
    raised since the consumption before it, so the flag is pending at
    the end exactly when the last operation was a raise.  In particular
    any number of raises followed by two consumptions yields true once
    and then false. *)
Theorem intent_flag_exactly_once (f : Flag) :
  (forall w, exists w', raise f w = (Ret tt, w') /\ pending f w' = true) /\
  (forall w, exists w', consume f w = (Ret (pending f w), w') /\ pending f w' = false) /\
  (forall ops w,
     pending f w = false ->
     exists results w',
       interleave f ops w = (Ret results, w') /\
       results = observed false ops /\
       (pending f w' = true <-> exists pre, ops = (pre ++ [Raise])%list)) /\
  (forall n w,
     exists w',
       interleave f (repeat Raise (S n) ++ [Consume; Consume]) w
       = (Ret [true; false], w') /\
       pending f w' = false).
Proof.
  split; [apply raise_run|]. split; [apply consume_run|]. split.
  - intros ops w Hclear.
    destruct (interleave_run f ops w) as (results & w' & Hrun & Hres & Hp).
    exists results, w'. rewrite Hclear in *.
    split; [exact Hrun|]. split; [exact Hres|].
    rewrite Hp. clear.
    destruct ops as [|op ops] using rev_ind.
    + cbn. split; [discriminate|]. intros [pre H]. destruct pre; discriminate H.
    + rewrite fold_left_app. cbn [fold_left]. destruct op.
      * split; [eauto|reflexivity].
      * split; [discriminate|]. intros [pre H].
        apply app_inj_tail in H. destruct H as [_ H]. discriminate H.
  - intros n w.
    destruct (interleave_run f (repeat Raise (S n) ++ [Consume; Consume]) w)
      as (results & w' & Hrun & Hres & Hp).
    exists w'. rewrite observed_raises_then_consumes in Hres. subst results.
    split; [exact Hrun|]. rewrite Hp, fold_left_app. reflexivity.
Qed.

Lemma intent_flag_exactly_once_witness :
  exists results w',
    interleave CaptureRequested [Raise; Raise; Raise; Consume; Consume; Raise]
      (boot (calm_env None)) = (Ret results, w') /\
    results = observed false [Raise; Raise; Raise; Consume; Consume; Raise] /\
    (pending CaptureRequested w' = true <->
     exists pre, [Raise; Raise; Raise; Consume; Consume; Raise] = (pre ++ [Raise])%list).
Proof.
  exact (proj1 (proj2 (proj2 (intent_flag_exactly_once CaptureRequested)))
           [Raise; Raise; Raise; Consume; Consume; Raise]
           (boot (calm_env None)) eq_refl).
Defined.

(** ** Capture Mode State Machine and Event Loop *)

Ltac crun :=
  cbv beta iota delta
    [bind ret throw lift gets modify emit LOG LOG_ERROR sync elapse negb
     OpenCamera ConfigureViewfinder ConfigureStill Teardown StartCamera
     StopCamera ShowPreview ViewfinderStream StillStream jpeg_save
     reboot_power_off TakeImage DoShutdown];
  wsimpl.

(** Viewfinder frame with a capture pending (lines 252-258). *)
Lemma loop_body_capture w :
  mode w = Some Viewfinder -> takeImage w = true ->
  exists w',
    loop_body RequestComplete w = (Ret Continue, w') /\
    mode w' = Some Still /\ running w' = true /\
    takeImage w' = false /\ doShutdown w' = doShutdown w /\
    env w' = env w /\ dirs w' = dirs w /\
    trace w' = (trace w ++ [ACam CmdStopCamera; ACam CmdTeardown;
                            ACam CmdConfigureStill; ACam CmdStartCamera])%list.
Proof.
  intros Hm Ht. unfold loop_body. crun. rewrite Hm. cbv iota. crun. rewrite Ht. crun.
  eexists. split; [reflexivity|]. wsimpl.
  rewrite <- !app_assoc. auto 10.
Qed.

(** Viewfinder frame with only a shutdown pending (lines 259-267): the
    process ends in [reboot] when the power-off succeeds, and the loop
    returns when it does not. *)
Lemma loop_body_shutdown w :
  mode w = Some Viewfinder -> takeImage w = false -> doShutdown w = true ->
  exists w',
    loop_body RequestComplete w
    = (if reboot_ok (env w) then PoweredOff else Ret Return, w') /\
    doShutdown w' = false /\ takeImage w' = false /\ mode w' = None /\
    trace w' = (trace w ++ [ACam CmdStopCamera; ACam CmdTeardown;
                            ALog 1 "Shutting down!"; ASync; AReboot])%list.
Proof.
  intros Hm Ht Hd. unfold loop_body. crun. rewrite Hm. cbv iota. crun.
  rewrite Ht. crun. rewrite Hd. crun.
  destruct (reboot_ok (env w)); crun;
    (eexists; split; [reflexivity|]; wsimpl;
     rewrite <- !app_assoc; auto 10).
Qed.

(** Viewfinder frame with nothing pending (lines 268-272). *)
Lemma loop_body_preview w :
  mode w = Some Viewfinder -> takeImage w = false -> doShutdown w = false ->
  loop_body RequestComplete w
  = (Ret Continue, set_trace (trace w ++ [ACam CmdShowPreview])%list w).
Proof.
  intros Hm Ht Hd. unfold loop_body. crun. rewrite Hm. cbv iota. crun.
  rewrite Ht. crun. rewrite Hd. crun. reflexivity.
Qed.

(** Still frame (lines 275-296), when filename generation returns. *)
Lemma loop_body_still w f :
  mode w = Some Still -> destination w = Ret f ->
  exists w' middle,
    loop_body RequestComplete w = (Ret Continue, w') /\
    mode w' = Some Viewfinder /\ running w' = true /\
    takeImage w' = takeImage w /\ doShutdown w' = doShutdown w /\
    env w' = env w /\
    trace w' =
      (trace w
       ++ [ACam CmdStopCamera; ALog 1 "Still capture image received"]
       ++ middle
       ++ [if empty f then ALogError "Cannot save image, no mounted drive!"
           else AJpegSave f (encode_ok (env w) f)]
       ++ [ACam CmdTeardown; ACam CmdConfigureViewfinder; ACam CmdStartCamera])%list /\
    cam_actions middle = [] /\
    (forall name ok, ~ In (AJpegSave name ok) middle) /\
    ~ In AReboot middle.
Proof.
  intros Hm Hdest. unfold loop_body. crun. rewrite Hm. cbv iota. crun.
  rewrite Hm. cbv iota beta.
  match goal with |- context [generate_filename ?x] => set (w1 := x) end.
  assert (Htr1 : trace w1 = (trace w ++ [ACam CmdStopCamera;
                                         ALog 1 "Still capture image received"])%list).
  { subst w1. wsimpl. rewrite <- app_assoc. reflexivity. }
  assert (Hdest1 : destination w1 = Ret f).
  { rewrite <- Hdest. apply destination_frame; reflexivity. }
  unfold destination in Hdest1.
  destruct (generate_filename_outcome w1)
    as [Hg | [(g & w2 & middle & Hg & Hne & Happ & Htr & Hcam & Hjpg & Hrb) | (what & Hg)]];
    rewrite Hg in Hdest1; cbn [fst] in Hdest1; inversion Hdest1; subst f.
  - rewrite Hg. change (empty "") with true. cbv iota beta.
    eexists. exists []. split; [reflexivity|]. wsimpl. rewrite Htr1.
    rewrite <- !app_assoc. cbn [app].
    split; [reflexivity|]. split; [reflexivity|]. split; [reflexivity|].
    split; [reflexivity|]. split; [reflexivity|]. split; [reflexivity|].
    split; [reflexivity|]. split; intros; intros [].
  - rewrite Hg, Hne. cbv iota beta.
    destruct Happ as [Henv Hds Hti _ _ _ _].
    eexists. exists middle. split; [reflexivity|]. wsimpl.
    rewrite Htr, Htr1, Henv, Hds, Hti. 
    rewrite <- !app_assoc. cbn [app].
    split; [reflexivity|]. split; [reflexivity|]. split; [reflexivity|].
    split; [reflexivity|]. split; [reflexivity|]. split; [reflexivity|].
    split; [exact Hcam|]. split; [exact Hjpg|exact Hrb].
Qed.

(** Still frame, when filename generation throws: the exception leaves
    the loop body with the pipeline stopped. *)
Lemma loop_body_still_throws w e :
  mode w = Some Still -> destination w = Throw e ->
  exists w',
    loop_body RequestComplete w = (Throw e, w') /\
    mode w' = Some Still /\ running w' = false /\
    trace w' = (trace w ++ [ACam CmdStopCamera;
                            ALog 1 "Still capture image received"])%list.
Proof.
  intros Hm Hdest. unfold loop_body. crun. rewrite Hm. cbv iota. crun.
  rewrite Hm. cbv iota beta.
  match goal with |- context [generate_filename ?x] => set (w1 := x) end.
  assert (Hdest1 : destination w1 = Throw e).
  { rewrite <- Hdest. apply destination_frame; reflexivity. }
  unfold destination in Hdest1.
  destruct (generate_filename_outcome w1)
    as [Hg | [(g & w2 & middle & Hg & _) | (what & Hg)]];
    rewrite Hg in Hdest1; cbn [fst] in Hdest1; inversion Hdest1; subst e.
  rewrite Hg. exists w1. split; [reflexivity|]. subst w1. wsimpl.
  rewrite <- app_assoc. auto.
Qed.

(** Timeout (lines 236-242): restart, nothing else changes. *)
Lemma loop_body_timeout w :
  exists w',
    loop_body Timeout w = (Ret Continue, w') /\
    mode w' = mode w /\ running w' = true /\
    takeImage w' = takeImage w /\ doShutdown w' = doShutdown w /\
    trace w' =
      (trace w ++ [ALogError "ERROR: Device timeout detected, attempting a restart!!!";
                   ACam CmdStopCamera; ACam CmdStartCamera])%list.
Proof.
  unfold loop_body. crun. eexists. split; [reflexivity|]. wsimpl.
  rewrite <- !app_assoc. auto 10.
Qed.

(** An edge on any line, with any level, leaves the pipeline alone; the
    callback returns unless the retry loop of [unmount_drive] is still
    going round. *)
Lemma callback_frame gpio level tick w :
  exists r w',
    _callback gpio level tick w = (r, w') /\
    (r = Ret tt \/ r = OutOfFuel) /\
    mode w' = mode w /\
    cam_actions (trace w') = cam_actions (trace w).
Proof.
  destruct (gpio =? KEY_POWER) eqn:Hp.
  { apply Z.eqb_eq in Hp. subst gpio.
    destruct (callback_power w level tick) as (w' & Hrun & _ & _ & _ & _ & _ & Hm & _ & Hc).
    exists (Ret tt), w'. auto. }
  unfold _callback. rewrite Hp.
  destruct ((gpio =? KEY_MENU) && (level =? PI_LOW)).
  { crun. eexists. eexists. split; [reflexivity|]. wsimpl.
    split; [left; reflexivity|]. split; [reflexivity|].
    unfold cam_actions. rewrite flat_map_app. cbn. rewrite app_nil_r. reflexivity. }
  destruct ((gpio =? KEY_DOWN) && (level =? PI_LOW)).
  - crun.
    set (w0 := set_trace (trace w ++ [ALog 1 "KEY DOWN"])%list w).
    destruct (unmount_drive_run w0)
      as (path & r & w' & tr & _ & Hrun & _ & Happ & Hr & _).
    exists r, w'. split; [exact Hrun|]. split; [exact Hr|].
    destruct Happ as [_ _ _ _ Hm _ Hc]. rewrite Hm, Hc. subst w0. wsimpl.
    split; [reflexivity|].
    unfold cam_actions. rewrite flat_map_app. cbn. rewrite app_nil_r. reflexivity.
  - exists (Ret tt), w. auto.
Qed.

Lemma alternates_prefix : forall l l' next,
  alternates next (l ++ l') = true -> alternates next l = true.
Proof.
  induction l as [|m l IH]; intros l' next H; [reflexivity|].
  cbn [app alternates] in *. apply andb_true_iff in H. destruct H as [H1 H2].
  rewrite H1. cbn [andb]. eapply IH. exact H2.
Qed.

Lemma other_involutive m : other (other m) = m.
Proof. destruct m; reflexivity. Qed.

Lemma mode_eqb_refl m : mode_eqb m m = true.
Proof. destruct m; reflexivity. Qed.

(** If the alternation expects [other m] next, it accepts [m] followed
    by [other m] only after [other m]. *)
Lemma alternates_extend : forall l next m,
  alternates next (l ++ [other m]) = true ->
  alternates next (l ++ [other m; m]) = true.
Proof.
  induction l as [|x l IH]; intros next m H.
  - cbn [app alternates] in *. rewrite andb_true_r in H.
    rewrite H. cbn [andb].
    assert (Hn : next = other m) by (destruct next, m; cbn in *; congruence).
    subst next. rewrite other_involutive, mode_eqb_refl. reflexivity.
  - cbn [app alternates] in *. apply andb_true_iff in H. destruct H as [H1 H2].
    rewrite H1. cbn [andb]. apply IH. exact H2.
Qed.

Lemma configured_app tr tr' :
  configured (tr ++ tr') = (configured tr ++ configured tr')%list.
Proof. unfold configured, cam_actions. rewrite !flat_map_app. reflexivity. Qed.

Lemma configured_same tr tr' :
  cam_actions tr' = cam_actions tr -> configured tr' = configured tr.
Proof. unfold configured. intros ->. reflexivity. Qed.

Lemma in_step_alternates c0 w : in_step c0 w -> alternating_since c0 w.
Proof.
  intros (m & c & _ & Hc & H). exists c. split; [exact Hc|].
  apply (alternates_prefix (Viewfinder :: c) [other m]). exact H.
Qed.

Lemma alternating_since_frame c0 w w' :
  alternating_since c0 w -> configured (trace w') = configured (trace w) ->
  alternating_since c0 w'.
Proof. intros (c & Hc & H) Hconf. exists c. rewrite Hconf. auto. Qed.

Lemma in_step_frame c0 w w' :
  in_step c0 w -> mode w' = mode w -> configured (trace w') = configured (trace w) ->
  in_step c0 w'.
Proof.
  intros (m & c & Hm & Hc & H) Hmode Hconf. exists m, c.
  split; [congruence|]. rewrite Hconf. auto.
Qed.

(** Configuring the other mode keeps the loop in step. *)
Lemma in_step_switch c0 w w' m :
  in_step c0 w -> mode w = Some m -> mode w' = Some (other m) ->
  configured (trace w') = (configured (trace w) ++ [other m])%list ->
  in_step c0 w'.
Proof.
  intros (m0 & c & Hm0 & Hc & H) Hm Hm' Hconf.
  assert (m0 = m) by congruence. subst m0.
  exists (other m), (c ++ [other m])%list.
  split; [exact Hm'|].
  split; [rewrite Hconf, Hc, <- app_assoc; reflexivity|].
  rewrite other_involutive, <- app_assoc.
  exact (alternates_extend (Viewfinder :: c) Viewfinder m H).
Qed.

Lemma destination_returns_or_throws w :
  (exists f, destination w = Ret f) \/ (exists e, destination w = Throw e).
Proof.
  unfold destination.
  destruct (generate_filename_outcome w)
    as [Hg | [(g & w2 & middle & Hg & _) | (what & Hg)]]; rewrite Hg; cbn [fst]; eauto.
Qed.

Lemma configured_no_cam middle :
  cam_actions middle = [] -> configured middle = [].
Proof. unfold configured. intros ->. reflexivity. Qed.

(** One input keeps the alternation, and keeps the loop in step when it
    goes on. *)
Lemma input_step_in_step c0 i w r w' :
  in_step c0 w ->
  input_step i w = (r, w') ->
  alternating_since c0 w' /\
  (r = Ret Continue -> in_step c0 w').
Proof.
  intros Hin Hstep. pose proof Hin as (m & c & Hm & Hc & Halt).
  destruct i as [msg | gpio level tick | e]; cbn [input_step] in Hstep.
  - destruct msg.
    + (* RequestComplete *)
      destruct m.
      * destruct (takeImage w) eqn:Ht.
        -- destruct (loop_body_capture w Hm Ht)
             as (w1 & Hrun & Hm1 & _ & _ & _ & _ & _ & Htr).
           rewrite Hrun in Hstep. inversion Hstep; subst r w1.
           assert (Hconf : configured (trace w') = (configured (trace w) ++ [Still])%list).
           { rewrite Htr, configured_app. reflexivity. }
           assert (Hin' : in_step c0 w')
             by exact (in_step_switch c0 w w' Viewfinder Hin Hm Hm1 Hconf).
           split; [apply in_step_alternates; exact Hin'|intros _; exact Hin'].
        -- destruct (doShutdown w) eqn:Hd.
           ++ destruct (loop_body_shutdown w Hm Ht Hd) as (w1 & Hrun & _ & _ & _ & Htr).
              rewrite Hrun in Hstep. inversion Hstep; subst r w1.
              split; [|destruct (reboot_ok (env w)); discriminate].
              apply (alternating_since_frame c0 w); [apply in_step_alternates; exact Hin|].
              rewrite Htr, configured_app. cbn. apply app_nil_r.
           ++ rewrite (loop_body_preview w Hm Ht Hd) in Hstep. inversion Hstep; subst r w'.
              assert (Hconf : configured (trace (set_trace (trace w ++ [ACam CmdShowPreview])%list w))
                              = configured (trace w)).
              { wsimpl. rewrite configured_app. cbn. apply app_nil_r. }
              assert (Hin' : in_step c0 (set_trace (trace w ++ [ACam CmdShowPreview])%list w))
                by (eapply in_step_frame; [exact Hin|reflexivity|exact Hconf]).
              split; [apply in_step_alternates; exact Hin'|intros _; exact Hin'].
      * destruct (destination_returns_or_throws w) as [[f Hd]|[e Hd]].
        -- destruct (loop_body_still w f Hm Hd)
             as (w1 & middle & Hrun & Hm1 & _ & _ & _ & _ & Htr & Hcam & _).
           rewrite Hrun in Hstep. inversion Hstep; subst r w1.
           assert (Hconf : configured (trace w') = (configured (trace w) ++ [Viewfinder])%list).
           { rewrite Htr, !configured_app, (configured_no_cam _ Hcam).
             destruct (empty f); reflexivity. }
           assert (Hin' : in_step c0 w')
             by exact (in_step_switch c0 w w' Still Hin Hm Hm1 Hconf).
           split; [apply in_step_alternates; exact Hin'|intros _; exact Hin'].
        -- destruct (loop_body_still_throws w e Hm Hd) as (w1 & Hrun & _ & _ & Htr).
           rewrite Hrun in Hstep. inversion Hstep; subst r w1.
           split; [|discriminate].
           apply (alternating_since_frame c0 w); [apply in_step_alternates; exact Hin|].
           rewrite Htr, configured_app. cbn. apply app_nil_r.
    + (* Timeout *)
      destruct (loop_body_timeout w) as (w1 & Hrun & Hm1 & _ & _ & _ & Htr).
      rewrite Hrun in Hstep. inversion Hstep; subst r w1.
      assert (Hconf : configured (trace w') = configured (trace w)).
      { rewrite Htr, configured_app. cbn. apply app_nil_r. }
      assert (Hin' : in_step c0 w') by (eapply in_step_frame; eassumption).
      split; [apply in_step_alternates; exact Hin'|intros _; exact Hin'].
    + (* Quit *)
      cbn in Hstep. inversion Hstep; subst r w'.
      split; [apply in_step_alternates; exact Hin|discriminate].
    + (* Unrecognised *)
      cbn in Hstep. inversion Hstep; subst r w'.
      split; [apply in_step_alternates; exact Hin|discriminate].
  - destruct (callback_frame gpio level tick w) as (r1 & w1 & Hrun & Hr & Hm1 & Hcam).
    assert (Hin' : in_step c0 w1).
    { eapply in_step_frame; [exact Hin|exact Hm1|apply configured_same; exact Hcam]. }
    unfold _callbackExt, bind in Hstep. rewrite Hrun in Hstep.
    destruct Hr as [-> | ->]; inversion Hstep; subst r w1;
      (split; [apply in_step_alternates; exact Hin'|intros _; exact Hin']).
  - cbn in Hstep. inversion Hstep; subst r w'.
    assert (Hin' : in_step c0 (set_env e w)).
    { eapply in_step_frame; [exact Hin|reflexivity|reflexivity]. }
    split; [apply in_step_alternates; exact Hin'|intros _; exact Hin'].
Qed.

Lemma loop_alternates c0 : forall inputs w,
  in_step c0 w ->
  alternating_since c0 (snd (loop inputs w)).
Proof.
  induction inputs as [|i inputs IH]; intros w Hin.
  - apply in_step_alternates. exact Hin.
  - cbn [loop]. unfold bind.
    destruct (input_step i w) as [r w1] eqn:Hstep.
    destruct (input_step_in_step c0 i w r w1 Hin Hstep) as [Halt Hnext].
    destruct r as [[|]|e| |]; cbn [snd]; try exact Halt.
    apply IH. apply Hnext. reflexivity.
Qed.

(** [event_loop] opens the camera, configures the viewfinder, starts the
    pipeline and enters the loop in step. *)
Lemma event_loop_start inputs w :
  exists w0, event_loop inputs w = loop inputs w0 /\
             in_step (configured (trace w)) w0 /\
             w0 = set_running true
                    (set_mode (Some Viewfinder)
                       (set_trace (trace w ++ [ACam CmdOpenCamera;
                                               ACam CmdConfigureViewfinder;
                                               ACam CmdStartCamera])%list w)).
Proof.
  unfold event_loop. crun. rewrite <- !app_assoc. cbn [app].
  eexists. split; [reflexivity|]. split; [|reflexivity].
  exists Viewfinder, []. wsimpl.
  split; [reflexivity|]. split; [|reflexivity].
  rewrite configured_app. reflexivity.
Qed.

Lemma enters_still i w r w' :
  input_step i w = (r, w') ->
  mode w' = Some Still -> mode w <> Some Still ->
  i = IWait RequestComplete /\ mode w = Some Viewfinder /\
  takeImage w = true /\ takeImage w' = false /\ r = Ret Continue.
Proof.
  intros Hstep Hafter Hbefore.
  destruct i as [msg | gpio level tick | e]; cbn [input_step] in Hstep.
  - destruct msg.
    + destruct (mode w) as [[|]|] eqn:Hm.
      * destruct (takeImage w) eqn:Ht.
        -- destruct (loop_body_capture w Hm Ht) as (w1 & Hrun & _ & _ & Ht1 & _).
           rewrite Hrun in Hstep. inversion Hstep; subst. auto 10.
        -- destruct (doShutdown w) eqn:Hd.
           ++ destruct (loop_body_shutdown w Hm Ht Hd) as (w1 & Hrun & _ & _ & Hm1 & _).
              rewrite Hrun in Hstep. inversion Hstep; subst. congruence.
           ++ rewrite (loop_body_preview w Hm Ht Hd) in Hstep.
              inversion Hstep; subst. cbn [mode set_trace] in Hafter. congruence.
      * congruence.
      * unfold loop_body in Hstep. revert Hstep. crun. rewrite Hm. cbv iota. crun.
        rewrite Hm. cbv iota beta. intros Hstep. inversion Hstep; subst. congruence.
    + destruct (loop_body_timeout w) as (w1 & Hrun & Hm1 & _).
      rewrite Hrun in Hstep. inversion Hstep; subst. congruence.
    + cbn in Hstep. inversion Hstep; subst. congruence.
    + cbn in Hstep. inversion Hstep; subst. congruence.
  - destruct (callback_frame gpio level tick w) as (r1 & w1 & Hrun & Hr & Hm1 & _).
    unfold _callbackExt, bind in Hstep. rewrite Hrun in Hstep.
    destruct Hr as [-> | ->]; inversion Hstep; subst; congruence.
  - cbn in Hstep. inversion Hstep; subst. cbn [mode set_env] in Hafter. congruence.
Qed.

(** A run over [pre ++ rest] is the run over [pre] and, when that still
    waits, the run over [rest] from where it stands. *)
Lemma loop_app_run (pre rest : list Input) (w : World) :
  loop (pre ++ rest) w =
  match loop pre w with
  | (Ret Waiting, w') => loop rest w'
  | other => other
  end.
Proof.
  revert w. induction pre as [|i pre IH]; intros w; [reflexivity|].
  cbn [app loop]. unfold bind.
  destruct (input_step i w) as [r w1].
  destruct r as [[|]|e| |]; [apply IH|reflexivity|reflexivity|reflexivity|reflexivity].
Qed.

Lemma event_loop_app pre rest w w1 :
  event_loop pre w = (Ret Waiting, w1) ->
  event_loop (pre ++ rest) w = loop rest w1.
Proof.
  destruct (event_loop_start pre w) as (w0 & Hpre & _ & Hw0).
  destruct (event_loop_start (pre ++ rest) w) as (w0' & Hall & _ & Hw0').
  rewrite Hpre, Hall. subst w0 w0'. intros Hrun.
  rewrite loop_app_run, Hrun. reflexivity.
Qed.

(** When filename generation throws: the subdirectory is absent and the
    file system fails on it, at the status query or at the creation. *)
Lemma destination_throws w volume what :
  get_mount_location w = (Ret volume, w) -> volume <> "" ->
  dir_exists (volume ++ "/micropiscope") w = false ->
  mkdir_outcome (env w) (volume ++ "/micropiscope") = MkdirError what \/
  mkdir_outcome (env w) (volume ++ "/micropiscope") = StatusError what ->
  destination w = Throw (filesystem_error what).
Proof.
  intros Hloc Hne Hdir Hmk. unfold destination.
  rewrite (generate_filename_run w volume Hloc).
  assert (Hempty : empty volume = false).
  { unfold empty. apply String.eqb_neq. exact Hne. }
  rewrite Hempty. cbv zeta. rewrite Hdir.
  destruct Hmk as [-> | ->]; reflexivity.
Qed.

(** C3 fails on the code in its last part.  In every execution of the
    event loop, whatever the messages, the button edges between them and
    the changes of the outside world:
    - the execution begins by opening the camera, configuring the
      viewfinder and starting the pipeline, and then waits in Viewfinder
      mode;
    - the modes configured in the course of the execution are
      Viewfinder, Still, Viewfinder, Still and so on, beginning with
      Viewfinder;
    - a frame completion in Viewfinder mode that finds CaptureRequested
      pending consumes it, tears down, configures Still and restarts;
    - a step of the execution that enters Still is such a frame
      completion, and no other, and the loop goes on after it;
    - a frame completion in Still mode for which filename generation
      returns [f], a path or the empty "no destination", stops the
      pipeline, saves to [f] or reports and discards, then tears down,
      configures the viewfinder and restarts: the loop waits in
      Viewfinder mode with the pipeline running;
    - but a frame completion in Still mode for which filename generation
      throws leaves [event_loop] by the exception after the pipeline was
      stopped: the machine is not reconfigured, it stays in Still mode
      with the pipeline stopped, and no later input is looked at;
    - and filename generation throws whenever a volume is mounted, its
      subdirectory is absent and the file system fails on it, which the
      specification counts among "no destination". *)
Theorem mode_alternation :
  (forall w,
     exists w0,
       event_loop [] w = (Ret Waiting, w0) /\
       mode w0 = Some Viewfinder /\ running w0 = true /\
       trace w0 = (trace w ++ [ACam CmdOpenCamera; ACam CmdConfigureViewfinder;
                               ACam CmdStartCamera])%list) /\
  (forall inputs w,
     alternating_since (configured (trace w)) (snd (event_loop inputs w))) /\
  (forall pre w w1,
     event_loop pre w = (Ret Waiting, w1) ->
     mode w1 = Some Viewfinder -> takeImage w1 = true ->
     exists w2,
       event_loop (pre ++ [IWait RequestComplete]) w = (Ret Waiting, w2) /\
       mode w2 = Some Still /\ running w2 = true /\ takeImage w2 = false /\
       trace w2 = (trace w1 ++ [ACam CmdStopCamera; ACam CmdTeardown;
                                ACam CmdConfigureStill; ACam CmdStartCamera])%list) /\
  (forall pre i rest w w1 r w2,
     event_loop pre w = (Ret Waiting, w1) ->
     input_step i w1 = (r, w2) ->
     mode w2 = Some Still -> mode w1 <> Some Still ->
     i = IWait RequestComplete /\ mode w1 = Some Viewfinder /\
     takeImage w1 = true /\ takeImage w2 = false /\
     event_loop (pre ++ i :: rest) w = loop rest w2) /\
  (forall pre w w1 f,
     event_loop pre w = (Ret Waiting, w1) ->
     mode w1 = Some Still -> destination w1 = Ret f ->
     exists w2 middle,
       event_loop (pre ++ [IWait RequestComplete]) w = (Ret Waiting, w2) /\
       mode w2 = Some Viewfinder /\ running w2 = true /\
       trace w2 =
         (trace w1
          ++ [ACam CmdStopCamera; ALog 1 "Still capture image received"]
          ++ middle
          ++ [if empty f then ALogError "Cannot save image, no mounted drive!"
              else AJpegSave f (encode_ok (env w1) f)]
          ++ [ACam CmdTeardown; ACam CmdConfigureViewfinder; ACam CmdStartCamera])%list /\
       cam_actions middle = [] /\
       (forall name ok, ~ In (AJpegSave name ok) middle)) /\
  (forall pre rest w w1 e,
     event_loop pre w = (Ret Waiting, w1) ->
     mode w1 = Some Still -> destination w1 = Throw e ->
     exists w2,
       event_loop (pre ++ IWait RequestComplete :: rest) w = (Throw e, w2) /\
       mode w2 = Some Still /\ running w2 = false /\
       trace w2 = (trace w1 ++ [ACam CmdStopCamera;
                                ALog 1 "Still capture image received"])%list) /\
  (forall w volume what,
     get_mount_location w = (Ret volume, w) -> volume <> "" ->
     dir_exists (volume ++ "/micropiscope") w = false ->
     mkdir_outcome (env w) (volume ++ "/micropiscope") = MkdirError what \/
     mkdir_outcome (env w) (volume ++ "/micropiscope") = StatusError what ->
     destination w = Throw (filesystem_error what)).
Proof.
  split; [|split; [|split; [|split; [|split; [|split]]]]].
  - intros w. destruct (event_loop_start [] w) as (w0 & Hrun & _ & Hw0).
    exists w0. split; [exact Hrun|]. subst w0. auto.
  - intros inputs w.
    destruct (event_loop_start inputs w) as (w0 & -> & Hin & _).
    apply loop_alternates. exact Hin.
  - intros pre w w1 Hpre Hm Ht.
    destruct (loop_body_capture w1 Hm Ht)
      as (w2 & Hrun & Hm' & Hr' & Ht' & _ & _ & _ & Htr).
    exists w2.
    split.
    { rewrite (event_loop_app pre _ w w1 Hpre).
      cbn [loop input_step]. unfold bind. rewrite Hrun. reflexivity. }
    auto.
  - intros pre i rest w w1 r w2 Hpre Hstep Hafter Hbefore.
    destruct (enters_still i w1 r w2 Hstep Hafter Hbefore) as (Hi & Hm & Ht & Ht' & Hr).
    split; [exact Hi|]. split; [exact Hm|]. split; [exact Ht|]. split; [exact Ht'|].
    rewrite (event_loop_app pre (i :: rest) w w1 Hpre).
    cbn [loop]. unfold bind. rewrite Hstep, Hr. reflexivity.
  - intros pre w w1 f Hpre Hm Hd.
    destruct (loop_body_still w1 f Hm Hd)
      as (w2 & middle & Hrun & Hm' & Hr & _ & _ & _ & Htr & Hcam & Hjpg & _).
    exists w2, middle.
    split.
    { rewrite (event_loop_app pre _ w w1 Hpre).
      cbn [loop input_step]. unfold bind. rewrite Hrun. reflexivity. }
    auto 10.
  - intros pre rest w w1 e Hpre Hm Hd.
    destruct (loop_body_still_throws w1 e Hm Hd) as (w2 & Hrun & Hm' & Hr & Htr).
    exists w2.
    split.
    { rewrite (event_loop_app pre _ w w1 Hpre).
      cbn [loop input_step]. unfold bind. rewrite Hrun. reflexivity. }
    auto.
  - apply destination_throws.
Qed.

(** The failing part on the read-only volume: Menu is pressed, the first
    frame enters Still, the second leaves the loop by the exception. *)
Lemma mode_alternation_witness :
  exists w2,
    event_loop capture_frames (boot readonly_env)
    = (Throw (filesystem_error "filesystem error: cannot create directory: Read-only file system [/media/usb/micropiscope]"),
       w2) /\
    mode w2 = Some Still /\ running w2 = false.
Proof.
  assert (Hpre : event_loop [IEdge KEY_MENU PI_LOW 1000000; IWait RequestComplete]
                   (boot readonly_env)
                 = (Ret Waiting,
                    snd (event_loop [IEdge KEY_MENU PI_LOW 1000000; IWait RequestComplete]
                           (boot readonly_env))))
    by (vm_compute; reflexivity).
  assert (Hm : mode (snd (event_loop [IEdge KEY_MENU PI_LOW 1000000; IWait RequestComplete]
                            (boot readonly_env))) = Some Still)
    by (vm_compute; reflexivity).
  assert (Hd : destination
                 (snd (event_loop [IEdge KEY_MENU PI_LOW 1000000; IWait RequestComplete]
                         (boot readonly_env)))
               = Throw (filesystem_error "filesystem error: cannot create directory: Read-only file system [/media/usb/micropiscope]"))
    by (vm_compute; reflexivity).
  destruct (proj1 (proj2 (proj2 (proj2 (proj2 (proj2 mode_alternation)))))
              [IEdge KEY_MENU PI_LOW 1000000; IWait RequestComplete]
              [IWait RequestComplete]
              (boot readonly_env) _ _ Hpre Hm Hd)
    as (w2 & Hrun & Hm2 & Hr2 & _).
  exists w2.
  change capture_frames
    with ([IEdge KEY_MENU PI_LOW 1000000; IWait RequestComplete]
          ++ IWait RequestComplete :: [IWait RequestComplete])%list.
  split; [exact Hrun|]. split; [exact Hm2|exact Hr2].
Defined.

(** The session in full: the first capture is saved, the second finds no
    volume and is discarded, and both return to the viewfinder. *)
Example session_trace :
  event_loop session (boot (calm_env (Some mounts_usb))) =
  (Ret Returned,
   mk_World (calm_env (Some mounts_none)) 0 "" ["/media/usb/micropiscope"]
     false false None (Some Viewfinder) true
     [ACam CmdOpenCamera; ACam CmdConfigureViewfinder; ACam CmdStartCamera;
      ACam CmdShowPreview;
      ALog 1 "KEY MENU";
      ACam CmdStopCamera; ACam CmdTeardown; ACam CmdConfigureStill; ACam CmdStartCamera;
      ACam CmdStopCamera; ALog 1 "Still capture image received";
      ACreateDirectory "/media/usb/micropiscope";
      AStdout "Saving image at /media/usb/micropiscope/2024-01-02-03-04-05.jpg";
      AJpegSave "/media/usb/micropiscope/2024-01-02-03-04-05.jpg" true;
      ACam CmdTeardown; ACam CmdConfigureViewfinder; ACam CmdStartCamera;
      ALogError "ERROR: Device timeout detected, attempting a restart!!!";
      ACam CmdStopCamera; ACam CmdStartCamera;
      ALog 1 "KEY MENU";
      ACam CmdStopCamera; ACam CmdTeardown; ACam CmdConfigureStill; ACam CmdStartCamera;
      ACam CmdStopCamera; ALog 1 "Still capture image received";
      ALogError "Cannot save image, no mounted drive!";
      ACam CmdTeardown; ACam CmdConfigureViewfinder; ACam CmdStartCamera;
      ACam CmdShowPreview]).
Proof. vm_compute. reflexivity. Qed.



(** ** Storage failures *)

(** No volume mounted: the Still frame reports, discards the frame and
    the loop goes on in Viewfinder mode. *)
Lemma no_volume_handled_locally w :
  mode w = Some Still -> destination w = Ret "" ->
  exists w',
    loop_body RequestComplete w = (Ret Continue, w') /\
    mode w' = Some Viewfinder /\ running w' = true /\
    In (ALogError "Cannot save image, no mounted drive!") (trace w').
Proof.
  intros Hm Hd.
  destruct (loop_body_still w "" Hm Hd)
    as (w' & middle & Hrun & Hm' & Hr & _ & _ & _ & Htr & _).
  exists w'. split; [exact Hrun|]. split; [exact Hm'|]. split; [exact Hr|].
  rewrite Htr. apply in_or_app. right. apply in_or_app. right.
  apply in_or_app. right. left. reflexivity.
Qed.

(** C5 fails on the code.  The volume is mounted but the subdirectory
    cannot be created: [create_directory] throws, the exception leaves
    [generate_filename] and [event_loop], [main] reports it and returns
    -1 with the camera left stopped in Still mode; the frame that
    follows is never looked at. *)
Theorem creation_failure_ends_process :
  main capture_frames (boot readonly_env) =
  (Ret (Some (-1)),
   mk_World readonly_env 0 "" [] false false None (Some Still) false
     [AGpioSetup KEY_UP; AGpioSetup KEY_DOWN; AGpioSetup KEY_LEFT;
      AGpioSetup KEY_RIGHT; AGpioSetup KEY_MENU; AGpioSetup KEY_POWER;
      ACam CmdOpenCamera; ACam CmdConfigureViewfinder; ACam CmdStartCamera;
      ALog 1 "KEY MENU";
      ACam CmdStopCamera; ACam CmdTeardown; ACam CmdConfigureStill; ACam CmdStartCamera;
      ACam CmdStopCamera; ALog 1 "Still capture image received";
      ALogError "ERROR: *** filesystem error: cannot create directory: Read-only file system [/media/usb/micropiscope] ***"]).
Proof. vm_compute. reflexivity. Qed.

(** The same input with a creatable subdirectory: the process is still
    running after the three frames. *)
Example creation_success_goes_on :
  fst (main capture_frames (boot (calm_env (Some mounts_usb)))) = Ret None.
Proof. vm_compute. reflexivity. Qed.

(** * Further properties of the code *)

(** ** Filename Generator: outcomes and successive captures *)

Lemma path_nonempty volume name :
  empty ((volume ++ "/micropiscope") ++ "/" ++ name) = false.
Proof. rewrite append_assoc. apply append_nonempty. discriminate. Qed.

(** X1.  The three outcomes of [generate_filename] (lines 104-120), for
    the volume the locator returns.  It yields "no destination" exactly
    when no volume is found, or when the subdirectory is absent and
    [create_directory] reports that it created nothing; it throws
    [filesystem_error] exactly when a volume is found, the subdirectory
    is absent and the file system fails on it, at the status query of
    [is_directory] or at the creation.  In both cases nothing is
    created, printed or changed. *)
Theorem generate_filename_outcomes (w : World) (volume : string) :
  get_mount_location w = (Ret volume, w) ->
  (generate_filename w = (Ret "", w) <->
   volume = "" \/
   (dir_exists (volume ++ "/micropiscope") w = false /\
    mkdir_outcome (env w) (volume ++ "/micropiscope") = MkdirExists)) /\
  (forall what,
     generate_filename w = (Throw (filesystem_error what), w) <->
     volume <> "" /\
     dir_exists (volume ++ "/micropiscope") w = false /\
     (mkdir_outcome (env w) (volume ++ "/micropiscope") = MkdirError what \/
      mkdir_outcome (env w) (volume ++ "/micropiscope") = StatusError what)) /\
  (forall f w', generate_filename w = (Ret f, w') -> f = "" -> w' = w) /\
  (forall e w', generate_filename w = (Throw e, w') -> w' = w).
Proof.
  intros Hloc. rewrite (generate_filename_run w volume Hloc).
  unfold empty. cbv zeta.
  destruct (String.eqb_spec volume "") as [Hv|Hv].
  { subst volume. split; [|split; [|split]].
    - split; auto.
    - intros what. split; [discriminate|]. intros [H _]. congruence.
    - intros f w' H _. inversion H. reflexivity.
    - discriminate. }
  pose proof (path_nonempty volume
                (snprintf_jpg 128 (strftime 32 "%Y-%m-%d-%H-%M-%S" (wall_clock (env w)))))
    as Hpath.
  rewrite <- append_assoc in Hpath.
  assert (Hnot : forall s, empty s = false -> s <> "").
  { intros s H. unfold empty in H. apply String.eqb_neq. exact H. }
  apply Hnot in Hpath.
  destruct (dir_exists (volume ++ "/micropiscope") w) eqn:Hdir.
  { split; [|split; [|split]].
    - split.
      + intros H. inversion H. congruence.
      + intros [H|[H _]]; [congruence|discriminate].
    - intros what. split; [discriminate|]. intros (_ & H & _). discriminate.
    - intros f w' H Hf. inversion H. congruence.
    - discriminate. }
  destruct (mkdir_outcome (env w) (volume ++ "/micropiscope")) as [| |what'|what'] eqn:Hmk.
  - split; [|split; [|split]].
    + split.
      * intros H. inversion H. congruence.
      * intros [H|[_ H]]; [congruence|discriminate].
    + intros what. split; [discriminate|]. intros (_ & _ & [H|H]); discriminate.
    + intros f w' H Hf. inversion H. congruence.
    + discriminate.
  - split; [|split; [|split]].
    + split; auto.
    + intros what. split; [discriminate|]. intros (_ & _ & [H|H]); discriminate.
    + intros f w' H _. inversion H. reflexivity.
    + discriminate.
  - split; [|split; [|split]].
    + split; [discriminate|]. intros [H|[_ H]]; [congruence|discriminate].
    + intros what. split.
      * intros H. inversion H. auto.
      * intros (_ & _ & [H|H]); inversion H. reflexivity.
    + discriminate.
    + intros e w' H. inversion H. reflexivity.
  - split; [|split; [|split]].
    + split; [discriminate|]. intros [H|[_ H]]; [congruence|discriminate].
    + intros what. split.
      * intros H. inversion H. auto.
      * intros (_ & _ & [H|H]); inversion H. reflexivity.
    + discriminate.
    + intros e w' H. inversion H. reflexivity.
Qed.

Lemma generate_filename_outcomes_witness :
  generate_filename (boot absent_env) = (Ret "", boot absent_env) <->
  "" = "" \/
  (dir_exists ("" ++ "/micropiscope") (boot absent_env) = false /\
   mkdir_outcome (env (boot absent_env)) ("" ++ "/micropiscope") = MkdirExists).
Proof.
  exact (proj1 (generate_filename_outcomes (boot absent_env) "" eq_refl)).
Defined.

(** X2.  A capture that follows a successful one while the wall clock
    shows the same second gets the same destination: the second image
    overwrites the first.  The second call finds the subdirectory and
    creates nothing. *)
Theorem generate_filename_same_second (w w1 : World) (path : string) :
  generate_filename w = (Ret path, w1) ->
  path <> "" ->
  generate_filename w1
  = (Ret path, set_trace (trace w1 ++ [AStdout ("Saving image at " ++ path)])%list w1).
Proof.
  intros Hrun Hne.
  destruct (get_mount_location_run w) as [volume Hloc].
  rewrite (generate_filename_run w volume Hloc) in Hrun.
  assert (Hcase : env w1 = env w /\ dir_exists (volume ++ "/micropiscope") w1 = true /\
                  empty volume = false /\
                  path = (volume ++ "/micropiscope") ++ "/"
                         ++ snprintf_jpg 128
                              (strftime 32 "%Y-%m-%d-%H-%M-%S" (wall_clock (env w)))).
  { destruct (empty volume); [inversion Hrun; congruence|].
    cbv zeta in Hrun. rewrite append_assoc in Hrun.
    destruct (dir_exists (volume ++ "/micropiscope") w) eqn:Hdir.
    - inversion Hrun. subst. auto.
    - destruct (mkdir_outcome (env w) (volume ++ "/micropiscope")) eqn:Hmk.
      + inversion Hrun. subst. split; [reflexivity|]. split; [|auto].
        apply (dir_exists_created _ w); [exact Hmk|reflexivity|reflexivity].
      + inversion Hrun. congruence.
      + discriminate.
      + discriminate. }
  destruct Hcase as (Henv & Hdir & Hvol & Hpath).
  rewrite (generate_filename_run w1 volume (get_mount_location_env _ _ _ Hloc w1 Henv)).
  rewrite Hvol. cbv zeta. rewrite Hdir, Henv, append_assoc, <- Hpath. reflexivity.
Qed.

Lemma generate_filename_same_second_witness :
  generate_filename (snd (generate_filename (boot (calm_env (Some mounts_usb)))))
  = (Ret "/media/usb/micropiscope/2024-01-02-03-04-05.jpg",
     set_trace
       (trace (snd (generate_filename (boot (calm_env (Some mounts_usb)))))
        ++ [AStdout ("Saving image at "
                     ++ "/media/usb/micropiscope/2024-01-02-03-04-05.jpg")])%list
       (snd (generate_filename (boot (calm_env (Some mounts_usb)))))).
Proof.
  assert (Hne : "/media/usb/micropiscope/2024-01-02-03-04-05.jpg" <> "") by discriminate.
  exact (generate_filename_same_second
           (boot (calm_env (Some mounts_usb)))
           (snd (generate_filename (boot (calm_env (Some mounts_usb)))))
           "/media/usb/micropiscope/2024-01-02-03-04-05.jpg" eq_refl Hne).
Defined.

Ltac divlia := Z.to_euclidean_division_equations; lia.

Lemma digit_inj a b : 0 <= a <= 9 -> 0 <= b <= 9 -> digit a = digit b -> a = b.
Proof.
  intros Ha Hb H. unfold digit in H.
  apply (f_equal nat_of_ascii) in H.
  rewrite !nat_ascii_embedding in H by lia. lia.
Qed.

Lemma two_digits_inj n m :
  0 <= n <= 99 -> 0 <= m <= 99 -> two_digits n = two_digits m -> n = m.
Proof.
  intros Hn Hm H. unfold two_digits in H. inversion H as [[H1 H2]].
  assert (E1 : n / 10 = m / 10)
    by (apply digit_inj; [divlia|divlia|exact H1]).
  assert (E2 : n mod 10 = m mod 10)
    by (apply digit_inj; [divlia|divlia|exact H2]).
  divlia.
Qed.

Lemma four_digits_inj n m :
  1000 <= n <= 9999 -> 1000 <= m <= 9999 -> four_digits n = four_digits m -> n = m.
Proof.
  intros Hn Hm H. unfold four_digits in H.
  injection H as H1 H2 H3.
  assert (E1 : n / 1000 = m / 1000)
    by (apply digit_inj; [divlia|divlia|exact H1]).
  assert (E2 : n / 100 mod 10 = m / 100 mod 10)
    by (apply digit_inj; [divlia|divlia|exact H2]).
  assert (E3 : n mod 100 = m mod 100)
    by (apply two_digits_inj; [divlia|divlia|unfold two_digits; congruence]).
  divlia.
Qed.

(** X3.  Captures taken in different seconds never share a file name:
    on wall-clock readings in years of four digits the name
    [YYYY-MM-DD-HH-MM-SS.jpg] determines every field of the reading, and
    so does the path the generator returns. *)
Theorem timestamp_names_distinct (w1 w2 : World) (volume : string) (p1 p2 : string) (w1' w2' : World) :
  calendar_time (wall_clock (env w1)) ->
  calendar_time (wall_clock (env w2)) ->
  get_mount_location w1 = (Ret volume, w1) ->
  get_mount_location w2 = (Ret volume, w2) ->
  generate_filename w1 = (Ret p1, w1') -> p1 <> "" ->
  generate_filename w2 = (Ret p2, w2') -> p2 <> "" ->
  p1 = p2 ->
  wall_clock (env w1) = wall_clock (env w2).
Proof.
  intros Ht1 Ht2 Hl1 Hl2 Hg1 Hn1 Hg2 Hn2 Heq.
  assert (Hpath : forall w p w',
            get_mount_location w = (Ret volume, w) ->
            calendar_time (wall_clock (env w)) ->
            generate_filename w = (Ret p, w') -> p <> "" ->
            p = (volume ++ "/micropiscope/") ++ timestamp_jpg (wall_clock (env w))).
  { intros w p w' Hl Ht Hg Hn.
    rewrite (generate_filename_run w volume Hl) in Hg.
    destruct (empty volume); [inversion Hg; congruence|].
    cbv zeta in Hg. rewrite (strftime_calendar _ Ht) in Hg.
    assert (E : (volume ++ "/micropiscope") ++ "/" = volume ++ "/micropiscope/").
    { rewrite append_assoc. reflexivity. }
    rewrite E in Hg.
    destruct (dir_exists _ w); [inversion Hg; reflexivity|].
    destruct (mkdir_outcome (env w) _); inversion Hg; [reflexivity|congruence]. }
  rewrite (Hpath _ _ _ Hl1 Ht1 Hg1 Hn1) in Heq.
  rewrite (Hpath _ _ _ Hl2 Ht2 Hg2 Hn2) in Heq.
  assert (Hcancel : forall a b c : string, a ++ b = a ++ c -> b = c).
  { induction a as [|x a IH]; intros b c H; cbn [append] in H; [exact H|].
    inversion H. auto. }
  apply Hcancel in Heq.
  destruct Ht1 as (Hy1 & Hmo1 & Hd1 & Hh1 & Hmi1 & Hs1).
  destruct Ht2 as (Hy2 & Hmo2 & Hd2 & Hh2 & Hmi2 & Hs2).
  destruct (wall_clock (env w1)) as [s1 mi1 h1 d1 mo1 y1].
  destruct (wall_clock (env w2)) as [s2 mi2 h2 d2 mo2 y2].
  cbn [tm_sec tm_min tm_hour tm_mday tm_mon tm_year] in *.
  unfold timestamp_jpg in Heq.
  cbn [tm_sec tm_min tm_hour tm_mday tm_mon tm_year] in Heq.
  unfold four_digits, two_digits in Heq. cbn [append] in Heq.
  injection Heq as Y1 Y2 Y3 Y4 M1 M2 D1 D2 H1 H2 I1 I2 S1 S2.
  assert (Hy : y1 + 1900 = y2 + 1900).
  { apply four_digits_inj; [lia|lia|]. unfold four_digits, two_digits. congruence. }
  assert (Hmo : mo1 + 1 = mo2 + 1).
  { apply two_digits_inj; [lia|lia|]. unfold two_digits. congruence. }
  assert (Hd : d1 = d2).
  { apply two_digits_inj; [lia|lia|]. unfold two_digits. congruence. }
  assert (Hh : h1 = h2).
  { apply two_digits_inj; [lia|lia|]. unfold two_digits. congruence. }
  assert (Hmi : mi1 = mi2).
  { apply two_digits_inj; [lia|lia|]. unfold two_digits. congruence. }
  assert (Hs : s1 = s2).
  { apply two_digits_inj; [lia|lia|]. unfold two_digits. congruence. }
  f_equal; lia.
Qed.

Lemma timestamp_names_distinct_witness :
  wall_clock (env (boot (calm_env (Some mounts_usb))))
  = wall_clock (env (boot (calm_env (Some mounts_usb)))).
Proof.
  assert (Ht : calendar_time (wall_clock (env (boot (calm_env (Some mounts_usb)))))).
  { unfold calendar_time. cbn. lia. }
  assert (Hne : "/media/usb/micropiscope/2024-01-02-03-04-05.jpg" <> "") by discriminate.
  exact (timestamp_names_distinct
           (boot (calm_env (Some mounts_usb))) (boot (calm_env (Some mounts_usb)))
           "/media/usb"
           "/media/usb/micropiscope/2024-01-02-03-04-05.jpg"
           "/media/usb/micropiscope/2024-01-02-03-04-05.jpg"
           (snd (generate_filename (boot (calm_env (Some mounts_usb)))))
           (snd (generate_filename (boot (calm_env (Some mounts_usb)))))
           Ht Ht eq_refl eq_refl eq_refl Hne eq_refl Hne eq_refl).
Defined.

(** ** Storage Locator: reading the table, short records *)

Lemma getlines_line : forall l rest,
  no_newline l = true ->
  getlines (l ++ String "010" rest) = l :: getlines rest.
Proof.
  induction l as [|c l IH]; intros rest H.
  - reflexivity.
  - cbn [no_newline] in H. apply andb_true_iff in H. destruct H as [Hc Hl].
    apply negb_true_iff in Hc. cbn [append getlines]. rewrite Hc, (IH rest Hl).
    reflexivity.
Qed.

Lemma getlines_last : forall l,
  no_newline l = true -> l <> EmptyString -> getlines l = [l].
Proof.
  induction l as [|c l IH]; intros H Hne; [congruence|].
  cbn [no_newline] in H. apply andb_true_iff in H. destruct H as [Hc Hl].
  apply negb_true_iff in Hc. cbn [getlines]. rewrite Hc.
  destruct l as [|d l']; [reflexivity|].
  rewrite (IH Hl) by discriminate. reflexivity.
Qed.

(** X4.  The [getline] loop of the locator reads back exactly the
    records of a table written one per line: lines ended by a newline
    come back as they were, an empty line included, and a last record
    without its newline is not lost. *)
Theorem getlines_unlines (ls : list string) :
  Forall (fun l => no_newline l = true) ls ->
  getlines (unlines ls) = ls /\
  (forall l, no_newline l = true -> l <> EmptyString ->
             getlines (unlines ls ++ l) = (ls ++ [l])%list).
Proof.
  induction 1 as [|l0 ls Hl0 Hls [IH1 IH2]].
  - split; [reflexivity|]. intros l Hl Hne. cbn [unlines append app].
    apply getlines_last; assumption.
  - split.
    + cbn [unlines]. rewrite getlines_line by assumption. rewrite IH1. reflexivity.
    + intros l Hl Hne. cbn [unlines app].
      replace ((l0 ++ String "010" (unlines ls)) ++ l)
        with (l0 ++ String "010" (unlines ls ++ l)).
      * rewrite getlines_line by assumption. rewrite IH2 by assumption. reflexivity.
      * rewrite append_assoc. reflexivity.
Qed.

Lemma getlines_unlines_witness :
  getlines (unlines ["/dev/sda1 /media/usb vfat rw 0 0"; ""; "proc /proc proc rw 0 0"])
  = ["/dev/sda1 /media/usb vfat rw 0 0"; ""; "proc /proc proc rw 0 0"] /\
  (forall l, no_newline l = true -> l <> EmptyString ->
             getlines (unlines ["/dev/sda1 /media/usb vfat rw 0 0"; "";
                                "proc /proc proc rw 0 0"] ++ l)
             = (["/dev/sda1 /media/usb vfat rw 0 0"; ""; "proc /proc proc rw 0 0"]
                ++ [l])%list).
Proof.
  apply (getlines_unlines
           ["/dev/sda1 /media/usb vfat rw 0 0"; ""; "proc /proc proc rw 0 0"]).
  repeat constructor.
Defined.

Lemma index_space_none : forall s n, no_space s = true -> index n " " s = None.
Proof.
  induction s as [|c s IH]; intros n H.
  - destruct n; reflexivity.
  - cbn [no_space] in H. apply andb_true_iff in H. destruct H as [Hc Hs].
    apply negb_true_iff in Hc.
    destruct n; cbn [index].
    + rewrite prefix_space, Ascii.eqb_sym, Hc, (IH 0%nat Hs). reflexivity.
    + rewrite (IH n Hs). reflexivity.
Qed.

Lemma index_space_after : forall a b n,
  index (String.length a + n) " " (a ++ b)
  = option_map (Nat.add (String.length a)) (index n " " b).
Proof.
  induction a as [|x a IH]; intros b n.
  - cbn [String.length append Nat.add]. destruct (index n " " b); reflexivity.
  - cbn [String.length append Nat.add index]. rewrite IH.
    destruct (index n " " b); reflexivity.
Qed.

Lemma substring_full : forall s, substring 0 (String.length s) s = s.
Proof. induction s as [|c s IH]; cbn; [reflexivity|]. rewrite IH. reflexivity. Qed.

(** X5.  Records shorter than three fields (lines 57-60).  [substr] is
    never asked for a position past the end.  From a line without any
    space the locator takes the whole line, because [npos + 1] wraps to
    0; from a line with a single space it takes everything after the
    space. *)
Theorem mount_field_short_records :
  (forall line, exists m, mount_field line = Ret m) /\
  (forall line,
     no_space line = true -> size line < npos ->
     mount_field line = Ret line) /\
  (forall a b,
     no_space a = true -> no_space b = true ->
     size (a ++ " " ++ b) < npos ->
     mount_field (a ++ " " ++ b) = Ret b).
Proof.
  split; [exact mount_field_total|]. split.
  - intros line Hns Hsz. unfold mount_field.
    assert (E : forall pos, 0 <= pos -> find line " " pos = npos).
    { intros pos Hpos. unfold find. destruct (size line <? pos); [reflexivity|].
      rewrite index_space_none by assumption. reflexivity. }
    rewrite (E 0) by lia.
    change (size_add npos 1) with 0. rewrite (E 0) by lia.
    change (size_sub (size_sub npos npos) 1) with npos.
    unfold substr. destruct (size line <? 0) eqn:E0.
    { apply Z.ltb_lt in E0. unfold size in E0. lia. }
    rewrite Z.min_r by lia. rewrite Z.sub_0_r. unfold size. rewrite Nat2Z.id.
    change (Z.to_nat 0) with 0%nat. rewrite substring_full. reflexivity.
  - intros a b Ha Hb Hsz.
    unfold size in Hsz. rewrite !length_append in Hsz. cbn [String.length] in Hsz.
    unfold npos in Hsz. assert (Hmod : 0 < size_mod) by reflexivity.
    unfold mount_field.
    assert (E1 : find (a ++ " " ++ b) " " 0 = Z.of_nat (String.length a)).
    { unfold find. destruct (_ <? 0) eqn:E.
      { apply Z.ltb_lt in E. unfold size in E. lia. }
      change (Z.to_nat 0) with 0%nat. cbn [append].
      rewrite index_space_first by assumption. reflexivity. }
    rewrite E1.
    assert (E2 : size_add (Z.of_nat (String.length a)) 1 = Z.of_nat (String.length a + 1)).
    { unfold size_add. rewrite Z.mod_small by lia. lia. }
    rewrite E2.
    assert (E3 : find (a ++ " " ++ b) " " (Z.of_nat (String.length a + 1)) = npos).
    { unfold find. destruct (_ <? _); [reflexivity|].
      rewrite Nat2Z.id, index_space_after. cbn [append index].
      rewrite index_space_none by assumption. reflexivity. }
    rewrite E3.
    assert (E4 : size_sub (size_sub npos (Z.of_nat (String.length a))) 1
                 = npos - Z.of_nat (String.length a) - 1).
    { unfold size_sub, npos. rewrite (Z.mod_small (size_mod - 1 - _)) by lia.
      rewrite Z.mod_small by lia. reflexivity. }
    rewrite E4.
    unfold substr, size. rewrite !length_append. cbn [String.length].
    destruct (_ <? _) eqn:E.
    { apply Z.ltb_lt in E. lia. }
    rewrite Z.min_r by (unfold npos; lia).
    replace (Z.of_nat (String.length a + (1 + String.length b))
             - Z.of_nat (String.length a + 1)) with (Z.of_nat (String.length b)) by lia.
    rewrite !Nat2Z.id.
    replace (String.length a + 1)%nat with (String.length (a ++ " ")).
    2:{ rewrite length_append. reflexivity. }
    rewrite <- append_assoc, substring_skip, substring_full. reflexivity.
Qed.

Lemma mount_field_short_records_witness :
  mount_field "/media/usb" = Ret "/media/usb" /\
  mount_field "/dev/sda1 /media/usb" = Ret "/media/usb".
Proof.
  split.
  - apply (proj1 (proj2 mount_field_short_records) "/media/usb").
    + reflexivity.
    + vm_compute. reflexivity.
  - apply (proj2 (proj2 mount_field_short_records) "/dev/sda1" "/media/usb").
    + reflexivity.
    + reflexivity.
    + vm_compute. reflexivity.
Defined.

(** ** Storage Unmount Manager: how often *)

Lemma normal_attempts_app tr tr' :
  normal_attempts (tr ++ tr') = (normal_attempts tr + normal_attempts tr')%nat.
Proof. unfold normal_attempts. rewrite filter_app, length_app. reflexivity. Qed.

Lemma forced_attempts_app tr tr' :
  forced_attempts (tr ++ tr') = (forced_attempts tr + forced_attempts tr')%nat.
Proof. unfold forced_attempts. rewrite filter_app, length_app. reflexivity. Qed.

(** Counting the attempts of a literal piece of trace. *)
Ltac count_one :=
  cbv beta iota delta
    [normal_attempts forced_attempts filter is_normal_attempt
     is_forced_attempt List.length app retry_block forced_block].

Lemma retry_block_counts path f :
  normal_attempts (retry_block path f) = 1%nat /\
  forced_attempts (retry_block path f) = 0%nat.
Proof. count_one. split; reflexivity. Qed.

Lemma forced_block_counts e path t err :
  normal_attempts (forced_block e path t err) = 0%nat /\
  forced_attempts (forced_block e path t err) = 1%nat.
Proof.
  unfold forced_block. destruct (umount2_at e path t); count_one; split; reflexivity.
Qed.

(** The loop makes at most one forced attempt, whatever the clock does
    and however the run ends. *)
Lemma umount_loop_forced : forall fuel path start w,
  exists r w' tr,
    umount_loop fuel path start w = (r, w') /\
    trace w' = (trace w ++ tr)%list /\
    (forced_attempts tr <= 1)%nat /\
    (r = OutOfFuel -> forced_attempts tr = 0%nat).
Proof.
  induction fuel as [|fuel IH]; intros path start w.
  - exists OutOfFuel, w, []. rewrite app_nil_r.
    split; [reflexivity|]. split; [reflexivity|]. split; [cbn; lia|reflexivity].
  - destruct (umount_at (env w) path (clock w)) as [e|] eqn:Eu.
    + rewrite (umount_loop_failed fuel path start w e Eu).
      set (w1 := failed_attempt path e w).
      assert (Htrace : trace w1 = (trace w ++ retry_block path (clock w, e))%list)
        by reflexivity.
      destruct (retry_block_counts path (clock w, e)) as [_ Hrf].
      destruct (clock w1 - start >? UMOUNT_TIMEOUT_NS).
      * destruct (forced_attempt_run path w1) as (w' & Hrun & Htr & _ & _).
        destruct (forced_block_counts (env w1) path (clock w1) (errno w1)) as [_ Hff].
        eexists. exists w'. eexists.
        split; [exact Hrun|].
        split; [rewrite Htr, Htrace, <- app_assoc; reflexivity|].
        rewrite forced_attempts_app, Hrf, Hff. split; [lia|discriminate].
      * destruct (IH path start w1) as (r & w' & tr & Hrun & Htr & Hle & Hout).
        exists r, w', (retry_block path (clock w, e) ++ tr)%list.
        split; [exact Hrun|].
        split; [rewrite Htr, Htrace, <- app_assoc; reflexivity|].
        rewrite forced_attempts_app, Hrf. split; [lia|].
        intros Hr. rewrite (Hout Hr). reflexivity.
    + rewrite umount_loop_succeeded by assumption.
      eexists. eexists. exists [AUmount path (clock w) None].
      split; [reflexivity|]. wsimpl. split; [reflexivity|].
      count_one. split; [lia|discriminate].
Qed.

(** What a completed run of the policy counts: one forced attempt at
    most; and on a steady clock one normal attempt per second of the
    timeout that is left, and one more. *)
Lemma unmount_policy_counts e path start :
  forall t tr,
    unmount_policy e path start t tr ->
    (forced_attempts tr <= 1)%nat /\
    (steady_clock e -> t - start <= UMOUNT_TIMEOUT_NS ->
     Z.of_nat (normal_attempts tr) * ms 1000
     <= UMOUNT_TIMEOUT_NS - (t - start) + ms 1000).
Proof.
  induction 1 as [t Hu|t err rest Hu Hle Hrest [IHf IHn]|t err Hu Hgt].
  - count_one. split; [lia|]. intros _ Hin.
    unfold ms, UMOUNT_TIMEOUT_NS, UMOUNT_TIMEOUT_S in *. lia.
  - destruct (retry_block_counts path (t, err)) as [Hrn Hrf].
    rewrite forced_attempts_app, normal_attempts_app, Hrn, Hrf.
    split; [lia|]. intros Hs Hin.
    specialize (IHn Hs Hle).
    pose proof (steady_after_retry e t Hs).
    unfold ms, UMOUNT_TIMEOUT_NS, UMOUNT_TIMEOUT_S in *. lia.
  - destruct (retry_block_counts path (t, err)) as [Hrn Hrf].
    destruct (forced_block_counts e path (after_retry e t) err) as [Hfn Hff].
    rewrite forced_attempts_app, normal_attempts_app, Hrn, Hrf, Hfn, Hff.
    split; [lia|]. intros _ Hin.
    unfold ms, UMOUNT_TIMEOUT_NS, UMOUNT_TIMEOUT_S in *. lia.
Qed.

(** When no round lets the clock advance, every round goes round. *)
Lemma stalled_clock_goes_round e path start :
  (forall t, exists err, umount_at e path t = Some err) ->
  (forall t, after_retry e t <= t) ->
  forall k t, t <= start -> goes_round e path start t k.
Proof.
  intros Hfail Hstall. induction k as [|k IH]; intros t Ht.
  - split; [apply Hfail|]. cbn [round_reading].
    specialize (Hstall t). unfold UMOUNT_TIMEOUT_NS, UMOUNT_TIMEOUT_S. lia.
  - apply (proj2 (goes_round_next e path start t k)). apply IH.
    specialize (Hstall t). lia.
Qed.

(** X6.  How often [unmount_drive] tries.  Whatever the clock does and
    however the call ends, it makes at most one forced attempt.  On a
    clock that is not set back it returns after at most six normal
    attempts.  Without that there is no bound: when [umount] keeps
    failing and the clock is set back by what each round takes, the loop
    is still going round after any number of rounds. *)
Theorem unmount_attempts_bounded (w : World) :
  exists r w' new,
    unmount_drive w = (r, w') /\
    trace w' = (trace w ++ new)%list /\
    (forced_attempts new <= 1)%nat /\
    (steady_clock (env w) -> (6 <= umount_rounds (env w))%nat ->
     r = Ret tt /\ (normal_attempts new <= 6)%nat) /\
    ((forall path t, exists err, umount_at (env w) path t = Some err) ->
     (forall t, after_retry (env w) t <= t) ->
     r = OutOfFuel).
Proof.
  destruct (unmount_drive_run w)
    as (path & r & w' & tr & Hpath & Hrun & Htr & _ & Hr & Hpol & Hfuel & _).
  set (report := (if empty path
                  then [ALogError "ERROR Unmounting drive, cannot find mount location"]
                  else [])) in *.
  exists r, w', (report ++ [ASync] ++ tr)%list.
  split; [exact Hrun|]. split; [exact Htr|].
  assert (Hhead_f : forced_attempts (report ++ [ASync] ++ tr) = forced_attempts tr).
  { rewrite !forced_attempts_app. subst report. destruct (empty path); count_one; lia. }
  assert (Hhead_n : normal_attempts (report ++ [ASync] ++ tr) = normal_attempts tr).
  { rewrite !normal_attempts_app. subst report. destruct (empty path); count_one; lia. }
  rewrite Hhead_f, Hhead_n.
  split; [|split].
  - (* the forced attempts, from the loop itself *)
    set (w0 := set_clock (after_call (env w) (clock w))
                 (set_trace (trace w ++ report ++ [ASync])%list w)).
    assert (Hhead : unmount_drive w
                    = umount_loop (umount_rounds (env w)) path
                        (after_call (env w) (clock w)) w0).
    { unfold unmount_drive, unmount_drive_fuel.
      cbv beta iota delta [bind gets].
      rewrite Hpath. cbv iota beta.
      subst w0 report. unfold after_call. destruct (empty path); mrun.
      - rewrite <- !app_assoc. reflexivity.
      - reflexivity. }
    destruct (umount_loop_forced (umount_rounds (env w)) path
                (after_call (env w) (clock w)) w0)
      as (r0 & w0' & tr0 & Hrun0 & Htr0 & Hle & _).
    rewrite Hhead, Hrun0 in Hrun. inversion Hrun. subst r0 w0'.
    rewrite Htr0 in Htr. subst w0. cbn [trace set_trace set_clock] in Htr.
    rewrite <- !app_assoc in Htr.
    apply app_inv_head in Htr. apply app_inv_head in Htr.
    cbn [app] in Htr. inversion Htr. subst tr0. exact Hle.
  - intros Hs Hrounds.
    assert (Hret : r = Ret tt).
    { destruct Hr as [Hr|Hr]; [exact Hr|].
      exfalso. exact (steady_leaves_loop _ _ _ _ Hs Hrounds (proj1 Hfuel Hr)). }
    split; [exact Hret|].
    destruct (unmount_policy_counts _ _ _ _ _ (Hpol Hret)) as [_ Hn].
    specialize (Hn Hs).
    unfold ms, UMOUNT_TIMEOUT_NS, UMOUNT_TIMEOUT_S in Hn. lia.
  - intros Hfail Hstall. apply (proj2 Hfuel). intros k _.
    apply stalled_clock_goes_round; [apply Hfail|exact Hstall|lia].
Qed.

Lemma unmount_attempts_bounded_witness :
  (exists w' new,
     unmount_drive (boot busy_env) = (Ret tt, w') /\
     trace w' = (trace (boot busy_env) ++ new)%list /\
     (normal_attempts new <= 6)%nat /\ (forced_attempts new <= 1)%nat) /\
  fst (unmount_drive (boot rewinding_env)) = OutOfFuel.
Proof.
  split.
  - destruct (unmount_attempts_bounded (boot busy_env))
      as (r & w' & new & Hrun & Htr & Hf & Hsteady & _).
    destruct Hsteady as [Hr Hn];
      [intros t; change (0 <= 0 /\ 0 <= 0); lia|change (6 <= 16)%nat; lia|].
    subst r. exists w', new. auto.
  - destruct (unmount_attempts_bounded (boot rewinding_env))
      as (r & w' & new & Hrun & _ & _ & _ & Hstall).
    rewrite Hrun. cbn [fst]. apply Hstall.
    + intros path t. exists "Device or resource busy". reflexivity.
    + intros t. unfold after_retry, after_call, ms.
      change (call_time (env (boot rewinding_env)) t) with 0.
      change (sleep_jitter (env (boot rewinding_env)) (t + 0)) with (-1000000000).
      lia.
Defined.

(** ** Button Input Classifier: what is ignored, what is independent *)

(** X8.  The callback acts on Power events, on presses of Menu and on
    presses of Down only.  An event on any other line (Up, Left, Right
    or a line that is no key at all), and a release or watchdog report
    on Menu or Down, changes nothing and leaves no trace. *)
Theorem callback_inert (gpio level tick : Z) (w : World) :
  gpio <> KEY_POWER ->
  (gpio <> KEY_MENU /\ gpio <> KEY_DOWN) \/ level <> PI_LOW ->
  _callback gpio level tick w = (Ret tt, w).
Proof.
  intros Hp Hcase. unfold _callback.
  apply Z.eqb_neq in Hp. rewrite Hp.
  destruct Hcase as [[Hm Hd]|Hl].
  - apply Z.eqb_neq in Hm, Hd. rewrite Hm, Hd. reflexivity.
  - apply Z.eqb_neq in Hl. rewrite Hl, !andb_false_r. reflexivity.
Qed.

Lemma callback_inert_witness :
  _callback KEY_UP PI_LOW 1000 (boot (calm_env None)) = (Ret tt, boot (calm_env None)) /\
  _callback KEY_MENU PI_HIGH 1000 (boot (calm_env None)) = (Ret tt, boot (calm_env None)).
Proof.
  split.
  - apply (callback_inert KEY_UP PI_LOW 1000 (boot (calm_env None))).
    + discriminate.
    + left. split; discriminate.
  - apply (callback_inert KEY_MENU PI_HIGH 1000 (boot (calm_env None))).
    + discriminate.
    + right. discriminate.
Defined.

Lemma raise_other f g w :
  f <> g -> pending g (snd (raise f w)) = pending g w.
Proof.
  intros Hfg. destruct f, g; try congruence; cbn [raise pending].
  - unfold _callback.
    change (KEY_MENU =? KEY_POWER) with false.
    change ((KEY_MENU =? KEY_MENU) && (PI_LOW =? PI_LOW)) with true.
    mrun. reflexivity.
  - destruct (callback_power w PI_LOW 0) as (w1 & Hrun1 & _ & _ & Ht1 & _).
    destruct (callback_power w1 PI_HIGH 2000001) as (w2 & Hrun2 & _ & _ & Ht2 & _).
    rewrite (bind_run _ _ _ _ _ Hrun1), Hrun2. cbn [snd]. congruence.
Qed.

Lemma consume_other f g w :
  f <> g -> pending g (snd (consume f w)) = pending g w.
Proof.
  intros Hfg. destruct f, g; try congruence; cbn [consume pending];
    unfold TakeImage, DoShutdown; mrun.
  - destruct (takeImage w); reflexivity.
  - destruct (doShutdown w); reflexivity.
Qed.

(** X9.  The two intents do not interfere: in every interleaving of
    raises and consumptions of one flag the other flag keeps its value,
    so a capture never eats a pending shutdown and a shutdown request
    never cancels or fakes a capture request. *)
Theorem intent_flags_independent (f g : Flag) (ops : list FlagOp) (w : World) :
  f <> g ->
  pending g (snd (interleave f ops w)) = pending g w.
Proof.
  intros Hfg. revert w.
  induction ops as [|op ops IH]; intros w; [reflexivity|].
  destruct op; cbn [interleave].
  - destruct (raise_run f w) as (w1 & Hrun & _).
    rewrite (bind_run _ _ _ _ _ Hrun), IH.
    rewrite <- (raise_other f g w Hfg), Hrun. reflexivity.
  - destruct (consume_run f w) as (w1 & Hrun & _).
    rewrite (bind_run _ _ _ _ _ Hrun).
    destruct (interleave_run f ops w1) as (results & w' & Hrun' & _).
    rewrite (bind_run _ _ _ _ _ Hrun'). cbn [ret snd].
    specialize (IH w1). rewrite Hrun' in IH. cbn [snd] in IH. rewrite IH.
    rewrite <- (consume_other f g w Hfg), Hrun. reflexivity.
Qed.

Lemma intent_flags_independent_witness :
  pending ShutdownRequested
    (snd (interleave CaptureRequested [Raise; Consume; Consume; Raise]
            (mk_World (calm_env None) 0 "" [] true false None None false [])))
  = pending ShutdownRequested
      (mk_World (calm_env None) 0 "" [] true false None None false []).
Proof.
  assert (H : CaptureRequested <> ShutdownRequested) by discriminate.
  exact (intent_flags_independent CaptureRequested ShutdownRequested
           [Raise; Consume; Consume; Raise]
           (mk_World (calm_env None) 0 "" [] true false None None false []) H).
Defined.

(** X10.  Edge cases of the Power line (lines 164-175).  A press never
    raises ShutdownRequested.  Neither does the first Power event the
    process sees, whatever its level, because the static start takes
    its tick.  A report that is neither low nor high raises nothing and
    keeps the start.  But a high report is measured against the start
    that is there: before any press that is the tick of the first Power
    event, so a second high report more than two seconds after a first
    one raises ShutdownRequested although the key was never pressed. *)
Theorem power_edge_cases (w : World) :
  (forall tick, doShutdown (snd (_callback KEY_POWER PI_LOW tick w)) = doShutdown w) /\
  (forall level tick,
     keyPowerTimeStart w = None ->
     doShutdown (snd (_callback KEY_POWER level tick w)) = doShutdown w) /\
  (forall level tick start,
     level <> PI_LOW -> level <> PI_HIGH ->
     keyPowerTimeStart w = Some start ->
     let w' := snd (_callback KEY_POWER level tick w) in
     doShutdown w' = doShutdown w /\ keyPowerTimeStart w' = Some start) /\
  (forall first second,
     keyPowerTimeStart w = None ->
     hold_us first second > KEY_POWER_DOWN_MS * 1000 ->
     doShutdown (snd (deliver KEY_POWER [(PI_HIGH, first); (PI_HIGH, second)] w)) = true).
Proof.
  split; [|split; [|split]].
  - intros tick.
    destruct (callback_power w PI_LOW tick) as (w' & Hrun & _ & Hflag & _).
    rewrite Hrun. cbn [snd]. rewrite Hflag.
    change (PI_LOW =? PI_LOW) with true. cbn [negb andb]. apply orb_false_r.
  - intros level tick Hfresh.
    destruct (callback_power w level tick) as (w' & Hrun & _ & Hflag & _).
    rewrite Hrun. cbn [snd]. rewrite Hflag, Hfresh, Z.sub_diag.
    change (uint32 0 >? 2000 * 1000) with false.
    rewrite andb_false_r. apply orb_false_r.
  - intros level tick start Hl Hh Hs.
    destruct (callback_power w level tick) as (w' & Hrun & Hstart & Hflag & _).
    rewrite Hrun. cbn [snd]. cbv zeta. rewrite Hflag, Hstart, Hs.
    apply Z.eqb_neq in Hl, Hh. rewrite Hl, Hh. cbn [negb andb].
    rewrite orb_false_r. auto.
  - intros first second Hfresh Hlong.
    destruct (callback_power w PI_HIGH first) as (w1 & Hrun1 & Hstart1 & _).
    destruct (callback_power w1 PI_HIGH second) as (w2 & Hrun2 & _ & Hflag2 & _).
    cbn [deliver]. unfold _callbackExt.
    rewrite (bind_run _ _ _ _ _ Hrun1), (bind_run _ _ _ _ _ Hrun2). cbn [ret snd].
    rewrite Hflag2, Hstart1, Hfresh.
    change (PI_HIGH =? PI_LOW) with false. change (PI_HIGH =? PI_HIGH) with true.
    cbn [negb andb]. fold (hold_us first second).
    assert (Hb : (hold_us first second >? 2000 * 1000) = true).
    { apply Z.gtb_lt. change (KEY_POWER_DOWN_MS * 1000) with (2000 * 1000) in Hlong. lia. }
    rewrite Hb. apply orb_true_r.
Qed.

Lemma power_edge_cases_witness :
  doShutdown (snd (deliver KEY_POWER [(PI_HIGH, 1000); (PI_HIGH, 3000000)]
                     (boot (calm_env None)))) = true.
Proof.
  assert (H : hold_us 1000 3000000 > KEY_POWER_DOWN_MS * 1000) by (vm_compute; reflexivity).
  exact (proj2 (proj2 (proj2 (power_edge_cases (boot (calm_env None)))))
           1000 3000000 eq_refl H).
Defined.

(** X11.  The limit of the tick counter: a hold of 2^32 microseconds
    (about 71.6 minutes) plus at most two seconds reaches the callback
    with the same ticks as a hold of at most two seconds, and raises
    nothing. *)
Theorem hold_beyond_counter_range (w : World) (T_press extra : Z) :
  doShutdown w = false ->
  0 <= extra <= KEY_POWER_DOWN_MS * 1000 ->
  doShutdown
    (snd (deliver KEY_POWER
            [(PI_LOW, uint32 T_press); (PI_HIGH, uint32 (T_press + 2 ^ 32 + extra))] w))
  = false.
Proof.
  intros Hclear Hextra.
  destruct (callback_power w PI_LOW (uint32 T_press)) as (w1 & Hrun1 & Hstart1 & Hflag1 & _).
  destruct (callback_power w1 PI_HIGH (uint32 (T_press + 2 ^ 32 + extra)))
    as (w2 & Hrun2 & _ & Hflag2 & _).
  cbn [deliver]. unfold _callbackExt.
  rewrite (bind_run _ _ _ _ _ Hrun1), (bind_run _ _ _ _ _ Hrun2). cbn [ret snd].
  rewrite Hflag2, Hflag1, Hstart1, Hclear.
  change (PI_LOW =? PI_LOW) with true. change (PI_HIGH =? PI_LOW) with false.
  change (PI_HIGH =? PI_HIGH) with true. cbn [negb andb orb].
  assert (Hdur : uint32 (uint32 (T_press + 2 ^ 32 + extra) - uint32 T_press) = extra).
  { unfold uint32. rewrite <- Zminus_mod.
    replace (T_press + 2 ^ 32 + extra - T_press) with (extra + 1 * 2 ^ 32) by lia.
    rewrite Z.mod_add by lia. apply Z.mod_small.
    change (KEY_POWER_DOWN_MS * 1000) with 2000000 in Hextra. lia. }
  rewrite Hdur. change (KEY_POWER_DOWN_MS * 1000) with 2000000 in Hextra.
  destruct (Z.gtb_spec extra (2000 * 1000)); [lia|reflexivity].
Qed.

Lemma hold_beyond_counter_range_witness :
  doShutdown
    (snd (deliver KEY_POWER
            [(PI_LOW, uint32 5000000); (PI_HIGH, uint32 (5000000 + 2 ^ 32 + 1000000))]
            (boot (calm_env None))))
  = false.
Proof.
  assert (H : 0 <= 1000000 <= KEY_POWER_DOWN_MS * 1000) by (cbn; lia).
  exact (hold_beyond_counter_range (boot (calm_env None)) 5000000 1000000 eq_refl H).
Defined.

(** ** Event loop: what one input can do *)

(** [unmount_drive] adds harmless actions only and leaves the
    application alone, whether it returns or is still in its loop. *)
Lemma unmount_drive_summary w :
  exists r w' new,
    unmount_drive w = (r, w') /\
    (r = Ret tt \/ r = OutOfFuel) /\
    trace w' = (trace w ++ new)%list /\
    Forall harmless new /\
    same_app w w'.
Proof.
  destruct (unmount_drive_run w)
    as (path & r & w' & tr & _ & Hrun & Htr & Happ & Hr & _ & _ & Hharm & _).
  exists r, w'. eexists. split; [exact Hrun|]. split; [exact Hr|].
  split; [exact Htr|]. split; [|exact Happ].
  apply Forall_app. split; [destruct (empty path); repeat constructor|].
  apply Forall_app. split; [repeat constructor|exact Hharm].
Qed.

(** An edge on any line: what the callback adds is harmless; only a
    Power event can set [doShutdown], only a Menu press [takeImage];
    and only a press of Down can keep the callback from returning. *)
Lemma callback_summary gpio level tick w :
  exists r w' new,
    _callback gpio level tick w = (r, w') /\
    (r = Ret tt \/ (r = OutOfFuel /\ gpio = KEY_DOWN /\ level = PI_LOW)) /\
    trace w' = (trace w ++ new)%list /\
    Forall harmless new /\
    env w' = env w /\ mode w' = mode w /\ running w' = running w /\
    (doShutdown w' = doShutdown w \/ gpio = KEY_POWER) /\
    (takeImage w' = takeImage w \/ (gpio = KEY_MENU /\ level = PI_LOW)).
Proof.
  destruct (gpio =? KEY_POWER) eqn:Hp.
  { apply Z.eqb_eq in Hp. subst gpio. unfold _callback. rewrite Z.eqb_refl.
    destruct (keyPowerTimeStart w) as [s|] eqn:Hs; mrun; rewrite ?Hs.
    - destruct (level =? PI_LOW); mrun.
      + exists (Ret tt). eexists. exists []. split; [reflexivity|]. wsimpl.
        rewrite app_nil_r. repeat split; auto.
      + destruct ((level =? PI_HIGH) && (uint32 (tick - s) >? 2000 * 1000)); mrun.
        * exists (Ret tt). eexists. eexists. split; [reflexivity|]. wsimpl.
          split; [auto|]. split; [reflexivity|]. split; [repeat constructor|]. auto 10.
        * exists (Ret tt). eexists. exists []. split; [reflexivity|]. wsimpl.
          rewrite app_nil_r. repeat split; auto.
    - destruct (level =? PI_LOW); mrun.
      + exists (Ret tt). eexists. exists []. split; [reflexivity|]. wsimpl.
        rewrite app_nil_r. repeat split; auto.
      + destruct ((level =? PI_HIGH) && (uint32 (tick - tick) >? 2000 * 1000)); mrun.
        * exists (Ret tt). eexists. eexists. split; [reflexivity|]. wsimpl.
          split; [auto|]. split; [reflexivity|]. split; [repeat constructor|]. auto 10.
        * exists (Ret tt). eexists. exists []. split; [reflexivity|]. wsimpl.
          rewrite app_nil_r. repeat split; auto. }
  unfold _callback. rewrite Hp.
  destruct ((gpio =? KEY_MENU) && (level =? PI_LOW)) eqn:Hm.
  { apply andb_true_iff in Hm. destruct Hm as [Hm1 Hm2].
    apply Z.eqb_eq in Hm1, Hm2.
    crun. exists (Ret tt). eexists. eexists. split; [reflexivity|]. wsimpl.
    split; [auto|]. split; [reflexivity|]. split; [repeat constructor|]. auto 10. }
  destruct ((gpio =? KEY_DOWN) && (level =? PI_LOW)) eqn:Hdown.
  - apply andb_true_iff in Hdown. destruct Hdown as [Hd1 Hd2].
    apply Z.eqb_eq in Hd1, Hd2.
    crun.
    set (w0 := set_trace (trace w ++ [ALog 1 "KEY DOWN"])%list w).
    destruct (unmount_drive_summary w0) as (r & w' & new & Hrun & Hr & Htr & Hharm & Happ).
    exists r, w', (ALog 1 "KEY DOWN" :: new). split; [exact Hrun|].
    split; [destruct Hr as [Hr|Hr]; auto|].
    destruct Happ as [Henv Hd Ht _ Hmode Hrn _].
    split; [rewrite Htr; subst w0; wsimpl; rewrite <- app_assoc; reflexivity|].
    split; [constructor; [exact I|exact Hharm]|].
    subst w0. cbn [env mode running doShutdown takeImage set_trace] in *. auto 10.
  - exists (Ret tt), w, []. rewrite app_nil_r. repeat split; auto.
Qed.

Lemma destination_throw_cause w e :
  destination w = Throw e ->
  exists p what,
    (mkdir_outcome (env w) p = MkdirError what \/
     mkdir_outcome (env w) p = StatusError what) /\
    e = filesystem_error what.
Proof.
  unfold destination. destruct (get_mount_location_run w) as [volume Hloc].
  rewrite (generate_filename_run w volume Hloc).
  destruct (empty volume); [discriminate|]. cbv zeta.
  destruct (dir_exists _ w); [discriminate|].
  destruct (mkdir_outcome (env w) (volume ++ "/micropiscope")) eqn:Hmk; try discriminate;
    cbn [fst]; intros H; inversion H; eauto.
Qed.

Lemma no_cam_in middle c : cam_actions middle = [] -> ~ In (ACam c) middle.
Proof.
  induction middle as [|a middle IH]; intros H Hin; [exact Hin|].
  destruct Hin as [-> | Hin].
  - discriminate H.
  - apply IH; [|exact Hin]. destruct a; cbn in H; try exact H. discriminate H.
Qed.

Lemma harmless_in new a : Forall harmless new -> In a new -> harmless a.
Proof. intros H Hin. rewrite Forall_forall in H. exact (H a Hin). Qed.

(** What one input does, case by case, in the terms the properties
    below need. *)
Lemma input_step_summary i w :
  exists r w' new,
    input_step i w = (r, w') /\
    trace w' = (trace w ++ new)%list /\
    (r = OutOfFuel -> exists tick, i = IEdge KEY_DOWN PI_LOW tick) /\
    (forall e, r = Throw e ->
       i = IWait Unrecognised \/
       (mode w = Some Still /\
        exists p what,
          (mkdir_outcome (env w) p = MkdirError what \/
           mkdir_outcome (env w) p = StatusError what) /\
          e = filesystem_error what)) /\
    (r = Ret Return ->
     i = IWait Quit \/
     (In AReboot new /\ i = IWait RequestComplete /\ reboot_ok (env w) = false)) /\
    (r = PoweredOff ->
     In AReboot new /\ i = IWait RequestComplete /\ reboot_ok (env w) = true) /\
    (In AReboot new -> doShutdown w = true /\ (r = Ret Return \/ r = PoweredOff)) /\
    (In (ACam CmdConfigureStill) new -> takeImage w = true /\ mode w = Some Viewfinder) /\
    (forall name ok, In (AJpegSave name ok) new -> mode w = Some Still) /\
    (r = Ret Continue ->
     env w' = match i with IEnv e => e | _ => env w end /\
     (doShutdown w' = true ->
      doShutdown w = true \/ exists level tick, i = IEdge KEY_POWER level tick) /\
     (takeImage w' = true ->
      takeImage w = true \/ exists tick, i = IEdge KEY_MENU PI_LOW tick) /\
     (mode w' = Some Still -> mode w = Some Still \/ takeImage w = true) /\
     (running w = true -> (exists m, mode w = Some m) ->
      running w' = true /\ exists m, mode w' = Some m)).
Proof.
  destruct i as [msg | gpio level tick | e]; cbn [input_step].
  - destruct msg.
    + (* RequestComplete *)
      destruct (mode w) as [[|]|] eqn:Hm.
      * destruct (takeImage w) eqn:Ht.
        -- destruct (loop_body_capture w Hm Ht)
             as (w' & Hrun & Hm' & Hr' & Ht' & Hd' & Henv' & _ & Htr).
           exists (Ret Continue), w'. eexists. split; [exact Hrun|]. split; [exact Htr|].
           split; [discriminate|]. split; [discriminate|]. split; [discriminate|].
           split; [discriminate|].
           split; [intros [H|[H|[H|[H|[]]]]]; discriminate H|].
           split; [auto|].
           split; [intros name ok [H|[H|[H|[H|[]]]]]; discriminate H|].
           intros _. split; [exact Henv'|]. split; [rewrite Hd'; auto|].
           split; [congruence|]. split; [auto|]. eauto.
        -- destruct (doShutdown w) eqn:Hd.
           ++ destruct (loop_body_shutdown w Hm Ht Hd) as (w' & Hrun & _ & _ & _ & Htr).
              assert (Hin : In AReboot [ACam CmdStopCamera; ACam CmdTeardown;
                                        ALog 1 "Shutting down!"; ASync; AReboot])
                by (cbn; auto 10).
              eexists. exists w'. eexists. split; [exact Hrun|]. split; [exact Htr|].
              destruct (reboot_ok (env w)).
              ** split; [discriminate|]. split; [discriminate|]. split; [discriminate|].
                 split; [auto|]. split; [auto|].
                 split; [intros [H|[H|[H|[H|[H|[]]]]]]; discriminate H|].
                 split; [intros name ok [H|[H|[H|[H|[H|[]]]]]]; discriminate H|].
                 discriminate.
              ** split; [discriminate|]. split; [discriminate|].
                 split; [intros _; right; auto|].
                 split; [discriminate|]. split; [auto|].
                 split; [intros [H|[H|[H|[H|[H|[]]]]]]; discriminate H|].
                 split; [intros name ok [H|[H|[H|[H|[H|[]]]]]]; discriminate H|].
                 discriminate.
           ++ rewrite (loop_body_preview w Hm Ht Hd).
              exists (Ret Continue). eexists. eexists. split; [reflexivity|].
              split; [reflexivity|].
              split; [discriminate|]. split; [discriminate|]. split; [discriminate|].
              split; [discriminate|].
              split; [intros [H|[]]; discriminate H|].
              split; [intros [H|[]]; discriminate H|].
              split; [intros name ok [H|[]]; discriminate H|].
              intros _. wsimpl. rewrite Hm, Ht, Hd.
              split; [reflexivity|]. split; [auto|]. split; [auto|].
              split; [discriminate|]. eauto.
      * destruct (destination_returns_or_throws w) as [[f Hdest]|[e Hdest]].
        -- destruct (loop_body_still w f Hm Hdest)
             as (w' & middle & Hrun & Hm' & Hr' & Ht' & Hd' & Henv' & Htr & Hcam & Hjpg & Hrb).
           exists (Ret Continue), w'. eexists. split; [exact Hrun|]. split; [exact Htr|].
           split; [discriminate|]. split; [discriminate|]. split; [discriminate|].
           split; [discriminate|].
           assert (Hx : forall a,
                     In a ([ACam CmdStopCamera; ALog 1 "Still capture image received"]
                           ++ middle
                           ++ [if empty f then ALogError "Cannot save image, no mounted drive!"
                               else AJpegSave f (encode_ok (env w) f)]
                           ++ [ACam CmdTeardown; ACam CmdConfigureViewfinder;
                               ACam CmdStartCamera])%list ->
                     a <> AReboot /\ a <> ACam CmdConfigureStill).
           { intros a Hin.
             apply in_app_or in Hin. destruct Hin as [Hin|Hin].
             { destruct Hin as [<-|[<-|[]]]; split; discriminate. }
             apply in_app_or in Hin. destruct Hin as [Hin|Hin].
             { split; intros ->; [exact (Hrb Hin)|exact (no_cam_in _ _ Hcam Hin)]. }
             apply in_app_or in Hin. destruct Hin as [Hin|Hin].
             { destruct (empty f); destruct Hin as [<-|[]]; split; discriminate. }
             destruct Hin as [<-|[<-|[<-|[]]]]; split; discriminate. }
           split; [intros Hin; destruct (Hx _ Hin) as [H _]; congruence|].
           split; [intros Hin; destruct (Hx _ Hin) as [_ H]; congruence|].
           split; [auto|].
           intros _. split; [exact Henv'|]. split; [rewrite Hd'; auto|].
           split; [rewrite Ht'; auto|]. split; [auto|]. eauto.
        -- destruct (loop_body_still_throws w e Hm Hdest) as (w' & Hrun & _ & _ & Htr).
           destruct (destination_throw_cause w e Hdest) as (p & what & Hmk & He).
           exists (Throw e), w'. eexists. split; [exact Hrun|]. split; [exact Htr|].
           split; [discriminate|].
           split; [intros e0 H0; inversion H0; subst e0; right; eauto 10|].
           split; [discriminate|]. split; [discriminate|].
           split; [intros [H|[H|[]]]; discriminate H|].
           split; [intros [H|[H|[]]]; discriminate H|].
           split; [auto|]. discriminate.
      * exists (Ret Continue), w, []. rewrite app_nil_r.
        split.
        { unfold loop_body. crun. rewrite Hm. cbv iota. crun. rewrite Hm. reflexivity. }
        split; [reflexivity|].
        split; [discriminate|]. split; [discriminate|]. split; [discriminate|].
        split; [discriminate|].
        split; [intros []|]. split; [intros []|]. split; [intros name ok []|].
        intros _. split; [reflexivity|]. split; [auto|]. split; [auto|].
        split; [congruence|]. intros _ [m Hm0]. discriminate Hm0.
    + (* Timeout *)
      exists (Ret Continue). eexists. eexists.
      split; [unfold loop_body; crun; reflexivity|]. wsimpl.
      split; [rewrite <- !app_assoc; reflexivity|].
      split; [discriminate|]. split; [discriminate|]. split; [discriminate|].
      split; [discriminate|].
      split; [intros [H|[H|[H|[]]]]; discriminate H|].
      split; [intros [H|[H|[H|[]]]]; discriminate H|].
      split; [intros name ok [H|[H|[H|[]]]]; discriminate H|].
      intros _. split; [reflexivity|]. split; [auto|]. split; [auto|]. split; auto.
    + (* Quit *)
      exists (Ret Return), w, []. rewrite app_nil_r.
      split; [reflexivity|]. split; [reflexivity|].
      split; [discriminate|]. split; [discriminate|]. split; [auto|].
      split; [discriminate|].
      split; [intros []|]. split; [intros []|]. split; [intros name ok []|].
      discriminate.
    + (* Unrecognised *)
      exists (Throw (runtime_error "unrecognised message!")), w, []. rewrite app_nil_r.
      split; [reflexivity|]. split; [reflexivity|].
      split; [discriminate|]. split; [auto|]. split; [discriminate|].
      split; [discriminate|].
      split; [intros []|]. split; [intros []|]. split; [intros name ok []|].
      discriminate.
  - destruct (callback_summary gpio level tick w)
      as (r1 & w' & new & Hrun & Hr1 & Htr & Hharm & Henv & Hm & Hr & Hd & Ht).
    unfold _callbackExt, bind. rewrite Hrun.
    destruct Hr1 as [-> | (-> & -> & ->)].
    + exists (Ret Continue), w', new.
      split; [reflexivity|]. split; [exact Htr|].
      split; [discriminate|]. split; [discriminate|]. split; [discriminate|].
      split; [discriminate|].
      split; [intros Hin; destruct (harmless_in _ _ Hharm Hin)|].
      split; [intros Hin; destruct (harmless_in _ _ Hharm Hin)|].
      split; [intros name ok Hin; destruct (harmless_in _ _ Hharm Hin)|].
      intros _. split; [exact Henv|].
      split; [destruct Hd as [Hd| ->]; [rewrite Hd; auto|eauto]|].
      split; [destruct Ht as [Ht|[-> ->]]; [rewrite Ht; auto|eauto]|].
      split; [rewrite Hm; auto|]. rewrite Hm, Hr. auto.
    + exists OutOfFuel, w', new.
      split; [reflexivity|]. split; [exact Htr|].
      split; [eauto|]. split; [discriminate|]. split; [discriminate|].
      split; [discriminate|].
      split; [intros Hin; destruct (harmless_in _ _ Hharm Hin)|].
      split; [intros Hin; destruct (harmless_in _ _ Hharm Hin)|].
      split; [intros name ok Hin; destruct (harmless_in _ _ Hharm Hin)|].
      discriminate.
  - exists (Ret Continue), (set_env e w), []. rewrite app_nil_r.
    split; [reflexivity|]. split; [reflexivity|].
    split; [discriminate|]. split; [discriminate|]. split; [discriminate|].
    split; [discriminate|].
    split; [intros []|]. split; [intros []|]. split; [intros name ok []|].
    intros _. wsimpl. auto 10.
Qed.

(** ** Event loop: composition, idling, invariants *)

(** X13.  Pipeline timeouts are retried without limit and change
    nothing but the trace: after [n] consecutive timeouts the loop still
    waits, in the same mode and with the same intents pending, and has
    logged and restarted [n] times. *)
Theorem timeouts_only_restart (n : nat) (w : World) :
  exists w',
    loop (repeat (IWait Timeout) n) w = (Ret Waiting, w') /\
    mode w' = mode w /\ takeImage w' = takeImage w /\ doShutdown w' = doShutdown w /\
    (0 < n -> running w' = true)%nat /\
    trace w' = (trace w ++ List.concat (repeat (idle_actions Timeout) n))%list.
Proof.
  revert w. induction n as [|n IH]; intros w.
  - exists w. cbn [repeat loop List.concat]. rewrite app_nil_r.
    repeat split; try reflexivity. lia.
  - destruct (loop_body_timeout w) as (w1 & Hrun & Hm & Hr & Ht & Hd & Htr).
    destruct (IH w1) as (w' & Hrun' & Hm' & Ht' & Hd' & Hr' & Htr').
    exists w'. cbn [repeat loop input_step]. rewrite (bind_run _ _ _ _ _ Hrun).
    split; [exact Hrun'|]. split; [congruence|]. split; [congruence|].
    split; [congruence|]. split.
    + intros _. destruct n; [|apply Hr'; lia].
      cbn [repeat loop] in Hrun'. inversion Hrun'. subst w'. exact Hr.
    + rewrite Htr', Htr. cbn [List.concat idle_actions]. rewrite <- !app_assoc. reflexivity.
Qed.

(** X14.  With no intent pending the viewfinder idles: any sequence of
    frame completions and timeouts keeps the loop waiting in Viewfinder
    mode, forwards every frame to the preview and restarts on every
    timeout, and does nothing else. *)
Theorem viewfinder_idles (msgs : list MsgType) (w : World) :
  mode w = Some Viewfinder -> takeImage w = false -> doShutdown w = false ->
  forallb is_idle msgs = true ->
  exists w',
    loop (map IWait msgs) w = (Ret Waiting, w') /\
    mode w' = Some Viewfinder /\ takeImage w' = false /\ doShutdown w' = false /\
    env w' = env w /\ dirs w' = dirs w /\
    trace w' = (trace w ++ flat_map idle_actions msgs)%list.
Proof.
  revert w. induction msgs as [|msg msgs IH]; intros w Hm Ht Hd Hidle.
  - exists w. cbn [map loop flat_map]. rewrite app_nil_r. repeat split; assumption.
  - cbn [forallb] in Hidle. apply andb_true_iff in Hidle. destruct Hidle as [Hmsg Hidle].
    cbn [map loop input_step].
    destruct msg; try discriminate Hmsg.
    + rewrite (bind_run _ _ _ _ _ (loop_body_preview w Hm Ht Hd)).
      destruct (IH (set_trace (trace w ++ [ACam CmdShowPreview])%list w) Hm Ht Hd Hidle)
        as (w' & Hrun' & Hm' & Ht' & Hd' & He' & Hdi' & Htr').
      exists w'. split; [exact Hrun'|].
      repeat (split; [assumption|]).
      rewrite Htr'. wsimpl. cbn [flat_map idle_actions]. rewrite <- !app_assoc. reflexivity.
    + assert (Hrun : exists w1, loop_body Timeout w = (Ret Continue, w1) /\
                                mode w1 = mode w /\ takeImage w1 = takeImage w /\
                                doShutdown w1 = doShutdown w /\ env w1 = env w /\
                                dirs w1 = dirs w /\
                                trace w1 = (trace w ++ idle_actions Timeout)%list).
      { unfold loop_body. crun. eexists. split; [reflexivity|]. wsimpl.
        rewrite <- !app_assoc. auto 10. }
      destruct Hrun as (w1 & Hrun & Hm1 & Ht1 & Hd1 & He1 & Hdi1 & Htr1).
      rewrite (bind_run _ _ _ _ _ Hrun).
      destruct (IH w1) as (w' & Hrun' & Hm' & Ht' & Hd' & He' & Hdi' & Htr');
        [congruence|congruence|congruence|exact Hidle|].
      exists w'. split; [exact Hrun'|].
      split; [assumption|]. split; [assumption|]. split; [assumption|].
      split; [congruence|]. split; [congruence|].
      rewrite Htr', Htr1. cbn [flat_map]. rewrite <- !app_assoc. reflexivity.
Qed.

Lemma viewfinder_idles_witness :
  exists w',
    loop (map IWait [RequestComplete; Timeout; RequestComplete])
      (started (boot (calm_env None))) = (Ret Waiting, w') /\
    mode w' = Some Viewfinder /\ takeImage w' = false /\ doShutdown w' = false /\
    env w' = env (started (boot (calm_env None))) /\
    dirs w' = dirs (started (boot (calm_env None))) /\
    trace w' = (trace (started (boot (calm_env None)))
                ++ flat_map idle_actions [RequestComplete; Timeout; RequestComplete])%list.
Proof.
  exact (viewfinder_idles [RequestComplete; Timeout; RequestComplete]
           (started (boot (calm_env None))) eq_refl eq_refl eq_refl eq_refl).
Defined.

Lemma loop_waiting_invariant : forall inputs w w',
  running w = true -> (exists m, mode w = Some m) ->
  loop inputs w = (Ret Waiting, w') ->
  running w' = true /\ exists m, mode w' = Some m.
Proof.
  induction inputs as [|i inputs IH]; intros w w' Hr Hm Hrun.
  - cbn in Hrun. inversion Hrun. subst w'. auto.
  - cbn [loop] in Hrun. unfold bind in Hrun.
    destruct (input_step_summary i w)
      as (r & w1 & new & Hstep & _ & _ & _ & _ & _ & _ & _ & _ & Hcont).
    rewrite Hstep in Hrun.
    destruct r as [[|]|e| |]; try discriminate Hrun.
    destruct (Hcont eq_refl) as (_ & _ & _ & _ & Hinv).
    destruct (Hinv Hr Hm) as [Hr1 Hm1].
    exact (IH w1 w' Hr1 Hm1 Hrun).
Qed.

(** X15.  Whenever the event loop waits for the next event, the camera
    is running and configured for one of the two modes: every pass that
    stops or tears down the pipeline also reconfigures and restarts it
    before the next wait. *)
Theorem waits_with_camera_running (inputs : list Input) (w w' : World) :
  event_loop inputs w = (Ret Waiting, w') ->
  running w' = true /\ exists m, mode w' = Some m.
Proof.
  unfold event_loop. crun. intros Hrun.
  eapply loop_waiting_invariant; [| |exact Hrun]; [reflexivity|].
  exists Viewfinder. reflexivity.
Qed.

Lemma waits_with_camera_running_witness :
  running (snd (event_loop capture_frames (boot (calm_env (Some mounts_usb))))) = true /\
  exists m, mode (snd (event_loop capture_frames (boot (calm_env (Some mounts_usb)))))
            = Some m.
Proof.
  assert (H : event_loop capture_frames (boot (calm_env (Some mounts_usb)))
              = (Ret Waiting,
                 snd (event_loop capture_frames (boot (calm_env (Some mounts_usb))))))
    by (vm_compute; reflexivity).
  exact (waits_with_camera_running capture_frames (boot (calm_env (Some mounts_usb)))
           (snd (event_loop capture_frames (boot (calm_env (Some mounts_usb))))) H).
Defined.

(** ** main: start-up, exit status, what a run can and cannot do *)

Lemma world_ext (w1 w2 : World) :
  env w1 = env w2 -> clock w1 = clock w2 -> errno w1 = errno w2 ->
  dirs w1 = dirs w2 -> doShutdown w1 = doShutdown w2 -> takeImage w1 = takeImage w2 ->
  keyPowerTimeStart w1 = keyPowerTimeStart w2 -> mode w1 = mode w2 ->
  running w1 = running w2 -> trace w1 = trace w2 ->
  w1 = w2.
Proof.
  destruct w1, w2.
  cbn [env clock errno dirs doShutdown takeImage keyPowerTimeStart mode running trace].
  intros; subst; reflexivity.
Qed.

Ltac same_world :=
  apply world_ext; wsimpl; try reflexivity;
  unfold gpio_setup; cbn [map app]; rewrite <- ?app_assoc; reflexivity.

(** [main] in terms of the loop. *)
Lemma main_run inputs w :
  main inputs w =
  if negb (gpio_init_ok (env w)) then
    (Ret (Some (-1)),
     set_trace (trace w ++ [ALogError "ERROR: *** GPIO init failed ***"])%list w)
  else if negb (parse_ok (env w)) then
    (Ret (Some 0),
     set_trace (trace w ++ gpio_setup ++ [AGpioTerminate])%list
       (set_takeImage false (set_doShutdown false w)))
  else
    match loop inputs (started w) with
    | (Ret Returned, w') =>
        (Ret (Some 0), set_trace (trace w' ++ [AGpioTerminate])%list w')
    | (Ret Waiting, w') => (Ret None, w')
    | (Throw e, w') =>
        (Ret (Some (-1)),
         set_trace (trace w' ++ [ALogError ("ERROR: *** " ++ what e ++ " ***")])%list w')
    | (OutOfFuel, w') => (OutOfFuel, w')
    | (PoweredOff, w') => (PoweredOff, w')
    end.
Proof.
  unfold main, main_try.
  cbv beta iota delta [bind gets]. wsimpl.
  destruct (gpio_init_ok (env w)); cbn [negb].
  2:{ reflexivity. }
  unfold RPiCamJpegApp. crun.
  destruct (parse_ok (env w)); cbn [negb].
  2:{ crun. f_equal. same_world. }
  unfold event_loop. crun.
  destruct (verbose (env w) >=? 2) eqn:Hv; crun.
  - match goal with
    | |- context [loop inputs (set_running ?a ?b)] =>
        replace (set_running a b) with (started w)
          by (unfold started; rewrite Hv; same_world)
    end.
    destruct (loop inputs (started w)) as [[[|]|e| |] w']; crun; reflexivity.
  - match goal with
    | |- context [loop inputs (set_running ?a ?b)] =>
        replace (set_running a b) with (started w)
          by (unfold started; rewrite Hv; same_world)
    end.
    destruct (loop inputs (started w)) as [[[|]|e| |] w']; crun; reflexivity.
Qed.

(** X16.  Start-up failures.  When pigpio cannot be initialised, [main]
    reports it and returns -1 without touching a key, the flags or the
    camera.  When the options do not parse, [main] sets up the keys,
    never opens the camera, releases pigpio and returns 0.  In both
    cases none of the inputs is looked at. *)
Theorem main_startup_failures (inputs : list Input) (w : World) :
  (gpio_init_ok (env w) = false ->
   main inputs w =
   (Ret (Some (-1)),
    set_trace (trace w ++ [ALogError "ERROR: *** GPIO init failed ***"])%list w)) /\
  (gpio_init_ok (env w) = true -> parse_ok (env w) = false ->
   main inputs w =
   (Ret (Some 0),
    set_trace (trace w ++ gpio_setup ++ [AGpioTerminate])%list
      (set_takeImage false (set_doShutdown false w)))).
Proof.
  split.
  - intros Hg. rewrite main_run, Hg. reflexivity.
  - intros Hg Hp. rewrite main_run, Hg, Hp. reflexivity.
Qed.

Lemma main_startup_failures_witness :
  main session
    (boot (mk_Env None (mk_tm 0 0 0 1 0 124) (fun _ => MkdirCreated)
             (fun _ _ => None) (fun _ _ => None) (fun _ => 0) (fun _ => true)
             false true 0 (fun _ => 0) 16 true))
  = (Ret (Some (-1)),
     set_trace
       (trace (boot (mk_Env None (mk_tm 0 0 0 1 0 124) (fun _ => MkdirCreated)
                       (fun _ _ => None) (fun _ _ => None) (fun _ => 0)
                       (fun _ => true) false true 0 (fun _ => 0) 16 true))
        ++ [ALogError "ERROR: *** GPIO init failed ***"])%list
       (boot (mk_Env None (mk_tm 0 0 0 1 0 124) (fun _ => MkdirCreated)
                (fun _ _ => None) (fun _ _ => None) (fun _ => 0) (fun _ => true)
                false true 0 (fun _ => 0) 16 true))).
Proof.
  exact (proj1 (main_startup_failures session
                  (boot (mk_Env None (mk_tm 0 0 0 1 0 124) (fun _ => MkdirCreated)
                           (fun _ _ => None) (fun _ _ => None) (fun _ => 0)
                           (fun _ => true) false true 0 (fun _ => 0) 16 true)))
           eq_refl).
Defined.




Lemma loop_no_reboot : forall inputs w r w',
  doShutdown w = false ->
  no_edge_of KEY_POWER inputs ->
  loop inputs w = (r, w') ->
  exists new, trace w' = (trace w ++ new)%list /\ ~ In AReboot new /\
              (r = Ret Returned -> In (IWait Quit) inputs).
Proof.
  induction inputs as [|i inputs IH]; intros w r w' Hd Hno Hrun.
  - cbn in Hrun. inversion Hrun. exists []. rewrite app_nil_r.
    split; [reflexivity|]. split; [intros []|discriminate].
  - cbn [loop] in Hrun. unfold bind in Hrun.
    destruct (input_step_summary i w)
      as (r1 & w1 & new & Hstep & Htr & _ & _ & Hret & _ & Hrb & _ & _ & Hcont).
    rewrite Hstep in Hrun.
    assert (Hnew : ~ In AReboot new).
    { intros Hin. destruct (Hrb Hin) as [H _]. congruence. }
    destruct r1 as [[|]|e1| |].
    + destruct (Hcont eq_refl) as (_ & Hd1 & _).
      assert (Hd1' : doShutdown w1 = false).
      { destruct (doShutdown w1); [|reflexivity].
        destruct (Hd1 eq_refl) as [H|(level & tick & ->)]; [congruence|].
        exfalso. apply (Hno level tick). left. reflexivity. }
      destruct (IH w1 r w' Hd1') as (new' & Htr' & Hnew' & Hq'); [|exact Hrun|].
      { intros level tick Hin. apply (Hno level tick). right. exact Hin. }
      exists (new ++ new')%list. split; [rewrite Htr', Htr, app_assoc; reflexivity|].
      split.
      * intros Hin. apply in_app_or in Hin. tauto.
      * intros Hr. right. auto.
    + inversion Hrun. subst r w'. exists new. split; [exact Htr|]. split; [exact Hnew|].
      intros _. destruct (Hret eq_refl) as [-> | [Hin _]]; [left; reflexivity|tauto].
    + inversion Hrun. subst r w'. exists new. split; [exact Htr|]. split; [exact Hnew|].
      discriminate.
    + inversion Hrun. subst r w'. exists new. split; [exact Htr|]. split; [exact Hnew|].
      discriminate.
    + inversion Hrun. subst r w'. exists new. split; [exact Htr|]. split; [exact Hnew|].
      discriminate.
Qed.

Lemma started_trace w :
  exists setup,
    trace (started w) = (trace w ++ setup)%list /\
    ~ In AReboot setup /\ ~ In (ACam CmdConfigureStill) setup /\
    (forall name ok, ~ In (AJpegSave name ok) setup).
Proof.
  unfold started. wsimpl. eexists. split; [reflexivity|].
  unfold gpio_setup. cbn [map app].
  destruct (verbose (env w) >=? 2); cbn [app In];
    (split; [|split]); try intros name ok; intuition discriminate.
Qed.

(** X18.  The device never powers itself off unless a Power event was
    delivered: for inputs without any event on the Power line, whatever
    flags the world held before, [main] never calls [reboot], and its
    loop can only be left by a quit message or an exception. *)
Theorem no_power_off_without_power_event (inputs : list Input) (w : World) :
  no_edge_of KEY_POWER inputs ->
  (exists new, trace (snd (main inputs w)) = (trace w ++ new)%list /\ ~ In AReboot new) /\
  (gpio_init_ok (env w) = true -> parse_ok (env w) = true ->
   fst (main inputs w) = Ret (Some 0) -> In (IWait Quit) inputs).
Proof.
  intros Hno. rewrite main_run.
  destruct (gpio_init_ok (env w)); cbn [negb].
  2:{ split; [|discriminate]. eexists. split; [reflexivity|].
      cbn. intuition discriminate. }
  destruct (parse_ok (env w)); cbn [negb].
  2:{ split; [|discriminate]. eexists. split; [reflexivity|].
      unfold gpio_setup. cbn. intuition discriminate. }
  destruct (loop inputs (started w)) as [r w'] eqn:Hrun.
  destruct (loop_no_reboot inputs (started w) r w' eq_refl Hno Hrun)
    as (new & Htr & Hnew & Hq).
  destruct (started_trace w) as (setup & Hs & Hsr & _).
  rewrite Hs in Htr.
  destruct r as [[|]|e| |]; cbn [snd fst].
  - split; [|auto]. exists (setup ++ new ++ [AGpioTerminate])%list. wsimpl.
    split; [rewrite Htr, <- !app_assoc; reflexivity|].
    intros Hin. apply in_app_or in Hin. destruct Hin as [Hin|Hin]; [tauto|].
    apply in_app_or in Hin. destruct Hin as [Hin|Hin]; [tauto|].
    cbn in Hin. intuition discriminate.
  - split; [|discriminate]. exists (setup ++ new)%list.
    split; [rewrite Htr, <- !app_assoc; reflexivity|].
    intros Hin. apply in_app_or in Hin. tauto.
  - split; [|discriminate].
    exists (setup ++ new ++ [ALogError ("ERROR: *** " ++ what e ++ " ***")])%list. wsimpl.
    split; [rewrite Htr, <- !app_assoc; reflexivity|].
    intros Hin. apply in_app_or in Hin. destruct Hin as [Hin|Hin]; [tauto|].
    apply in_app_or in Hin. destruct Hin as [Hin|Hin]; [tauto|].
    cbn in Hin. intuition discriminate.
  - split; [|discriminate]. exists (setup ++ new)%list.
    split; [rewrite Htr, <- !app_assoc; reflexivity|].
    intros Hin. apply in_app_or in Hin. tauto.
  - split; [|discriminate]. exists (setup ++ new)%list.
    split; [rewrite Htr, <- !app_assoc; reflexivity|].
    intros Hin. apply in_app_or in Hin. tauto.
Qed.

Lemma no_power_off_without_power_event_witness :
  exists new,
    trace (snd (main session (boot (calm_env (Some mounts_usb)))))
    = (trace (boot (calm_env (Some mounts_usb))) ++ new)%list /\
    ~ In AReboot new.
Proof.
  apply (no_power_off_without_power_event session (boot (calm_env (Some mounts_usb)))).
  intros level tick Hin. cbn in Hin.
  repeat (destruct Hin as [Hin|Hin]; [discriminate Hin|]). exact Hin.
Defined.

Lemma loop_no_capture : forall inputs w r w',
  takeImage w = false -> mode w <> Some Still ->
  (forall tick, ~ In (IEdge KEY_MENU PI_LOW tick) inputs) ->
  loop inputs w = (r, w') ->
  exists new, trace w' = (trace w ++ new)%list /\
              ~ In (ACam CmdConfigureStill) new /\
              (forall name ok, ~ In (AJpegSave name ok) new).
Proof.
  induction inputs as [|i inputs IH]; intros w r w' Ht Hm Hno Hrun.
  - cbn in Hrun. inversion Hrun. exists []. rewrite app_nil_r.
    split; [reflexivity|]. split; [intros []|intros name ok []].
  - cbn [loop] in Hrun. unfold bind in Hrun.
    destruct (input_step_summary i w)
      as (r1 & w1 & new & Hstep & Htr & _ & _ & _ & _ & _ & Hcs & Hjs & Hcont).
    rewrite Hstep in Hrun.
    assert (Hnew1 : ~ In (ACam CmdConfigureStill) new).
    { intros Hin. destruct (Hcs Hin) as [H _]. congruence. }
    assert (Hnew2 : forall name ok, ~ In (AJpegSave name ok) new).
    { intros name ok Hin. apply Hm. exact (Hjs name ok Hin). }
    destruct r1 as [[|]|e1| |];
      try (inversion Hrun; subst r w'; exists new; auto).
    destruct (Hcont eq_refl) as (_ & _ & Ht1 & Hm1 & _).
    assert (Ht1' : takeImage w1 = false).
    { destruct (takeImage w1); [|reflexivity].
      destruct (Ht1 eq_refl) as [H|(tick & ->)]; [congruence|].
      exfalso. apply (Hno tick). left. reflexivity. }
    assert (Hm1' : mode w1 <> Some Still).
    { intros H. destruct (Hm1 H); congruence. }
    destruct (IH w1 r w' Ht1' Hm1') as (new' & Htr' & Hn1' & Hn2'); [|exact Hrun|].
    { intros tick Hin. apply (Hno tick). right. exact Hin. }
    exists (new ++ new')%list. split; [rewrite Htr', Htr, app_assoc; reflexivity|].
    split.
    + intros Hin. apply in_app_or in Hin. tauto.
    + intros name ok Hin. apply in_app_or in Hin.
      destruct Hin as [Hin|Hin]; [exact (Hnew2 _ _ Hin)|exact (Hn2' _ _ Hin)].
Qed.

(** X19.  The device never takes a picture unless Menu was pressed: for
    inputs without a press of Menu, whatever flags the world held
    before, [main] never configures the still mode and never calls the
    encoder. *)
Theorem no_capture_without_menu_press (inputs : list Input) (w : World) :
  (forall tick, ~ In (IEdge KEY_MENU PI_LOW tick) inputs) ->
  exists new,
    trace (snd (main inputs w)) = (trace w ++ new)%list /\
    ~ In (ACam CmdConfigureStill) new /\
    (forall name ok, ~ In (AJpegSave name ok) new).
Proof.
  intros Hno. rewrite main_run.
  destruct (gpio_init_ok (env w)); cbn [negb].
  2:{ eexists. split; [reflexivity|].
      split; [|intros name ok]; cbn; intuition discriminate. }
  destruct (parse_ok (env w)); cbn [negb].
  2:{ eexists. split; [reflexivity|]. unfold gpio_setup.
      split; [|intros name ok]; cbn; intuition discriminate. }
  destruct (loop inputs (started w)) as [r w'] eqn:Hrun.
  destruct (loop_no_capture inputs (started w) r w' eq_refl) as (new & Htr & Hn1 & Hn2);
    [discriminate|exact Hno|exact Hrun|].
  destruct (started_trace w) as (setup & Hs & _ & Hs1 & Hs2).
  rewrite Hs in Htr.
  assert (Hbody : ~ In (ACam CmdConfigureStill) (setup ++ new) /\
                  forall name ok, ~ In (AJpegSave name ok) (setup ++ new)).
  { split; [|intros name ok]; intros Hin; apply in_app_or in Hin;
      destruct Hin as [Hin|Hin]; eauto.
    - exact (Hs2 _ _ Hin).
    - exact (Hn2 _ _ Hin). }
  destruct Hbody as [Hb1 Hb2].
  destruct r as [[|]|e| |]; cbn [snd].
  - exists ((setup ++ new) ++ [AGpioTerminate])%list. wsimpl.
    split; [rewrite Htr, <- !app_assoc; reflexivity|].
    split; [|intros name ok]; intros Hin; apply in_app_or in Hin;
      destruct Hin as [Hin|Hin];
      [exact (Hb1 Hin)|destruct Hin as [Hin|[]]; discriminate Hin
      |exact (Hb2 _ _ Hin)|destruct Hin as [Hin|[]]; discriminate Hin].
  - exists (setup ++ new)%list. split; [rewrite Htr, <- !app_assoc; reflexivity|]. auto.
  - exists ((setup ++ new) ++ [ALogError ("ERROR: *** " ++ what e ++ " ***")])%list. wsimpl.
    split; [rewrite Htr, <- !app_assoc; reflexivity|].
    split; [|intros name ok]; intros Hin; apply in_app_or in Hin;
      destruct Hin as [Hin|Hin];
      [exact (Hb1 Hin)|destruct Hin as [Hin|[]]; discriminate Hin
      |exact (Hb2 _ _ Hin)|destruct Hin as [Hin|[]]; discriminate Hin].
  - exists (setup ++ new)%list. split; [rewrite Htr, <- !app_assoc; reflexivity|]. auto.
  - exists (setup ++ new)%list. split; [rewrite Htr, <- !app_assoc; reflexivity|]. auto.
Qed.

Lemma no_capture_without_menu_press_witness :
  exists new,
    trace (snd (main [IWait RequestComplete; IEdge KEY_DOWN PI_LOW 5; IWait Timeout;
                      IEdge KEY_MENU PI_HIGH 7; IWait RequestComplete]
                  (boot (calm_env (Some mounts_usb)))))
    = (trace (boot (calm_env (Some mounts_usb))) ++ new)%list /\
    ~ In (ACam CmdConfigureStill) new /\
    (forall name ok, ~ In (AJpegSave name ok) new).
Proof.
  apply (no_capture_without_menu_press
           [IWait RequestComplete; IEdge KEY_DOWN PI_LOW 5; IWait Timeout;
            IEdge KEY_MENU PI_HIGH 7; IWait RequestComplete]
           (boot (calm_env (Some mounts_usb)))).
  intros tick Hin. cbn in Hin.
  repeat (destruct Hin as [Hin|Hin]; [discriminate Hin|]). exact Hin.
Defined.

(** ** main: the two things the device is for *)

Lemma power_press_run w tick :
  _callback KEY_POWER PI_LOW tick w = (Ret tt, set_keyPowerTimeStart (Some tick) w).
Proof.
  unfold _callback. rewrite Z.eqb_refl.
  destruct (keyPowerTimeStart w) as [s|] eqn:Hs; mrun; rewrite ?Hs;
    change (PI_LOW =? PI_LOW) with true; mrun; f_equal; apply world_ext; reflexivity.
Qed.

Lemma power_release_run w press tick :
  keyPowerTimeStart w = Some press ->
  uint32 (tick - press) > 2000 * 1000 ->
  _callback KEY_POWER PI_HIGH tick w
  = (Ret tt, set_doShutdown true (set_trace (trace w ++ [ALog 1 "KEY POWER"])%list w)).
Proof.
  intros Hs Hlong. unfold _callback. rewrite Z.eqb_refl. mrun. rewrite Hs. mrun. rewrite Hs.
  change (PI_HIGH =? PI_LOW) with false. change (PI_HIGH =? PI_HIGH) with true.
  cbv iota. cbn [andb].
  assert (H : (uint32 (tick - press) >? 2000 * 1000) = true) by (apply Z.gtb_lt; lia).
  rewrite H. mrun. reflexivity.
Qed.

(** X20.  Holding Power through [main].  Once the program has started,
    a press of Power, a release whose counter difference exceeds two
    seconds and one completed frame make it stop the camera, flush the
    file systems and call [reboot], whatever the flags, the stored press
    time and the pending inputs were.  When the power-off succeeds the
    process ends there: pigpio is not released and [main] returns
    nothing.  Only when [reboot] fails does [main] release pigpio and
    return 0. *)
Theorem hold_powers_off (w : World) (press release : Z) (rest : list Input) :
  gpio_init_ok (env w) = true -> parse_ok (env w) = true ->
  uint32 (release - press) > 2000 * 1000 ->
  exists w',
    main (IEdge KEY_POWER PI_LOW press :: IEdge KEY_POWER PI_HIGH release
            :: IWait RequestComplete :: rest) w
    = (if reboot_ok (env w) then PoweredOff else Ret (Some 0), w') /\
    doShutdown w' = false /\
    trace w' = (trace (started w)
                ++ [ALog 1 "KEY POWER"; ACam CmdStopCamera; ACam CmdTeardown;
                    ALog 1 "Shutting down!"; ASync; AReboot]
                ++ (if reboot_ok (env w) then [] else [AGpioTerminate]))%list.
Proof.
  intros Hg Hp Hlong. rewrite main_run, Hg, Hp. cbn [negb].
  cbn [loop input_step]. unfold _callbackExt.
  rewrite (bind_run _ _ _ _ _ (bind_run _ _ _ _ _ (power_press_run (started w) press))).
  unfold ret at 1. cbv iota.
  set (w1 := set_keyPowerTimeStart (Some press) (started w)).
  assert (Hrel := power_release_run w1 press release eq_refl Hlong).
  rewrite (bind_run _ _ _ _ _ (bind_run _ _ _ _ _ Hrel)).
  unfold ret at 1. cbv iota.
  set (w2 := set_doShutdown true _).
  destruct (loop_body_shutdown w2 eq_refl eq_refl eq_refl)
    as (w3 & Hrun & Hd3 & _ & _ & Htr3).
  change (env w2) with (env w) in Hrun.
  unfold bind. rewrite Hrun.
  destruct (reboot_ok (env w)); cbv iota; unfold ret.
  - exists w3. split; [reflexivity|]. split; [exact Hd3|].
    rewrite Htr3. subst w2 w1. wsimpl. rewrite app_nil_r, <- !app_assoc. reflexivity.
  - eexists. split; [reflexivity|]. wsimpl.
    split; [exact Hd3|]. rewrite Htr3. subst w2 w1. wsimpl.
    rewrite <- !app_assoc. reflexivity.
Qed.

Lemma hold_powers_off_witness :
  exists w',
    main [IEdge KEY_POWER PI_LOW 4294000000; IEdge KEY_POWER PI_HIGH 2500000;
          IWait RequestComplete; IWait RequestComplete]
      (boot (calm_env (Some mounts_usb)))
    = (PoweredOff, w') /\
    doShutdown w' = false /\
    trace w' = (trace (started (boot (calm_env (Some mounts_usb))))
                ++ [ALog 1 "KEY POWER"; ACam CmdStopCamera; ACam CmdTeardown;
                    ALog 1 "Shutting down!"; ASync; AReboot] ++ [])%list.
Proof.
  apply (hold_powers_off (boot (calm_env (Some mounts_usb))) 4294000000 2500000
           [IWait RequestComplete]).
  - reflexivity.
  - reflexivity.
  - unfold uint32. vm_compute. reflexivity.
Defined.

Lemma menu_press_run w tick :
  _callback KEY_MENU PI_LOW tick w
  = (Ret tt, set_takeImage true (set_trace (trace w ++ [ALog 1 "KEY MENU"])%list w)).
Proof. unfold _callback. change (KEY_MENU =? KEY_POWER) with false. cbv iota.
  change ((KEY_MENU =? KEY_MENU) && (PI_LOW =? PI_LOW)) with true. mrun. reflexivity.
Qed.

(** The path and the storage actions of a successful filename
    generation. *)
Lemma generate_filename_path w volume :
  get_mount_location w = (Ret volume, w) ->
  volume <> "" ->
  calendar_time (wall_clock (env w)) ->
  dir_exists (volume ++ "/micropiscope") w = true \/
  mkdir_outcome (env w) (volume ++ "/micropiscope") = MkdirCreated ->
  generate_filename w
  = (Ret (volume ++ "/micropiscope/" ++ timestamp_jpg (wall_clock (env w))),
     set_trace
       (trace w
        ++ (if dir_exists (volume ++ "/micropiscope") w
            then []
            else [ACreateDirectory (volume ++ "/micropiscope")])
        ++ [AStdout ("Saving image at " ++ volume ++ "/micropiscope/"
                     ++ timestamp_jpg (wall_clock (env w)))])%list
       (set_dirs (if dir_exists (volume ++ "/micropiscope") w
                  then dirs w
                  else (volume ++ "/micropiscope") :: dirs w) w)).
Proof.
  intros Hloc Hne Ht Hdir.
  rewrite (generate_filename_run w volume Hloc).
  assert (Hempty : empty volume = false).
  { unfold empty. apply String.eqb_neq. exact Hne. }
  rewrite Hempty. cbv zeta.
  rewrite (strftime_calendar _ Ht).
  assert (Hpath : (volume ++ "/micropiscope") ++ "/" ++ timestamp_jpg (wall_clock (env w))
                  = volume ++ "/micropiscope/" ++ timestamp_jpg (wall_clock (env w))).
  { rewrite append_assoc. reflexivity. }
  rewrite (append_assoc (volume ++ "/micropiscope") "/").
  rewrite Hpath.
  destruct (dir_exists (volume ++ "/micropiscope") w) eqn:Hthere.
  - reflexivity.
  - destruct Hdir as [Hdir|Hdir]; [discriminate|]. rewrite Hdir.
    reflexivity.
Qed.

(** X21.  Taking a picture through [main].  With a removable volume
    mounted at [volume], the subdirectory there or creatable and a
    calendar wall clock, a press of Menu and two completed frames make
    the program switch to the still mode, hand the frame to the encoder
    exactly once, under [volume/micropiscope/<timestamp>.jpg], and
    return to the viewfinder; it then waits for the next frame with the
    capture request consumed.  The encoder's verdict plays no part. *)
Theorem menu_press_saves_image (w : World) (volume : string) (tick : Z) :
  gpio_init_ok (env w) = true -> parse_ok (env w) = true ->
  get_mount_location w = (Ret volume, w) ->
  volume <> "" ->
  calendar_time (wall_clock (env w)) ->
  dir_exists (volume ++ "/micropiscope") w = true \/
  mkdir_outcome (env w) (volume ++ "/micropiscope") = MkdirCreated ->
  exists w',
    main [IEdge KEY_MENU PI_LOW tick; IWait RequestComplete; IWait RequestComplete] w
    = (Ret None, w') /\
    mode w' = Some Viewfinder /\ running w' = true /\ takeImage w' = false /\
    dir_exists (volume ++ "/micropiscope") w' = true /\
    trace w' =
      (trace (started w)
       ++ [ALog 1 "KEY MENU";
           ACam CmdStopCamera; ACam CmdTeardown; ACam CmdConfigureStill; ACam CmdStartCamera;
           ACam CmdStopCamera; ALog 1 "Still capture image received"]
       ++ (if dir_exists (volume ++ "/micropiscope") w
           then []
           else [ACreateDirectory (volume ++ "/micropiscope")])
       ++ [AStdout ("Saving image at " ++ volume ++ "/micropiscope/"
                    ++ timestamp_jpg (wall_clock (env w)));
           AJpegSave (volume ++ "/micropiscope/" ++ timestamp_jpg (wall_clock (env w)))
                     (encode_ok (env w)
                        (volume ++ "/micropiscope/" ++ timestamp_jpg (wall_clock (env w))));
           ACam CmdTeardown; ACam CmdConfigureViewfinder; ACam CmdStartCamera])%list.
Proof.
  intros Hg Hp Hloc Hne Ht Hdir. rewrite main_run, Hg, Hp. cbn [negb].
  cbn [loop input_step]. unfold _callbackExt.
  rewrite (bind_run _ _ _ _ _ (bind_run _ _ _ _ _ (menu_press_run (started w) tick))).
  unfold ret at 1. cbv iota.
  set (w1 := set_takeImage true _).
  destruct (loop_body_capture w1 eq_refl eq_refl)
    as (w2 & Hrun2 & Hm2 & Hr2 & Ht2 & Hd2 & Henv2 & Hdirs2 & Htr2).
  rewrite (bind_run _ _ _ _ _ Hrun2). cbv iota.
  assert (Henv : env w2 = env w) by (rewrite Henv2; reflexivity).
  assert (Hdirs : dirs w2 = dirs w) by (rewrite Hdirs2; reflexivity).
  assert (Hstill :
    exists w3,
      loop_body RequestComplete w2 = (Ret Continue, w3) /\
      mode w3 = Some Viewfinder /\ running w3 = true /\ takeImage w3 = false /\
      dir_exists (volume ++ "/micropiscope") w3 = true /\
      trace w3 =
        (trace w2
         ++ [ACam CmdStopCamera; ALog 1 "Still capture image received"]
         ++ (if dir_exists (volume ++ "/micropiscope") w
             then []
             else [ACreateDirectory (volume ++ "/micropiscope")])
         ++ [AStdout ("Saving image at " ++ volume ++ "/micropiscope/"
                      ++ timestamp_jpg (wall_clock (env w)));
             AJpegSave (volume ++ "/micropiscope/" ++ timestamp_jpg (wall_clock (env w)))
                       (encode_ok (env w)
                          (volume ++ "/micropiscope/" ++ timestamp_jpg (wall_clock (env w))));
             ACam CmdTeardown; ACam CmdConfigureViewfinder; ACam CmdStartCamera])%list).
  { unfold loop_body. crun. rewrite Hm2. cbv iota. crun. rewrite Hm2. cbv iota beta.
    match goal with |- context [generate_filename ?x] => set (w2' := x) end.
    assert (Henv' : env w2' = env w) by (subst w2'; wsimpl; exact Henv).
    assert (Hdirs' : dirs w2' = dirs w) by (subst w2'; wsimpl; exact Hdirs).
    assert (Hex : dir_exists (volume ++ "/micropiscope") w2'
                  = dir_exists (volume ++ "/micropiscope") w).
    { apply dir_exists_frame; assumption. }
    assert (Hloc' := get_mount_location_env _ _ _ Hloc w2' Henv').
    assert (Hgen := generate_filename_path w2' volume Hloc' Hne).
    rewrite Hex, Henv', Hdirs' in Hgen.
    rewrite (Hgen Ht Hdir).
    assert (Hnonempty :
      empty (volume ++ "/micropiscope/" ++ timestamp_jpg (wall_clock (env w))) = false).
    { apply append_nonempty. discriminate. }
    rewrite Hnonempty. cbv iota beta. wsimpl. rewrite Henv'.
    eexists. split; [reflexivity|]. wsimpl.
    split; [reflexivity|]. split; [reflexivity|]. split; [exact Ht2|].
    split.
    { destruct (dir_exists (volume ++ "/micropiscope") w) eqn:Hthere.
      - erewrite dir_exists_frame;
          [exact Hthere|wsimpl; first [assumption|reflexivity]..].
      - destruct Hdir as [Hdir|Hdir]; [discriminate|].
        apply (dir_exists_created _ w);
          [exact Hdir|wsimpl; first [assumption|reflexivity]..]. }
    subst w2'. wsimpl. rewrite <- !app_assoc. reflexivity. }
  destruct Hstill as (w3 & Hrun3 & Hm3 & Hr3 & Ht3 & Hex3 & Htr3).
  rewrite (bind_run _ _ _ _ _ Hrun3). cbv iota. unfold ret.
  exists w3. split; [reflexivity|].
  split; [exact Hm3|]. split; [exact Hr3|]. split; [exact Ht3|]. split; [exact Hex3|].
  rewrite Htr3, Htr2. subst w1. wsimpl. rewrite <- !app_assoc. reflexivity.
Qed.

Lemma menu_press_saves_image_witness :
  exists w',
    main [IEdge KEY_MENU PI_LOW 7; IWait RequestComplete; IWait RequestComplete]
      (boot (calm_env (Some mounts_usb)))
    = (Ret None, w') /\
    mode w' = Some Viewfinder /\ running w' = true /\ takeImage w' = false /\
    dir_exists "/media/usb/micropiscope" w' = true /\
    In (AJpegSave "/media/usb/micropiscope/2024-01-02-03-04-05.jpg" true) (trace w').
Proof.
  assert (Hne : "/media/usb" <> "") by discriminate.
  assert (Ht : calendar_time (wall_clock (env (boot (calm_env (Some mounts_usb)))))).
  { unfold calendar_time. cbn. lia. }
  destruct (menu_press_saves_image (boot (calm_env (Some mounts_usb))) "/media/usb" 7
              eq_refl eq_refl eq_refl Hne Ht (or_intror eq_refl))
    as (w' & Hrun & Hm & Hr & Hti & Hex & Htr).
  exists w'. split; [exact Hrun|]. split; [exact Hm|]. split; [exact Hr|].
  split; [exact Hti|]. split; [exact Hex|].
  rewrite Htr. apply in_or_app. right. apply in_or_app. right. apply in_or_app. right.
  right. left. reflexivity.
Defined.
